(** * Hazard lookup service (app.py): a shallow embedding and its properties

    The development follows the layout of [app.py]:
    - [Py]: the part of the Python run time the program leans on
      (exceptions, [try]/[except], lists indexed the Python way, insertion
      ordered dictionaries, [min] with a key, binary64 floats);
    - [Re]: the fragment of [re] that the pattern of [safe_number] needs;
    - the helpers ([safe_number], [detect_field], [haversine_km],
      [point_geom_distance_km]);
    - [Layer], [load_layers], the index normalisers and [query_point];
    - the properties. *)

From Stdlib Require Import List String Ascii ZArith NArith Bool Lia.
From Stdlib Require Import Floats.SpecFloat.
Import ListNotations.

Open Scope string_scope.
Open Scope list_scope.
Open Scope Z_scope.

(* ------------------------------------------------------------------ *)
(** * Python run time *)

Module Py.

(** Exceptions that can reach the program.  Every one of them is a subclass
    of [Exception]; only [TypeError] is ever caught by name. *)
Inductive exn : Type :=
| TypeError
| ValueError
| IndexError
| AttributeError
| ZeroDivisionError
| GEOSException.

(** Outcome of evaluating an expression: a value, or a raised exception. *)
Inductive result (A : Type) : Type :=
| Ok (a : A)
| Raise (e : exn).
Arguments Ok {A} a.
Arguments Raise {A} e.

Definition bind {A B : Type} (c : result A) (k : A -> result B) : result B :=
  match c with
  | Ok a => k a
  | Raise e => Raise e
  end.

Notation "x <- c ;; k" := (bind c (fun x => k))
  (at level 61, c at next level, right associativity).
Notation "' p <- c ;; k" := (bind c (fun p => k))
  (at level 61, p pattern, c at next level, right associativity).

Definition is_ok {A : Type} (c : result A) : bool :=
  match c with Ok _ => true | Raise _ => false end.

(** [try: body / except Exception: handler] *)
Definition try_except {A : Type} (body handler : result A) : result A :=
  match body with
  | Ok a => Ok a
  | Raise _ => handler
  end.

(** [try: body / except TypeError: handler]; other exceptions pass through. *)
Definition try_except_TypeError {A : Type} (body handler : result A) : result A :=
  match body with
  | Raise TypeError => handler
  | other => other
  end.

(** ** Lists *)

(** [l[i]]: a negative index counts from the end, anything out of range
    raises [IndexError]. *)
Definition getitem {A : Type} (l : list A) (i : Z) : result A :=
  let n := Z.of_nat (List.length l) in
  let j := if i <? 0 then i + n else i in
  if (0 <=? j) && (j <? n)
  then match nth_error l (Z.to_nat j) with
       | Some a => Ok a
       | None => Raise IndexError
       end
  else Raise IndexError.

(** [range(n)] *)
Definition range (n : nat) : list Z := map Z.of_nat (seq 0 n).

(** [enumerate(l)] *)
Definition enumerate {A : Type} (l : list A) : list (Z * A) :=
  combine (range (List.length l)) l.

(** ** Insertion-ordered dictionaries with string keys *)

Definition dict (V : Type) : Type := list (string * V).

(** [d.get(k)] / [k in d] *)
Fixpoint dict_get {V : Type} (d : dict V) (k : string) : option V :=
  match d with
  | [] => None
  | (k', v) :: d' => if String.eqb k' k then Some v else dict_get d' k
  end.

Definition dict_mem {V : Type} (d : dict V) (k : string) : bool :=
  match dict_get d k with Some _ => true | None => false end.

(** [d[k] = v]: an existing key keeps its position, a new key goes last. *)
Fixpoint dict_set {V : Type} (d : dict V) (k : string) (v : V) : dict V :=
  match d with
  | [] => [(k, v)]
  | (k', v') :: d' =>
      if String.eqb k' k then (k', v) :: d' else (k', v') :: dict_set d' k v
  end.

(** [d.get(k, default)] *)
Definition dict_get_default {V : Type} (d : dict V) (k : string) (default : V) : V :=
  match dict_get d k with Some v => v | None => default end.

Definition keys {V : Type} (d : dict V) : list string := map fst d.

(** ** Floats: IEEE 754 binary64 *)

Definition float : Type := spec_float.

Definition prec : Z := 53.
Definition emax : Z := 1024.

Definition fadd : float -> float -> float := SFadd prec emax.
Definition fsub : float -> float -> float := SFsub prec emax.
Definition fmul : float -> float -> float := SFmul prec emax.
Definition flt : float -> float -> bool := SFltb.
Definition fgt (x y : float) : bool := SFltb y x.

(** [x / y] on floats raises on a zero divisor. *)
Definition fdiv (x y : float) : result float :=
  match y with
  | S754_zero _ => Raise ZeroDivisionError
  | _ => Ok (SFdiv prec emax x y)
  end.

(** The float nearest to [(-1)^neg * m / 10^k] (ties to even): what the
    correctly rounded decimal reader of Python produces for a literal or a
    string with integer digits and [k] fraction digits. *)
Definition float_of_decimal (neg : bool) (m : N) (k : nat) : float :=
  match m with
  | N0 => S754_zero neg
  | Npos p =>
      SFdiv prec emax (S754_finite neg p 0)
            (S754_finite false (Z.to_pos (10 ^ Z.of_nat k)) 0)
  end.

(** [float(n)] for a small integer literal *)
Definition float_of_Z (n : Z) : float :=
  float_of_decimal (n <? 0) (Z.abs_N n) 0.

(** [min(l, key=key)]: the first element that no other has a key below;
    [ValueError] on an empty list. *)
Fixpoint min_loop {A : Type} (key : A -> result float) (l : list A)
  (best : A) (bestk : float) : result A :=
  match l with
  | [] => Ok best
  | a :: l' =>
      k <- key a ;;
      if flt k bestk then min_loop key l' a k else min_loop key l' best bestk
  end.

Definition py_min {A : Type} (key : A -> result float) (l : list A) : result A :=
  match l with
  | [] => Raise ValueError
  | a :: l' => k <- key a ;; min_loop key l' a k
  end.

(** [round(x, n)] for [n >= 0]: the exact value of [x] is rounded to the
    nearest multiple of [10^-n], ties to even, and the decimal obtained is
    read back as a float; infinities and NaN round to themselves. *)
Definition round_half_even (num den : Z) : Z :=
  let q := num / den in
  let r := num mod den in
  match 2 * r ?= den with
  | Lt => q
  | Gt => q + 1
  | Eq => if Z.even q then q else q + 1
  end.

Definition round_ndigits (x : float) (n : nat) : float :=
  match x with
  | S754_finite s m e =>
      let scaled := Zpos m * 10 ^ Z.of_nat n in
      let q := if 0 <=? e then scaled * 2 ^ e
               else round_half_even scaled (2 ^ (- e)) in
      float_of_decimal s (Z.to_N q) n
  | _ => x
  end.

End Py.
Export Py.



(* ------------------------------------------------------------------ *)
(** * The fragment of [re] used by [safe_number]

    Text is a string of 8-bit characters, on which [\d] is a digit from 0
    to 9. *)

Module Re.

(** Greedy quantifiers over a character class. *)
Inductive quant : Type := Once | Opt | Star | Plus.

(** A pattern is a sequence of quantified character classes. *)
Definition atom : Type := ((ascii -> bool) * quant)%type.
Definition pattern : Type := list atom.

Definition is_digit (c : ascii) : bool :=
  let n := nat_of_ascii c in (48 <=? n)%nat && (n <=? 57)%nat.
Definition is_sign (c : ascii) : bool :=
  Ascii.eqb c "-" || Ascii.eqb c "+".
Definition is_dot (c : ascii) : bool := Ascii.eqb c ".".

(** One character of class [cls], then the continuation [k]. *)
Definition one (cls : ascii -> bool) (k : string -> option (string * string))
  (s : string) : option (string * string) :=
  match s with
  | String a s' =>
      if cls a
      then match k s' with
           | Some (m, r) => Some (String a m, r)
           | None => None
           end
      else None
  | EmptyString => None
  end.

(** As many characters of class [cls] as possible, giving them back one at
    a time while the continuation [k] fails. *)
Fixpoint many (cls : ascii -> bool) (k : string -> option (string * string))
  (s : string) : option (string * string) :=
  match s with
  | String a s' =>
      if cls a
      then match many cls k s' with
           | Some (m, r) => Some (String a m, r)
           | None => k s
           end
      else k s
  | EmptyString => k EmptyString
  end.

(** The backtracking matcher anchored at the head of the subject: the text
    matched and what follows it. *)
Fixpoint match_here (p : pattern) : string -> option (string * string) :=
  match p with
  | [] => fun s => Some (EmptyString, s)
  | (cls, q) :: p' =>
      let k := match_here p' in
      match q with
      | Once => one cls k
      | Opt => fun s => match one cls k s with
                        | Some r => Some r
                        | None => k s
                        end
      | Star => many cls k
      | Plus => one cls (many cls k)
      end
  end.

(** [re.findall]: scan left to right, each match resuming where the last
    one ended; [skip] counts the characters of the current match still to
    step over.  (No pattern of this program matches the empty string.) *)
Fixpoint findall_from (p : pattern) (skip : nat) (s : string) : list string :=
  match skip with
  | S n =>
      match s with
      | String _ s' => findall_from p n s'
      | EmptyString => []
      end
  | O =>
      match match_here p s with
      | Some (m, _) =>
          m :: match s with
               | String _ s' => findall_from p (Nat.pred (String.length m)) s'
               | EmptyString => []
               end
      | None =>
          match s with
          | String _ s' => findall_from p 0 s'
          | EmptyString => []
          end
      end
  end.

Definition findall (p : pattern) (s : string) : list string :=
  findall_from p 0 s.

End Re.

(* ------------------------------------------------------------------ *)
(** * Reading a float from text *)

Module FloatText.
Import Re.

(** Leading digits of [s] and what follows them. *)
Fixpoint span_digits (s : string) : string * string :=
  match s with
  | String a s' =>
      if is_digit a
      then let '(d, r) := span_digits s' in (String a d, r)
      else (EmptyString, s)
  | EmptyString => (EmptyString, EmptyString)
  end.

Definition digit_value (c : ascii) : N := (N_of_ascii c - 48)%N.

(** Value of a string of digits, most significant first, on top of [acc]. *)
Fixpoint digits_value (acc : N) (s : string) : N :=
  match s with
  | String a s' => digits_value (10 * acc + digit_value a)%N s'
  | EmptyString => acc
  end.

(** A plain decimal numeral: sign, integer digits, fraction digits. *)
Record decimal : Type := Decimal
  { dec_neg : bool; dec_int : string; dec_frac : string }.

(** [sign? digits* ('.' digits* )?] with at least one digit, nothing after. *)
Definition parse_decimal (s : string) : option decimal :=
  let '(neg, body) :=
    match s with
    | String c r => if is_sign c then (Ascii.eqb c "-", r) else (false, s)
    | EmptyString => (false, s)
    end in
  let '(ip, r1) := span_digits body in
  let '(fp, r2) :=
    match r1 with
    | String c r => if is_dot c then span_digits r else (EmptyString, r1)
    | EmptyString => (EmptyString, r1)
    end in
  match r2 with
  | EmptyString =>
      if (String.length ip + String.length fp =? 0)%nat then None
      else Some (Decimal neg ip fp)
  | _ => None
  end.

Definition float_of (d : decimal) : float :=
  float_of_decimal (dec_neg d)
    (digits_value (digits_value 0 (dec_int d)) (dec_frac d))
    (String.length (dec_frac d)).

End FloatText.

(* ------------------------------------------------------------------ *)
(** * What the program imports *)

(** Attribute values: the text read from a source file, or the float that
    [safe_number] made of it. *)
Inductive value : Type :=
| VStr (s : string)
| VFloat (f : float).

(** What an index hands back: [None], a sequence (a numpy array of
    positions, or a list of geometries in Shapely 1.8), a bare integer or a
    bare geometry; the last two cannot be iterated. *)
Inductive item (G : Type) : Type :=
| ItemInt (i : Z)
| ItemGeom (g : G).
Arguments ItemInt {G} i.
Arguments ItemGeom {G} g.

Inductive raw (G : Type) : Type :=
| RawNone
| RawSeq (items : list (item G))
| RawInt (i : Z)
| RawGeom (g : G).
Arguments RawNone {G}.
Arguments RawSeq {G} items.
Arguments RawInt {G} i.
Arguments RawGeom {G} g.

(** Builtins and [math]: the parts with no closed form here. *)
Class Builtins : Type :=
  { (** [str(x)] of a float *)
    float_repr : float -> string;
    (** [float(s)] for the spellings that are not plain decimal numerals
        (exponents, [inf], [nan], blanks, underscores), [ValueError] for
        the rest *)
    float_of_other : string -> result float;
    (** [x ** y] *)
    float_pow : float -> float -> result float;
    math_radians : float -> float;
    math_sin : float -> result float;
    math_cos : float -> result float;
    math_asin : float -> result float;
    math_sqrt : float -> result float }.

(** Shapely: geometries (points included) and the STR-packed R-tree. *)
Class Shapely : Type :=
  { geom : Type;
    (** [Point(x, y)] *)
    Point : float -> float -> geom;
    (** [g.x], [g.y] *)
    geom_x : geom -> result float;
    geom_y : geom -> result float;
    (** [g.covers(h)] *)
    covers : geom -> geom -> result bool;
    (** [g.distance(h)] *)
    distance : geom -> geom -> result float;
    (** [nearest_points(g, h)] *)
    nearest_points : geom -> geom -> result (geom * geom);
    (** [g.buffer(d)] *)
    buffer : geom -> float -> result geom;
    (** [g.is_valid], [make_valid(g)] *)
    is_valid : geom -> result bool;
    make_valid : geom -> result geom;
    (** [g.wkb], [g.equals(h)] *)
    wkb : geom -> result string;
    equals : geom -> geom -> result bool;
    (** [g.representative_point()], [list(g.exterior.coords)] *)
    representative_point : geom -> result geom;
    exterior_coords : geom -> result (list (float * float));
    STRtree : Type;
    (** [STRtree(geoms)] *)
    STRtree_new : list geom -> result STRtree;
    (** [len(tree)], which decides the truth value of a tree *)
    STRtree_len : STRtree -> nat;
    (** [tree.query(g)], [tree.nearest(g)] *)
    STRtree_query : STRtree -> geom -> result (raw geom);
    STRtree_nearest : STRtree -> geom -> result (raw geom) }.

(** The data directory: the paths [glob] finds, [Path(f).name], and the
    features [parse_kml_file] reads from a path for a field (it catches its
    own errors and returns what it has). *)
Class DataDir `{Shapely} : Type :=
  { glob_kml : list string;
    path_name : string -> string;
    parse_kml_file : string -> string -> list (geom * dict value * string) }.

(* ------------------------------------------------------------------ *)
(** * Configuration tables *)

Definition FILE_FIELD_MAP : dict string :=
  [ ("pga-earthquake", "pga");
    ("SS-earthquake", "ss");
    ("S1-earthquake", "s1");
    ("tl-earthquake", "tl");
    ("cr1-earthquake", "cr1");
    ("crs-earthquake", "crs");
    ("wind-sbc", "v");
    ("Inspection Areas", "inspection_area") ].

(** [COMBINE_RULES] and [UNITS] as the module defines them. *)
Definition COMBINE_RULES_0 : dict string :=
  [ ("pga", "max"); ("ss", "max"); ("s1", "max");
    ("cr1", "max"); ("crs", "max");
    ("tl", "first");
    ("v", "max");
    ("inspection_area", "first") ].

Definition UNITS_0 : dict string :=
  [ ("pga", "g"); ("ss", "g"); ("s1", "g");
    ("cr1", "g"); ("crs", "g");
    ("tl", "s");
    ("v", "m/s");
    ("inspection_area", "string") ].

(* ------------------------------------------------------------------ *)
(** * Helpers *)

Section Helpers.
Context `{Builtins}.

(** [str(val)] *)
Definition py_str (val : value) : string :=
  match val with
  | VStr s => s
  | VFloat f => float_repr f
  end.

(** [float(s)] on a string *)
Definition float_of_str (s : string) : result float :=
  match FloatText.parse_decimal s with
  | Some d => Ok (FloatText.float_of d)
  | None => float_of_other s
  end.

(** [float(val)] *)
Definition py_float (val : value) : result float :=
  match val with
  | VStr s => float_of_str s
  | VFloat f => Ok f
  end.

(** The pattern [[-+]?\d*\.?\d+]. *)
Definition NUMERAL : Re.pattern :=
  [ (Re.is_sign, Re.Opt); (Re.is_digit, Re.Star);
    (Re.is_dot, Re.Opt); (Re.is_digit, Re.Plus) ].

Definition safe_number (val : value) : value :=
  match
    (let m := Re.findall NUMERAL (py_str val) in
     match m with
     | m0 :: _ => f <- float_of_str m0 ;; Ok (VFloat f)
     | [] => Ok val
     end)
  with
  | Ok v => v
  | Raise _ => val
  end.

End Helpers.

(** ASCII [str.lower] *)
Definition lower_char (c : ascii) : ascii :=
  let n := nat_of_ascii c in
  if (65 <=? n)%nat && (n <=? 90)%nat then ascii_of_nat (n + 32) else c.

Fixpoint lower (s : string) : string :=
  match s with
  | String a s' => String (lower_char a) (lower s')
  | EmptyString => EmptyString
  end.

(** [sub in s] *)
Fixpoint contains (sub s : string) : bool :=
  String.prefix sub s ||
  match s with
  | String _ s' => contains sub s'
  | EmptyString => false
  end.

Fixpoint detect_field_in (table : dict string) (filename : string) : option string :=
  match table with
  | [] => None
  | (key, field) :: rest =>
      if contains (lower key) (lower filename) then Some field
      else detect_field_in rest filename
  end.

Definition detect_field (filename : string) : option string :=
  detect_field_in FILE_FIELD_MAP filename.

(* ------------------------------------------------------------------ *)
(** * Distances *)

Section Distance.
Context `{Builtins} `{Shapely}.

Definition two : float := float_of_Z 2.
Definition zero : float := S754_zero false.

(** The Earth radius of [haversine_km], 6371.0088 *)
Definition R_km : float := float_of_decimal false 63710088 4.

Definition haversine_km (lat1 lon1 lat2 lon2 : float) : result float :=
  let R := R_km in
  let dlat := math_radians (fsub lat2 lat1) in
  let dlon := math_radians (fsub lon2 lon1) in
  hlat <- fdiv dlat two ;;
  slat <- math_sin hlat ;;
  slat2 <- float_pow slat two ;;
  c1 <- math_cos (math_radians lat1) ;;
  c2 <- math_cos (math_radians lat2) ;;
  hlon <- fdiv dlon two ;;
  slon <- math_sin hlon ;;
  slon2 <- float_pow slon two ;;
  let a := fadd slat2 (fmul (fmul c1 c2) slon2) in
  r <- math_sqrt a ;;
  t <- math_asin r ;;
  Ok (fmul (fmul two R) t).

(** The second [try] block of [point_geom_distance_km]. *)
Definition nearest_distance_km (pt g : geom) : result float :=
  '(p1, p2) <- nearest_points pt g ;;
  y1 <- geom_y p1 ;;
  x1 <- geom_x p1 ;;
  y2 <- geom_y p2 ;;
  x2 <- geom_x p2 ;;
  d <- haversine_km y1 x1 y2 x2 ;;
  Ok (round_ndigits d 3).

(** [None] is Python's [None]; the function itself never raises. *)
Definition point_geom_distance_km (pt g : geom) : option float :=
  match covers g pt with
  | Ok true => Some zero
  | _ =>
      match nearest_distance_km pt g with
      | Ok d => Some d
      | Raise _ => None
      end
  end.

End Distance.

(* ------------------------------------------------------------------ *)
(** * Layers *)

Section Layers.
Context `{Builtins} `{Shapely}.

Record Layer : Type := mkLayer
  { field : string;
    geoms : list geom;
    attrs : list (dict value);
    sources : list string;
    strtree : option STRtree }.

(** [Layer(field)] *)
Definition Layer_new (fld : string) : Layer :=
  mkLayer fld [] [] [] None.

(** The body of the repair loop of [build_index] for one geometry. *)
Definition fix_geom (g : geom) : geom :=
  match (v <- is_valid g ;; if negb v then make_valid g else Ok g) with
  | Ok g' => g'
  | Raise _ => g
  end.

Definition build_index (L : Layer) : result Layer :=
  let fixed := map fix_geom (geoms L) in
  match fixed with
  | [] => Ok (mkLayer (field L) fixed (attrs L) (sources L) (strtree L))
  | _ :: _ =>
      t <- STRtree_new fixed ;;
      Ok (mkLayer (field L) fixed (attrs L) (sources L) (Some t))
  end.

(** One feature appended to a layer, its field value coerced on the way. *)
Definition add_feature (fld : string) (L : Layer)
  (feat : geom * dict value * string) : Layer :=
  let '(g, a, src) := feat in
  let a' :=
    match dict_get a fld with
    | Some val => dict_set a fld (safe_number val)
    | None => a
    end in
  mkLayer (field L) (geoms L ++ [g]) (attrs L ++ [a']) (sources L ++ [src])
          (strtree L).

Section Loading.
Context `{!DataDir}.

(** One turn of the first loop of [load_layers].  The [print] calls of
    the load write to the console and are left out, here and in
    [build_all]: the definitions describe a load whose console takes the
    text, and a [print] that raises would end the load as an exception of
    [build_index] does. *)
Definition load_file (layers : dict Layer) (f : string) : dict Layer :=
  let fname := path_name f in
  match detect_field fname with
  | None => layers
  | Some fld =>
      if String.eqb fld "" then layers
      else
        let feats := parse_kml_file f fld in
        let layers :=
          if dict_mem layers fld then layers
          else dict_set layers fld (Layer_new fld) in
        match dict_get layers fld with
        | Some L => dict_set layers fld (fold_left (add_feature fld) feats L)
        | None => layers
        end
  end.

(** The second loop of [load_layers]: an exception of [build_index] leaves
    the loop and the function. *)
Fixpoint build_all (layers : dict Layer) : result (dict Layer) :=
  match layers with
  | [] => Ok []
  | (fld, L) :: rest =>
      L' <- build_index L ;;
      rest' <- build_all rest ;;
      Ok ((fld, L') :: rest')
  end.

Definition load_layers : result (dict Layer) :=
  build_all (fold_left load_file glob_kml []).

End Loading.

(** Truth value of [L.strtree]: [None] and an empty tree are false. *)
Definition strtree_truthy (L : Layer) : option STRtree :=
  match strtree L with
  | Some t => if (STRtree_len t =? 0)%nat then None else Some t
  | None => None
  end.

(* ---------- Shapely 2.x normalizers ---------- *)

(** [next((i for i, g in enumerate(gs) if test(g)), None)] *)
Fixpoint first_index (test : geom -> result bool) (gs : list (Z * geom))
  : result (option Z) :=
  match gs with
  | [] => Ok None
  | (i, g) :: rest =>
      b <- test g ;;
      if b then Ok (Some i) else first_index test rest
  end.

Definition append_found (idxs : list Z) (found : option Z) : list Z :=
  match found with
  | Some i => idxs ++ [i]
  | None => idxs
  end.

(** The body of the loop of [_to_index_array] for one item. *)
Definition index_item (L : Layer) (idxs : list Z) (it : item geom)
  : result (list Z) :=
  match it with
  | ItemInt i => Ok (idxs ++ [i])
  | ItemGeom g =>
      match
        (cwkb <- wkb g ;;
         found <- first_index
                    (fun g' => w <- wkb g' ;; Ok (String.eqb w cwkb))
                    (enumerate (geoms L)) ;;
         Ok (append_found idxs found))
      with
      | Ok idxs' => Ok idxs'
      | Raise _ =>
          found <- first_index (fun g' => equals g' g) (enumerate (geoms L)) ;;
          Ok (append_found idxs found)
      end
  end.

(** The loop of [_to_index_array]: the positions collected so far survive
    an exception, which is returned beside them. *)
Fixpoint index_items (L : Layer) (idxs : list Z) (items : list (item geom))
  : list Z * option exn :=
  match items with
  | [] => (idxs, None)
  | it :: rest =>
      match index_item L idxs it with
      | Ok idxs' => index_items L idxs' rest
      | Raise e => (idxs, Some e)
      end
  end.

Definition _to_index_array (L : Layer) (cands : raw geom) : result (list Z) :=
  match cands with
  | RawNone => Ok []
  | RawSeq items =>
      match index_items L [] items with
      | (idxs, None) => Ok idxs
      | (idxs, Some TypeError) => Ok idxs
      | (_, Some e) => Raise e
      end
  | RawInt i => Ok [i]
  | RawGeom _ => Ok []
  end.

(** [lambda i: L.geoms[i].distance(pt)] *)
Definition distance_key (L : Layer) (pt : geom) (i : Z) : result float :=
  g <- getitem (geoms L) i ;; distance g pt.

Definition _nearest_index (L : Layer) (pt : geom) : result (option Z) :=
  match strtree_truthy L with
  | None => Ok None
  | Some t =>
      if (List.length (geoms L) =? 0)%nat then Ok None
      else
        res <- try_except_TypeError (STRtree_nearest t pt)
                                    (STRtree_nearest t pt) ;;
        idxs <- _to_index_array L res ;;
        match idxs with
        | i :: _ => Ok (Some i)
        | [] =>
            try_except
              (i <- py_min (distance_key L pt)
                           (range (List.length (geoms L))) ;;
               Ok (Some i))
              (Ok None)
        end
  end.


(* ------------------------------------------------------------------ *)
(** * Module globals and the code that runs against them *)

(** The module-level names [query_point] reads. *)
Record globals : Type := mkGlobals
  { LAYERS : dict Layer;
    COMBINE_RULES : dict string;
    UNITS : dict string }.

(** Code that runs with the globals in scope: it may read and write them,
    and ends with a value or an exception. *)
Definition M (A : Type) : Type := globals -> result A * globals.

Definition ret {A : Type} (a : A) : M A := fun G => (Ok a, G).

Definition bindM {A B : Type} (c : M A) (k : A -> M B) : M B :=
  fun G =>
    match c G with
    | (Ok a, G') => k a G'
    | (Raise e, G') => (Raise e, G')
    end.

(** Reading a global name. *)
Definition read {A : Type} (name : globals -> A) : M A :=
  fun G => (Ok (name G), G).

(** An expression that touches no global. *)
Definition lift {A : Type} (c : result A) : M A := fun G => (c, G).

(** [for x in l: st = body(x, st)] *)
Fixpoint for_each {A St : Type} (l : list A) (body : A -> St -> M St)
  (st : St) : M St :=
  match l with
  | [] => ret st
  | x :: l' => bindM (body x st) (for_each l' body)
  end.

(* ---------- query ---------- *)

(** One entry of [values]. *)
Record record : Type := mkRecord
  { r_value : value;
    r_unit : string;
    r_source : string;
    r_distance_km : option float }.

Record debug_row : Type := mkDebug
  { d_field : string;
    picked_from : string;
    d_value : value;
    selection : string;
    inside_or_on_boundary : bool;
    d_distance_km : option float;
    polygon_centroid_latlon : option (float * float);
    polygon_sample_latlon : option (list (float * float)) }.

(** The radius of the wider search, 0.45 *)
Definition search_radius : float := float_of_decimal false 45 2.

(** Step 1: candidates by the bounding box of the point. *)
Definition bbox_candidates (L : Layer) (t : STRtree) (pt : geom)
  : result (list Z) :=
  let raw := try_except (STRtree_query t pt) (Ok (RawSeq [])) in
  raw <- raw ;;
  _to_index_array L raw.

(** The [covers] loop: the first candidate whose geometry covers the
    point; a candidate that raises is passed over. *)
Fixpoint first_covering (L : Layer) (pt : geom) (cand_idxs : list Z)
  : option Z :=
  match cand_idxs with
  | [] => None
  | i :: rest =>
      match (g <- getitem (geoms L) i ;; covers g pt) with
      | Ok true => Some i
      | _ => first_covering L pt rest
      end
  end.

(** Step 2: candidates in the buffer around the point. *)
Definition expanded_candidates (L : Layer) (t : STRtree) (pt : geom)
  : result (list Z) :=
  let raw2 :=
    try_except (env <- buffer pt search_radius ;; STRtree_query t env)
               (Ok (RawSeq [])) in
  raw2 <- raw2 ;;
  _to_index_array L raw2.

(** Steps 1 to 4 for one layer with a tree: the position chosen, the
    selection mode and the inside flag. *)
Definition choose (L : Layer) (t : STRtree) (pt : geom) (force_nearest : bool)
  : result (option Z * string * bool) :=
  cand_idxs <- bbox_candidates L t pt ;;
  let '(chosen_idx, selection, inside) :=
    match first_covering L pt cand_idxs with
    | Some i => (Some i, "covers", true)
    | None => (None, "none", false)
    end in
  cand_idxs <-
    match chosen_idx, cand_idxs with
    | None, [] => expanded_candidates L t pt
    | _, _ => Ok cand_idxs
    end ;;
  let '(chosen_idx, selection) :=
    match chosen_idx, cand_idxs with
    | None, c0 :: _ =>
        (Some match py_min (distance_key L pt) cand_idxs with
              | Ok i => i
              | Raise _ => c0
              end,
         "nearest_of_candidates")
    | _, _ => (chosen_idx, selection)
    end in
  '(chosen_idx, selection) <-
    match chosen_idx with
    | None =>
        if force_nearest
        then
          chosen_idx <- _nearest_index L pt ;;
          match chosen_idx with
          | Some i => Ok (Some i, "nearest_of_layer")
          | None => Ok (None, selection)
          end
        else Ok (chosen_idx, selection)
    | Some _ => Ok (chosen_idx, selection)
    end ;;
  Ok (chosen_idx, selection, inside).

(** [float(value) > float(results[field]["value"])] and its mirror, inside
    their [try]: an exception counts as "do not replace". *)
Definition replaces (cmp : float -> float -> bool) (new old : value) : bool :=
  match (x <- py_float new ;; y <- py_float old ;; Ok (cmp x y)) with
  | Ok b => b
  | Raise _ => false
  end.

(** The assignment into [results] under the combine rule. *)
Definition combine (rule : string) (results : dict record) (fld : string)
  (rec : record) : dict record :=
  match dict_get results fld with
  | None => dict_set results fld rec
  | Some old =>
      if String.eqb rule "max" then
        if replaces fgt (r_value rec) (r_value old)
        then dict_set results fld rec else results
      else if String.eqb rule "min" then
        if replaces flt (r_value rec) (r_value old)
        then dict_set results fld rec else results
      else if String.eqb rule "last" then dict_set results fld rec
      else results
  end.

(** The debug row of a chosen geometry. *)
Definition make_debug (fld src : string) (val : value) (sel : string)
  (inside : bool) (dist : option float) (g : geom) : debug_row :=
  let centroid_latlon :=
    match (cent <- representative_point g ;;
           y <- geom_y cent ;;
           x <- geom_x cent ;;
           Ok (round_ndigits y 6, round_ndigits x 6)) with
    | Ok c => Some c
    | Raise _ => None
    end in
  let sample_ll :=
    match (ext <- exterior_coords g ;;
           let sample :=
             if (3 <=? List.length ext)%nat then firstn 3 ext else ext in
           Ok (map (fun '(x, y) => (round_ndigits y 6, round_ndigits x 6))
                   sample)) with
    | Ok s => Some s
    | Raise _ => None
    end in
  mkDebug fld src val sel inside dist centroid_latlon sample_ll.

Definition loop_state : Type := (dict record * list debug_row)%type.

(** The body of the loop of [query_point] for one [(field, L)] of
    [LAYERS.items()]; an unchanged state is a [continue]. *)
Definition query_layer (rules units : dict string) (pt : geom)
  (force_nearest want_debug : bool) (fld : string) (L : Layer)
  (st : loop_state) : result loop_state :=
  let '(results, debug_rows) := st in
  match strtree_truthy L with
  | None => Ok st
  | Some t =>
      '(chosen_idx, selection, inside) <- choose L t pt force_nearest ;;
      match chosen_idx with
      | None => Ok st
      | Some chosen_idx =>
          a <- getitem (attrs L) chosen_idx ;;
          match dict_get a fld with
          | None => Ok st
          | Some value =>
              g <- getitem (geoms L) chosen_idx ;;
              let dist_km := point_geom_distance_km pt g in
              src <- getitem (sources L) chosen_idx ;;
              let rec :=
                mkRecord value (dict_get_default units fld "") src dist_km in
              let rule := dict_get_default rules fld "first" in
              let results := combine rule results fld rec in
              if want_debug then
                src' <- getitem (sources L) chosen_idx ;;
                Ok (results,
                    debug_rows ++
                      [make_debug fld src' value selection inside
                                  (r_distance_km rec) g])
              else Ok (results, debug_rows)
          end
      end
  end.

Definition query_point (lat lon : float) (force_nearest want_debug : bool)
  : M (dict record * option (list debug_row)) :=
  let pt := Point lon lat in
  bindM (read LAYERS) (fun layers =>
  bindM (for_each layers
           (fun '(fld, L) st =>
              bindM (read COMBINE_RULES) (fun rules =>
              bindM (read UNITS) (fun units =>
              lift (query_layer rules units pt force_nearest want_debug
                                fld L st))))
           ([], [])) (fun '(results, debug_rows) =>
  ret (results, if want_debug then Some debug_rows else None))).

Section Startup.
Context `{!DataDir}.

(** Importing the module: [LAYERS = load_layers()] beside the tables. *)
Definition module_init : result globals :=
  layers <- load_layers ;;
  Ok (mkGlobals layers COMBINE_RULES_0 UNITS_0).

End Startup.

End Layers.

(* ------------------------------------------------------------------ *)
(** * A small world to run the program in

    Geometries are points and axis-parallel rectangles, filled or reduced
    to their outline; the tree is the list of its geometries.  [Faults]
    switches on failures of the index. *)

Module Toy.

Definition fle (x y : float) : bool := SFleb x y.
Definition feq (x y : float) : bool := SFeqb x y.
Definition fmax (x y : float) : float := if flt x y then y else x.
Definition fmin (x y : float) : float := if flt y x then y else x.

Inductive tgeom : Type :=
| TPoint (x y : float)
| TRect (filled : bool) (x0 y0 x1 y1 : float).

(** Rectangles with integer corners. *)
Definition box (x0 y0 x1 y1 : Z) : tgeom :=
  TRect true (float_of_Z x0) (float_of_Z y0) (float_of_Z x1) (float_of_Z y1).
Definition outline (x0 y0 x1 y1 : Z) : tgeom :=
  TRect false (float_of_Z x0) (float_of_Z y0) (float_of_Z x1) (float_of_Z y1).

Record Faults : Type := mkFaults
  { (** what [tree.nearest] raises, if it does *)
    nearest_raises : option exn;
    (** [STRtree(geoms)] fails on a list of this length *)
    build_fails_at : option nat }.

Definition no_faults : Faults := mkFaults None None.

(** Lower-left and upper-right corner. *)
Definition bounds (g : tgeom) : (float * float) * (float * float) :=
  match g with
  | TPoint x y => ((x, y), (x, y))
  | TRect _ x0 y0 x1 y1 => ((x0, y0), (x1, y1))
  end.

Definition in_bounds (g : tgeom) (x y : float) : bool :=
  let '((x0, y0), (x1, y1)) := bounds g in
  fle x0 x && fle x x1 && fle y0 y && fle y y1.

Definition on_edge (g : tgeom) (x y : float) : bool :=
  let '((x0, y0), (x1, y1)) := bounds g in
  feq x x0 || feq x x1 || feq y y0 || feq y y1.

(** Only a point can be covered. *)
Definition t_covers (g h : tgeom) : result bool :=
  match h with
  | TPoint x y =>
      Ok (in_bounds g x y &&
          match g with
          | TRect false _ _ _ _ => on_edge g x y
          | _ => true
          end)
  | TRect _ _ _ _ _ => Ok false
  end.

Definition intersects (g h : tgeom) : bool :=
  let '((gx0, gy0), (gx1, gy1)) := bounds g in
  let '((hx0, hy0), (hx1, hy1)) := bounds h in
  fle gx0 hx1 && fle hx0 gx1 && fle gy0 hy1 && fle hy0 gy1.

Definition clamp (lo hi x : float) : float :=
  if flt x lo then lo else if flt hi x then hi else x.

(** The point of [g] nearest to [(x, y)]. *)
Definition nearest_on (g : tgeom) (x y : float) : float * float :=
  let '((x0, y0), (x1, y1)) := bounds g in
  match g with
  | TRect false _ _ _ _ =>
      if in_bounds g x y then
        let dl := fsub x x0 in
        let dr := fsub x1 x in
        let db := fsub y y0 in
        let dt := fsub y1 y in
        let d := fmin (fmin dl dr) (fmin db dt) in
        if feq d dl then (x0, y)
        else if feq d dr then (x1, y)
        else if feq d db then (x, y0)
        else (x, y1)
      else (clamp x0 x1 x, clamp y0 y1 y)
  | _ => (clamp x0 x1 x, clamp y0 y1 y)
  end.

(** Only a point against a geometry is supported, as the program asks. *)
Definition t_nearest_points (g h : tgeom) : result (tgeom * tgeom) :=
  match g with
  | TPoint x y =>
      let '(nx, ny) := nearest_on h x y in Ok (g, TPoint nx ny)
  | TRect _ _ _ _ _ => Raise TypeError
  end.

Definition t_distance (g h : tgeom) : result float :=
  match h with
  | TPoint x y =>
      let '(nx, ny) := nearest_on g x y in
      let dx := fsub x nx in
      let dy := fsub y ny in
      Ok (SFsqrt prec emax (fadd (fmul dx dx) (fmul dy dy)))
  | TRect _ _ _ _ _ => Raise TypeError
  end.

Definition t_x (g : tgeom) : result float :=
  match g with TPoint x _ => Ok x | _ => Raise AttributeError end.
Definition t_y (g : tgeom) : result float :=
  match g with TPoint _ y => Ok y | _ => Raise AttributeError end.

(** The filled rectangle of the bounds grown by [d] on every side. *)
Definition t_buffer (g : tgeom) (d : float) : result tgeom :=
  let '((x0, y0), (x1, y1)) := bounds g in
  Ok (TRect true (fsub x0 d) (fsub y0 d) (fadd x1 d) (fadd y1 d)).

Definition t_equals (g h : tgeom) : result bool :=
  let '((gx0, gy0), (gx1, gy1)) := bounds g in
  let '((hx0, hy0), (hx1, hy1)) := bounds h in
  Ok (feq gx0 hx0 && feq gy0 hy0 && feq gx1 hx1 && feq gy1 hy1 &&
      match g, h with
      | TPoint _ _, TPoint _ _ => true
      | TRect f _ _ _ _, TRect f' _ _ _ _ => Bool.eqb f f'
      | _, _ => false
      end).

Definition t_exterior (g : tgeom) : result (list (float * float)) :=
  match g with
  | TRect true x0 y0 x1 y1 =>
      Ok [(x0, y0); (x1, y0); (x1, y1); (x0, y1); (x0, y0)]
  | _ => Raise AttributeError
  end.

Definition t_representative (g : tgeom) : result tgeom :=
  let '((x0, y0), _) := bounds g in Ok (TPoint x0 y0).

(** Positions of the geometries whose bounds meet the bounds of [g]. *)
Definition t_query (t : list tgeom) (g : tgeom) : result (raw tgeom) :=
  Ok (RawSeq (map (fun '(i, _) => ItemInt i)
                  (filter (fun '(_, h) => intersects h g) (enumerate t)))).

Fixpoint argmin (key : Z -> float) (l : list Z) (best : Z) : Z :=
  match l with
  | [] => best
  | i :: l' => argmin key l' (if flt (key i) (key best) then i else best)
  end.

Definition dist_to (t : list tgeom) (g : tgeom) (i : Z) : float :=
  match nth_error t (Z.to_nat i) with
  | Some h => match t_distance h g with Ok d => d | Raise _ => S754_nan end
  | None => S754_nan
  end.

Definition t_nearest (F : Faults) (t : list tgeom) (g : tgeom)
  : result (raw tgeom) :=
  match nearest_raises F with
  | Some e => Raise e
  | None =>
      match t with
      | [] => Ok RawNone
      | _ :: _ =>
          Ok (RawInt (argmin (dist_to t g) (range (List.length t)) 0))
      end
  end.

Definition t_new (F : Faults) (gs : list tgeom) : result (list tgeom) :=
  match build_fails_at F with
  | Some n => if (List.length gs =? n)%nat then Raise GEOSException else Ok gs
  | None => Ok gs
  end.

Definition shapely (F : Faults) : Shapely :=
  {| geom := tgeom;
     Point := TPoint;
     geom_x := t_x;
     geom_y := t_y;
     covers := t_covers;
     distance := t_distance;
     nearest_points := t_nearest_points;
     buffer := t_buffer;
     is_valid := fun _ => Ok true;
     make_valid := fun g => Ok g;
     wkb := fun _ => Raise AttributeError;
     equals := t_equals;
     representative_point := t_representative;
     exterior_coords := t_exterior;
     STRtree := list tgeom;
     STRtree_new := t_new F;
     STRtree_len := @List.length tgeom;
     STRtree_query := t_query;
     STRtree_nearest := t_nearest F |}.

(** Stand-ins for [math]: exact square root and squares, first-order
    series for the trigonometric functions. *)
Definition deg : float := float_of_decimal false 17453292519943295 18.

Definition builtins : Builtins :=
  {| float_repr := fun _ => "nan";
     float_of_other := fun _ => Raise ValueError;
     float_pow := fun x y => Ok (fmul x x);
     math_radians := fun x => fmul x deg;
     math_sin := fun x => Ok x;
     math_cos := fun _ => Ok (float_of_Z 1);
     math_asin := fun x => Ok x;
     math_sqrt := fun x =>
       match x with
       | S754_finite true _ _ | S754_infinity true => Raise ValueError
       | _ => Ok (SFsqrt prec emax x)
       end |}.

(** Two source files, for the fields [pga] and [v]. *)
Definition pga_file : string := "data/pga-earthquake.kml".
Definition wind_file : string := "data/wind-sbc.kml".

Definition strip_dir (f : string) : string :=
  if String.prefix "data/" f then String.substring 5 (String.length f - 5) f
  else f.

Definition features (F : Faults) (f fld : string)
  : list (@geom (shapely F) * dict value * string) :=
  if String.eqb f pga_file then
    [ (outline 0 0 30 30, [(fld, VStr "0.1")], strip_dir f);
      (box 0 0 10 10, [(fld, VStr "0.35 g")], strip_dir f);
      (box 8 0 20 10, [(fld, VStr "0.2")], strip_dir f);
      (box 40 0 50 10, [("note", VStr "no value")], strip_dir f) ]
  else if String.eqb f wind_file then
    [ (box 0 0 50 50, [(fld, VStr "12")], strip_dir f) ]
  else [].

Definition datadir (F : Faults) : @DataDir (shapely F) :=
  {| glob_kml := [pga_file; wind_file];
     path_name := strip_dir;
     parse_kml_file := features F |}.

(** Importing the module with the two files. *)
Definition start (F : Faults) : result (@globals (shapely F)) :=
  @module_init builtins (shapely F) (datadir F).

(** The layers the import builds. *)
Definition pga_layer (F : Faults) : @Layer (shapely F) :=
  let gs := [outline 0 0 30 30; box 0 0 10 10; box 8 0 20 10;
             box 40 0 50 10] in
  @mkLayer (shapely F) "pga" gs
    [ [("pga", VFloat (float_of_decimal false 1 1))];
      [("pga", VFloat (float_of_decimal false 35 2))];
      [("pga", VFloat (float_of_decimal false 2 1))];
      [("note", VStr "no value")] ]
    [ "pga-earthquake.kml"; "pga-earthquake.kml"; "pga-earthquake.kml";
      "pga-earthquake.kml" ]
    (Some gs).

Definition wind_layer (F : Faults) : @Layer (shapely F) :=
  let gs := [box 0 0 50 50] in
  @mkLayer (shapely F) "v" gs [ [("v", VFloat (float_of_Z 12))] ]
           [ "wind-sbc.kml" ] (Some gs).

(** A layer as the first loop of [load_layers] leaves it, without tree. *)
Definition unbuilt {F : Faults} (L : @Layer (shapely F)) : @Layer (shapely F) :=
  @mkLayer (shapely F) (field L) (geoms L) (attrs L) (sources L) None.

Definition G0 (F : Faults) : @globals (shapely F) :=
  @mkGlobals (shapely F) [("pga", pga_layer F); ("v", wind_layer F)]
             COMBINE_RULES_0 UNITS_0.

(** [query_point] on integer coordinates against the globals [G]. *)
Definition run_query (F : Faults) (G : @globals (shapely F))
  (lat lon : Z) (force_nearest want_debug : bool) :=
  @query_point builtins (shapely F) (float_of_Z lat) (float_of_Z lon)
               force_nearest want_debug G.

(** The index of [nearest] raising [TypeError], and the index that cannot
    be built over a single geometry. *)
Definition nearest_fault : Faults := mkFaults (Some TypeError) None.
Definition build_fault : Faults := mkFaults None (Some 1%nat).

End Toy.

(* ------------------------------------------------------------------ *)
(** * Vocabulary of the specification of [safe_number] *)

Module NumeralSpec.
Import Re FloatText.

Fixpoint all_digits (s : string) : bool :=
  match s with
  | String a s' => is_digit a && all_digits s'
  | EmptyString => true
  end.

Fixpoint has_digit (s : string) : bool :=
  match s with
  | String a s' => is_digit a || has_digit s'
  | EmptyString => false
  end.

Inductive Sign : string -> Prop :=
| Sign_none : Sign ""
| Sign_minus : Sign "-"
| Sign_plus : Sign "+".

(** An unsigned numeral: an integer, or a decimal whose integer part may
    be missing. *)
Inductive Unsigned : string -> Prop :=
| Unsigned_integer (ip : string) :
    all_digits ip = true -> ip <> "" -> Unsigned ip
| Unsigned_decimal (ip fp : string) :
    all_digits ip = true -> all_digits fp = true -> fp <> "" ->
    Unsigned (ip ++ "." ++ fp)%string.

(** A signed or unsigned integer or decimal numeral. *)
Inductive Numeral : string -> Prop :=
| Numeral_signed (sg u : string) :
    Sign sg -> Unsigned u -> Numeral (sg ++ u)%string.

(** [m] is the first numeral of [s]: no numeral of [s] starts further
    left, and none that starts where [m] does is longer. *)
Definition FirstNumeral (s m : string) : Prop :=
  exists pre post : string,
    s = (pre ++ m ++ post)%string /\
    Numeral m /\
    forall pre' m' post' : string,
      s = (pre' ++ m' ++ post')%string -> Numeral m' ->
      (String.length pre <= String.length pre')%nat /\
      (String.length pre' = String.length pre ->
       (String.length m' <= String.length m)%nat).

(** Closed form of the matcher on the pattern of [safe_number], without a
    sign: the digits, and a point with digits behind it if there is one. *)
Definition unsigned_at (s : string) : option (string * string) :=
  let '(ip, r1) := span_digits s in
  let plain :=
    match ip with
    | EmptyString => None
    | _ => Some (ip, r1)
    end in
  match r1 with
  | String c r =>
      if is_dot c
      then match span_digits r with
           | (EmptyString, _) => plain
           | (fp, r2) => Some ((ip ++ String c fp)%string, r2)
           end
      else plain
  | EmptyString => plain
  end.

Definition numeral_at (s : string) : option (string * string) :=
  match s with
  | String c body =>
      if is_sign c
      then match unsigned_at body with
           | Some (m, r) => Some (String c m, r)
           | None => None
           end
      else unsigned_at s
  | EmptyString => None
  end.

(** The matchers of the last atom and of the last two atoms of the
    pattern. *)
Definition kplus : string -> option (string * string) :=
  match_here [(is_digit, Plus)].
Definition ktail : string -> option (string * string) :=
  match_here [(is_dot, Opt); (is_digit, Plus)].

End NumeralSpec.

(* ------------------------------------------------------------------ *)
(** * Vocabulary of the properties of [query_point] *)

Section QueryVocabulary.
Context `{Builtins} `{Shapely}.

(** The loop of [query_point] with the tables passed in instead of read
    from the globals. *)
Fixpoint query_layers (rules units : dict string) (pt : geom)
  (force_nearest want_debug : bool) (layers : dict Layer) (st : loop_state)
  : result loop_state :=
  match layers with
  | [] => Ok st
  | (fld, L) :: rest =>
      st' <- query_layer rules units pt force_nearest want_debug fld L st ;;
      query_layers rules units pt force_nearest want_debug rest st'
  end.

(** What [query_point] returns from a final loop state. *)
Definition answer (want_debug : bool) (st : loop_state)
  : dict record * option (list debug_row) :=
  (fst st, if want_debug then Some (snd st) else None).

(** What the tiers make of one layer, whatever the loop state: nothing,
    or the record and the debug row of the geometry chosen. *)
Definition layer_pick (units : dict string) (pt : geom) (force_nearest : bool)
  (fld : string) (L : Layer) : result (option (record * debug_row)) :=
  match strtree_truthy L with
  | None => Ok None
  | Some t =>
      '(chosen_idx, selection, inside) <- choose L t pt force_nearest ;;
      match chosen_idx with
      | None => Ok None
      | Some chosen_idx =>
          a <- getitem (attrs L) chosen_idx ;;
          match dict_get a fld with
          | None => Ok None
          | Some value =>
              g <- getitem (geoms L) chosen_idx ;;
              let dist_km := point_geom_distance_km pt g in
              src <- getitem (sources L) chosen_idx ;;
              Ok (Some (mkRecord value (dict_get_default units fld "") src
                                 dist_km,
                        make_debug fld src value selection inside dist_km g))
          end
      end
  end.

(** The geometry at candidate position [i] covers the point. *)
Definition covers_at (L : Layer) (pt : geom) (i : Z) : bool :=
  match (g <- getitem (geoms L) i ;; covers g pt) with
  | Ok true => true
  | _ => false
  end.

(** The contract of a Shapely 2.x index over [n] geometries: an answer is
    a position, an array of positions, or [None]. *)
Definition position_ok (n : nat) (i : Z) : bool :=
  (0 <=? i) && (i <? Z.of_nat n).

Definition positions_ok (n : nat) (r : raw geom) : bool :=
  match r with
  | RawNone => true
  | RawInt i => position_ok n i
  | RawSeq items =>
      forallb (fun it => match it with
                         | ItemInt i => position_ok n i
                         | ItemGeom _ => false
                         end) items
  | RawGeom _ => false
  end.

(** A guarded call may raise; if it answers, it answers with positions. *)
Definition guarded_ok (n : nat) (r : result (raw geom)) : bool :=
  match r with
  | Ok r => positions_ok n r
  | Raise _ => true
  end.

(** A layer as [load_layers] leaves it (one attribute map and one source
    per geometry) whose index keeps the contract at the point [pt], and
    whose [nearest] answers. *)
Definition layer_ok (pt : geom) (L : Layer) : bool :=
  let n := List.length (geoms L) in
  (List.length (attrs L) =? n)%nat &&
  (List.length (sources L) =? n)%nat &&
  match strtree_truthy L with
  | None => true
  | Some t =>
      guarded_ok n (STRtree_query t pt) &&
      guarded_ok n (env <- buffer pt search_radius ;; STRtree_query t env) &&
      match STRtree_nearest t pt with
      | Ok r => positions_ok n r
      | Raise _ => false
      end
  end.

(** One attribute map and one source per geometry. *)
Definition balanced (L : Layer) : Prop :=
  List.length (attrs L) = List.length (geoms L) /\
  List.length (sources L) = List.length (geoms L).

(** The globals with another table of combine rules. *)
Definition with_rules (G : globals) (rules : dict string) : globals :=
  mkGlobals (LAYERS G) rules (UNITS G).

End QueryVocabulary.

(* ------------------------------------------------------------------ *)
(** * Vocabulary of the distance *)

Section DistanceVocabulary.
Context `{Builtins}.

(** The great-circle distance in kilometres between two points given by
    latitude and longitude in degrees, on a sphere of radius 6371.0088 km,
    by the haversine formula
      [d = 2 R asin (sqrt (sin^2 (dlat / 2)
                           + cos lat1 * cos lat2 * sin^2 (dlon / 2)))]
    with the angles turned to radians, every step a float operation and
    the functions those of [math]; there is no such distance when one of
    them raises. *)
Definition great_circle_km (lat1 lon1 lat2 lon2 d : float) : Prop :=
  exists slat slat2 c1 c2 slon slon2 r t,
    math_sin (SFdiv prec emax (math_radians (fsub lat2 lat1)) (float_of_Z 2))
    = Ok slat /\
    float_pow slat (float_of_Z 2) = Ok slat2 /\
    math_cos (math_radians lat1) = Ok c1 /\
    math_cos (math_radians lat2) = Ok c2 /\
    math_sin (SFdiv prec emax (math_radians (fsub lon2 lon1)) (float_of_Z 2))
    = Ok slon /\
    float_pow slon (float_of_Z 2) = Ok slon2 /\
    math_sqrt (fadd slat2 (fmul (fmul c1 c2) slon2)) = Ok r /\
    math_asin r = Ok t /\
    d = fmul (fmul (float_of_Z 2) (float_of_decimal false 63710088 4)) t.

End DistanceVocabulary.

(** [q] is the integer nearest to [m * 2^e * 10^n], the even one of two
    that are equally near. *)
Definition nearest_integer (m : positive) (e : Z) (n : nat) (q : Z) : Prop :=
  0 <= q /\
  (0 <= e -> q = Zpos m * 10 ^ Z.of_nat n * 2 ^ e) /\
  (e < 0 ->
   2 * Z.abs (Zpos m * 10 ^ Z.of_nat n - q * 2 ^ (- e)) <= 2 ^ (- e) /\
   (2 * Z.abs (Zpos m * 10 ^ Z.of_nat n - q * 2 ^ (- e)) = 2 ^ (- e) ->
    Z.even q = true)).

(** [r] is [x] rounded to [n] decimal places: the float of the decimal
    [q / 10^n] with the sign of [x], where [q] is the integer nearest to
    the exact value of [|x| * 10^n]; zeros, infinities and NaN are kept. *)
Definition rounded_to (n : nat) (x r : float) : Prop :=
  match x with
  | S754_finite s m e =>
      exists q, nearest_integer m e n q /\
                r = float_of_decimal s (Z.to_N q) n
  | _ => r = x
  end.

(* ------------------------------------------------------------------ *)
(** * Vocabulary of further properties *)

(** Where a float stands in the order of [<]: sign class, then exponent,
    then mantissa; NaN stands nowhere. *)
Definition float_rank (x : float) : option (Z * Z * Z) :=
  match x with
  | S754_nan => None
  | S754_infinity true => Some (-2, 0, 0)
  | S754_infinity false => Some (2, 0, 0)
  | S754_zero _ => Some (0, 0, 0)
  | S754_finite true m e => Some (-1, - e, - Zpos m)
  | S754_finite false m e => Some (1, e, Zpos m)
  end.

Definition rank_lt (a b : Z * Z * Z) : Prop :=
  let '(a1, a2, a3) := a in
  let '(b1, b2, b3) := b in
  a1 < b1 \/ (a1 = b1 /\ (a2 < b2 \/ (a2 = b2 /\ a3 < b3))).

(** A value as [safe_number] leaves it: a float, or text without a digit. *)
Definition coerced_value (v : value) : Prop :=
  match v with
  | VFloat _ => True
  | VStr s => NumeralSpec.has_digit s = false
  end.

Section MoreVocabulary.
Context `{Builtins} `{Shapely}.

(** The layer of an entry of the registry yields a record at the point. *)
Definition yields (units : dict string) (pt : geom) (force_nearest : bool)
  (kv : string * Layer) : bool :=
  match layer_pick units pt force_nearest (fst kv) (snd kv) with
  | Ok (Some _) => true
  | _ => false
  end.

(** Position [i] of the layer holds a geometry that is the item [g] of an
    index answer: same [wkb], or [equals]. *)
Definition matches (L : Layer) (g : geom) (i : Z) : Prop :=
  exists g', getitem (geoms L) i = Ok g' /\
             ((exists w, wkb g = Ok w /\ wkb g' = Ok w) \/
              equals g' g = Ok true).

(** A position is in the answer as an integer, or stands for a geometry
    of the answer. *)
Definition from_answer (L : Layer) (items : list (item geom)) (i : Z) : Prop :=
  In (ItemInt i) items \/ exists g, In (ItemGeom g) items /\ matches L g i.

(** Every distance from the point to a geometry at one of the positions
    can be computed. *)
Definition distances_ok (L : Layer) (pt : geom) (l : list Z) : Prop :=
  Forall (fun j => is_ok (distance_key L pt j) = true) l.

(** The records and debug rows of the layers that yield one, in the order
    of the registry; a layer whose turn raises yields none. *)
Definition picks_of (units : dict string) (pt : geom) (force_nearest : bool)
  (layers : dict Layer) : list (string * (record * debug_row)) :=
  flat_map (fun kv => match layer_pick units pt force_nearest
                              (fst kv) (snd kv) with
                      | Ok (Some p) => [(fst kv, p)]
                      | _ => []
                      end) layers.

(** What a debug row may say of the tier that chose the geometry. *)
Definition row_consistent (force_nearest : bool) (row : debug_row) : Prop :=
  (selection row = "covers" \/ selection row = "nearest_of_candidates" \/
   selection row = "nearest_of_layer") /\
  (inside_or_on_boundary row = true <-> selection row = "covers") /\
  (selection row = "covers" -> d_distance_km row = Some zero) /\
  (selection row = "nearest_of_layer" -> force_nearest = true).

(** A layer between the two loops of [load_layers]. *)
Definition collected (kv : string * Layer) : Prop :=
  field (snd kv) = fst kv /\
  In (fst kv) (map snd FILE_FIELD_MAP) /\
  balanced (snd kv) /\
  Forall (fun a => forall v, dict_get a (fst kv) = Some v -> coerced_value v)
         (attrs (snd kv)) /\
  strtree (snd kv) = None.

(** A layer of the registry under the key [k]: it carries its key, a
    field of the table; its lists go together; the value of its field in
    every attribute map is coerced; and its tree, built over its
    geometries, is there exactly when there are geometries. *)
Definition registered (k : string) (L : Layer) : Prop :=
  field L = k /\
  In k (map snd FILE_FIELD_MAP) /\
  balanced L /\
  Forall (fun a => forall v, dict_get a k = Some v -> coerced_value v)
         (attrs L) /\
  (geoms L = [] -> strtree L = None) /\
  (geoms L <> [] -> exists t, strtree L = Some t /\
                              STRtree_new (geoms L) = Ok t).

End MoreVocabulary.

(* ------------------------------------------------------------------ *)
(** * Methods of [str] *)

(** Text over the code points below 256. *)
Module Str.

(** [c.isspace()] *)
Definition isspace (c : ascii) : bool :=
  let n := nat_of_ascii c in
  ((9 <=? n) && (n <=? 13) || (28 <=? n) && (n <=? 32) ||
   (n =? 133) || (n =? 160))%nat.

(** The line boundaries of [splitlines]. *)
Definition is_linebreak (c : ascii) : bool :=
  let n := nat_of_ascii c in
  ((10 <=? n) && (n <=? 13) || (28 <=? n) && (n <=? 30) || (n =? 133))%nat.

Definition is_cr (c : ascii) : bool := (nat_of_ascii c =? 13)%nat.
Definition is_lf (c : ascii) : bool := (nat_of_ascii c =? 10)%nat.

Fixpoint lstrip (s : string) : string :=
  match s with
  | String a s' => if isspace a then lstrip s' else s
  | EmptyString => EmptyString
  end.

Fixpoint rstrip (s : string) : string :=
  match s with
  | String a s' =>
      match rstrip s' with
      | EmptyString => if isspace a then EmptyString else String a EmptyString
      | r => String a r
      end
  | EmptyString => EmptyString
  end.

(** [s.strip()] *)
Definition strip (s : string) : string := rstrip (lstrip s).

Definition lower_char (c : ascii) : ascii :=
  let n := nat_of_ascii c in
  if ((65 <=? n) && (n <=? 90) ||
      (192 <=? n) && (n <=? 222) && negb (n =? 215))%nat
  then ascii_of_nat (n + 32) else c.

(** [s.lower()] *)
Fixpoint lower (s : string) : string :=
  match s with
  | String a s' => String (lower_char a) (lower s')
  | EmptyString => EmptyString
  end.

(** A character put in front of the first piece of a split. *)
Definition push (a : ascii) (pieces : list string) : list string :=
  match pieces with
  | w :: ws => String a w :: ws
  | [] => [String a EmptyString]
  end.

(** [s.split()]: the runs of characters that are not white space. *)
Fixpoint split (s : string) : list string :=
  match s with
  | EmptyString => []
  | String a s' =>
      if isspace a then split s'
      else
        match s' with
        | String b _ =>
            if isspace b then String a EmptyString :: split s'
            else push a (split s')
        | EmptyString => [String a EmptyString]
        end
  end.

(** [s.split(c)]: the pieces between the occurrences of [c], empty ones
    included. *)
Fixpoint split_on (c : ascii) (s : string) : list string :=
  match s with
  | EmptyString => [EmptyString]
  | String a s' =>
      if Ascii.eqb a c then EmptyString :: split_on c s'
      else push a (split_on c s')
  end.

(** The two parts of [s.split(c, 1)] when [c] is in [s]; [None] when it is
    not. *)
Fixpoint split_once (c : ascii) (s : string) : option (string * string) :=
  match s with
  | EmptyString => None
  | String a s' =>
      if Ascii.eqb a c then Some (EmptyString, s')
      else
        match split_once c s' with
        | Some (k, v) => Some (String a k, v)
        | None => None
        end
  end.

(** The lines of [s], the text after [after_cr] characters of a carriage
    return: a line feed that follows a carriage return ends no line of its
    own. *)
Fixpoint splitlines_from (after_cr : bool) (s : string) : list string :=
  match s with
  | EmptyString => []
  | String a s' =>
      if after_cr && is_lf a then splitlines_from false s'
      else if is_linebreak a then EmptyString :: splitlines_from (is_cr a) s'
      else push a (splitlines_from false s')
  end.

(** [s.splitlines()] *)
Definition splitlines (s : string) : list string := splitlines_from false s.

(** [s.endswith(suffix)] *)
Fixpoint endswith (s suffix : string) : bool :=
  String.eqb s suffix ||
  match s with
  | String _ s' => endswith s' suffix
  | EmptyString => false
  end.

(** [l[-n:]] for a positive [n] *)
Definition last_n {A : Type} (n : nat) (l : list A) : list A :=
  skipn (List.length l - n) l.

End Str.

(* ------------------------------------------------------------------ *)
(** * Reading a source file *)

(** An element of a parsed document: its tag, its text, its children. *)
#[warnings="-register-all"]
Inductive element : Type :=
| Element (tag : string) (text : option string) (children : list element).

Definition tag (e : element) : string :=
  match e with Element t _ _ => t end.

(** [e.iter()]: the element, then its descendants in document order. *)
Fixpoint iter (e : element) : list element :=
  match e with
  | Element _ _ cs =>
      e :: (fix iter_all (l : list element) : list element :=
              match l with
              | [] => []
              | c :: l' => iter c ++ iter_all l'
              end) cs
  end.

(** The files of the data directory and the two library calls that read
    them: the paths [glob] finds, [Path(f).name], the root of
    [ET.parse(path)], and [Polygon(pts)]. *)
Class Files `{Shapely} : Type :=
  { glob_paths : list string;
    name_of : string -> string;
    ET_parse : string -> result element;
    Polygon : list (float * float) -> result geom }.

Module Kml.
Section Parse.
Context `{Builtins} `{Shapely} `{!Files}.

(** The [name], [description] and [coordinates] children of a placemark
    as the inner loop leaves them. *)
Definition slots : Type :=
  (option element * option element * option element)%type.

Definition assign (s : slots) (child : element) : slots :=
  let '(name, desc, coords) := s in
  let t := tag child in
  if Str.endswith t "name" then (Some child, desc, coords)
  else if Str.endswith t "description" then (name, Some child, coords)
  else if Str.endswith t "coordinates" then (name, desc, Some child)
  else s.

Definition pick_children (pm : element) : slots :=
  fold_left assign (iter pm) (None, None, None).

(** [e is not None and e.text]: the text of an element that has some. *)
Definition truthy_text (e : option element) : option string :=
  match e with
  | Some (Element _ (Some s) _) =>
      if String.eqb s EmptyString then None else Some s
  | _ => None
  end.

(** One line of a description. *)
Definition read_line (field : string) (attrs : dict value) (line : string)
  : dict value :=
  match Str.split_once ":" line with
  | Some (k, v) =>
      if String.eqb (Str.lower (Str.strip k)) (Str.lower field)
      then dict_set attrs field (VStr (Str.strip v))
      else attrs
  | None => attrs
  end.

Definition read_attrs (field : string) (name desc : option element)
  : dict value :=
  let attrs : dict value := [] in
  let attrs :=
    match truthy_text name with
    | Some s => dict_set attrs field (VStr (Str.strip s))
    | None => attrs
    end in
  match truthy_text desc with
  | Some s => fold_left (read_line field) (Str.splitlines s) attrs
  | None => attrs
  end.

(** One token of the coordinates: [lon, lat, *_ = token.split(",")], then
    the two floats. *)
Definition read_point (token : string) : result (float * float) :=
  match Str.split_on "," token with
  | lon :: lat :: _ =>
      x <- float_of_str lon ;;
      y <- float_of_str lat ;;
      Ok (x, y)
  | _ => Raise ValueError
  end.

Fixpoint read_points (pts : list (float * float)) (tokens : list string)
  : result (list (float * float)) :=
  match tokens with
  | [] => Ok pts
  | token :: rest =>
      p <- read_point token ;;
      read_points (pts ++ [p]) rest
  end.

(** The body of the inner [try]: the geometry to append, if any. *)
Definition read_polygon (coords_text : string) : result (option geom) :=
  pts <- read_points [] (Str.split (Str.strip coords_text)) ;;
  if (3 <=? List.length pts)%nat then
    g <- Polygon pts ;;
    Ok (Some g)
  else Ok None.

(** One turn of the loop over the placemarks. *)
Definition parse_placemark (path field : string)
  (results : list (geom * dict value * string)) (pm : element)
  : list (geom * dict value * string) :=
  let '(name, desc, coords) := pick_children pm in
  let attrs := read_attrs field name desc in
  match truthy_text coords with
  | None => results
  | Some coords_text =>
      match read_polygon coords_text with
      | Ok (Some g) => results ++ [(g, attrs, name_of path)]
      | Ok None => results
      | Raise _ => results
      end
  end.

Definition placemarks_of (root : element) : list element :=
  filter (fun el => Str.endswith (tag el) "Placemark") (iter root).

Definition parse_kml_file (path field : string)
  : list (geom * dict value * string) :=
  match ET_parse path with
  | Ok root => fold_left (parse_placemark path field) (placemarks_of root) []
  | Raise _ => []
  end.

End Parse.
End Kml.

(** The data directory read with [parse_kml_file]. *)
Definition files_datadir `{Builtins} `{Shapely} `{!Files} : DataDir :=
  {| glob_kml := glob_paths;
     path_name := name_of;
     parse_kml_file := Kml.parse_kml_file |}.

(* ------------------------------------------------------------------ *)
(** * The route [/api/query] *)

(** [str(e)] and [traceback.format_exc()] for a caught exception. *)
Class Tracebacks : Type :=
  { exn_str : exn -> string;
    format_exc : exn -> string }.

(** What the route hands to [JSONResponse]: the payload of an answer,
    whose [debug] key is there only on request, or the report of an
    error. *)
Inductive content : Type :=
| QueryPayload (lat lon : float) (nearest : bool) (values : dict record)
               (debug : option (option (list debug_row)))
| ErrorPayload (error message : string) (trace : list string).

Record response : Type := mkResponse
  { status_code : Z;
    body : content }.

(** Floats that JSON can carry: [JSONResponse] renders with
    [allow_nan=False]. *)
Definition is_finite (x : float) : bool :=
  match x with
  | S754_zero _ | S754_finite _ _ _ => true
  | S754_infinity _ | S754_nan => false
  end.

Definition value_finite (v : value) : bool :=
  match v with
  | VFloat f => is_finite f
  | VStr _ => true
  end.

Definition opt_finite (o : option float) : bool :=
  match o with
  | Some f => is_finite f
  | None => true
  end.

Definition pair_finite (p : float * float) : bool :=
  is_finite (fst p) && is_finite (snd p).

Definition record_finite (r : record) : bool :=
  value_finite (r_value r) && opt_finite (r_distance_km r).

Definition row_finite (d : debug_row) : bool :=
  value_finite (d_value d) && opt_finite (d_distance_km d) &&
  match polygon_centroid_latlon d with
  | Some p => pair_finite p
  | None => true
  end &&
  match polygon_sample_latlon d with
  | Some l => forallb pair_finite l
  | None => true
  end.

Definition serialisable (c : content) : bool :=
  match c with
  | QueryPayload lat lon _ values debug =>
      is_finite lat && is_finite lon &&
      forallb (fun kv => record_finite (snd kv)) values &&
      match debug with
      | Some (Some rows) => forallb row_finite rows
      | _ => true
      end
  | ErrorPayload _ _ _ => true
  end.

(** [JSONResponse(content, status_code)]: the body is rendered when the
    response is made, and a float that JSON cannot carry raises
    [ValueError]. *)
Definition JSONResponse (status : Z) (c : content) : result response :=
  if serialisable c then Ok (mkResponse status c) else Raise ValueError.

Section Routes.
Context `{Builtins} `{Shapely} `{Tracebacks}.

Definition api_query (lat lon : float) (nearest debug : bool) : M response :=
  fun G =>
    let '(r, G') := query_point lat lon nearest debug G in
    match ('(values, dbg) <- r ;;
           let payload :=
             QueryPayload lat lon nearest values
                          (if debug then Some dbg else None) in
           JSONResponse 200 payload) with
    | Ok resp => (Ok resp, G')
    | Raise e =>
        (JSONResponse 500
           (ErrorPayload "internal_error" (exn_str e)
              (Str.last_n 3 (Str.splitlines (format_exc e)))),
         G')
    end.

End Routes.

(** ** Vocabulary of the properties of the reader *)

(** The value that a line of a description gives to the field: the text
    after the first colon, stripped, when the text before it is the name
    of the field up to case and surrounding white space. *)
Definition line_value (field line : string) : option string :=
  match Str.split_once ":" line with
  | Some (k, v) =>
      if String.eqb (Str.lower (Str.strip k)) (Str.lower field)
      then Some (Str.strip v) else None
  | None => None
  end.

(** The last element of a list whose tag ends with the suffix. *)
Definition last_with (suffix : string) (l : list element) : option element :=
  hd_error (rev (filter (fun e => Str.endswith (tag e) suffix) l)).

(** The attribute map that a name element alone gives. *)
Definition name_attrs (field : string) (name_text : option string)
  : dict value :=
  match name_text with
  | Some s => [(field, VStr (Str.strip s))]
  | None => []
  end.

(** No comma in the text. *)
Definition comma_free (s : string) : bool :=
  match Str.split_once "," s with
  | Some _ => false
  | None => true
  end.

(** The last character of a text. *)
Fixpoint last_char (s : string) : option ascii :=
  match s with
  | EmptyString => None
  | String a EmptyString => Some a
  | String _ s' => last_char s'
  end.


(** The first of two options that holds something. *)
Definition or_else {A : Type} (o default : option A) : option A :=
  match o with
  | Some _ => o
  | None => default
  end.

Section ReaderVocabulary.
Context `{Builtins} `{Shapely} `{!Files}.

(** A source of the layer of the field [k]: the name of a file of the
    data directory that [detect_field] gives to [k]. *)
Definition read_from (k src : string) : Prop :=
  exists f, In f glob_paths /\ src = name_of f /\
            detect_field (name_of f) = Some k.

(** An attribute map that holds nothing, or the field [k] alone with a
    coerced value. *)
Definition field_only (k : string) (a : dict value) : Prop :=
  a = [] \/ exists v, a = [(k, v)] /\ coerced_value v.

(** The registry entry [kv] holds only what the reader gave it. *)
Definition as_read (kv : string * Layer) : Prop :=
  Forall (field_only (fst kv)) (attrs (snd kv)) /\
  Forall (read_from (fst kv)) (sources (snd kv)).

End ReaderVocabulary.

(* ------------------------------------------------------------------ *)
(** * A sample document *)

Module Samples.
Import Toy.

(** The bounding rectangle of the points stands for [Polygon]. *)
Definition hull (pts : list (float * float)) : result tgeom :=
  match pts with
  | [] => Raise ValueError
  | (x, y) :: rest =>
      let '(x0, y0, x1, y1) :=
        fold_left (fun '(x0, y0, x1, y1) '(x, y) =>
                     (fmin x0 x, fmin y0 y, fmax x1 x, fmax y1 y))
                  rest (x, y, x, y) in
      Ok (TRect true x0 y0 x1 y1)
  end.

Definition nl : string := String (ascii_of_nat 10) EmptyString.

Definition ns (t : string) : string :=
  "{http://www.opengis.net/kml/2.2}" ++ t.

Definition leaf (t s : string) : element := Element (ns t) (Some s) [].

Definition ring (s : string) : element :=
  Element (ns "Polygon") None
    [Element (ns "outerBoundaryIs") None
       [Element (ns "LinearRing") None [leaf "coordinates" s]]].

(** Five placemarks: one whose description names the field, one with a
    name only, one with a token without comma, one with two points, one
    without coordinates. *)
Definition pga_doc : element :=
  Element (ns "kml") None
    [Element (ns "Document") None
       [ leaf "name" "PGA zones";
         Element (ns "Placemark") None
           [ leaf "name" " 0.35 g ";
             leaf "description"
                  ("zone: 2" ++ nl ++ " PGA : 0.4 g " ++ nl ++ "note: none");
             ring "0,0,0 10,0,0 10,10,0 0,10,0 0,0,0" ];
         Element (ns "Placemark") None
           [ leaf "name" "0.2"; ring " 8,0 20,0 20,10 8,10 " ];
         Element (ns "Placemark") None
           [ leaf "name" "0.9"; ring "0,0 10 10,10 0,10" ];
         Element (ns "Placemark") None
           [ leaf "name" "0.8"; ring "0,0 1,1" ];
         Element (ns "Placemark") None [ leaf "name" "0.7" ] ]].

Definition notes_file : string := "data/notes.kml".

(** The data directory holds the document, a file that no field claims
    and a file that cannot be parsed. *)
Definition files (F : Faults) : @Files (shapely F) :=
  @Build_Files (shapely F)
    [pga_file; notes_file; wind_file]
    strip_dir
    (fun path =>
       if String.eqb path pga_file then Ok pga_doc else Raise ValueError)
    hull.

(** Two rings around the same corner, the wider one first. *)
Definition rings_layer (F : Faults) : @Layer (shapely F) :=
  let gs := [outline 0 0 40 40; outline 0 0 30 30] in
  @mkLayer (shapely F) "pga" gs
    [ [("pga", VFloat (float_of_decimal false 1 1))];
      [("pga", VFloat (float_of_decimal false 2 1))] ]
    [ "pga-earthquake.kml"; "pga-earthquake.kml" ]
    (Some gs).

(** The registry that the data directory gives: the two placemarks that
    can be read, and a layer without geometry for the file that cannot be
    parsed. *)
Definition read_layers (F : Faults) : dict (@Layer (shapely F)) :=
  let gs := [box 0 0 10 10; box 8 0 20 10] in
  [ ("pga",
     @mkLayer (shapely F) "pga" gs
       [ [("pga", VFloat (float_of_decimal false 4 1))];
         [("pga", VFloat (float_of_decimal false 2 1))] ]
       [ "pga-earthquake.kml"; "pga-earthquake.kml" ]
       (Some gs));
    ("v", @mkLayer (shapely F) "v" [] [] [] None) ].

(** No exception text is kept. *)
Definition tracebacks : Tracebacks :=
  {| exn_str := fun _ => "error";
     format_exc := fun _ => "Traceback (most recent call last):" |}.

(** The route on integer coordinates against the sample layers. *)
Definition route (F : Faults) (lat lon : Z) (nearest debug : bool)
  : result response :=
  fst (@api_query builtins (shapely F) tracebacks
         (float_of_Z lat) (float_of_Z lon) nearest debug (G0 F)).

End Samples.

(* ------------------------------------------------------------------ *)
(** * Properties of [safe_number] *)

Module NumeralFacts.
Import Re FloatText NumeralSpec.

Local Open Scope string_scope.

Lemma span_digits_spec (s : string) :
  let '(d, r) := span_digits s in
  s = d ++ r /\ all_digits d = true /\
  match r with String a _ => is_digit a = false | EmptyString => True end.
Proof.
  induction s as [|a s IH]; simpl.
  - auto.
  - destruct (is_digit a) eqn:Ea.
    + destruct (span_digits s) as [d r]. destruct IH as (-> & Hd & Hr).
      simpl. rewrite Ea, Hd. auto.
    + simpl. auto.
Qed.

Lemma span_digits_app (d x : string) :
  all_digits d = true ->
  span_digits (d ++ x) = (d ++ fst (span_digits x), snd (span_digits x)).
Proof.
  induction d as [|a d IH]; simpl; intros Hd.
  - destruct (span_digits x); reflexivity.
  - apply andb_prop in Hd. destruct Hd as [Ha Hd].
    rewrite Ha, (IH Hd). reflexivity.
Qed.

Lemma span_digits_stop (s : string) :
  match s with String a _ => is_digit a = false | EmptyString => True end ->
  span_digits s = ("", s).
Proof.
  destruct s as [|a s]; simpl; [reflexivity|]. intros ->. reflexivity.
Qed.

Lemma many_digits_end (s : string) :
  many is_digit (fun r => Some ("", r)) s = Some (span_digits s).
Proof.
  induction s as [|a s IH]; simpl; [reflexivity|].
  destruct (is_digit a); [|reflexivity].
  rewrite IH. destruct (span_digits s). reflexivity.
Qed.

Lemma dot_not_digit (a : ascii) : is_dot a = true -> is_digit a = false.
Proof.
  unfold is_dot. intros E. apply Ascii.eqb_eq in E. subst a. reflexivity.
Qed.

Lemma sign_not_digit (a : ascii) : is_sign a = true -> is_digit a = false.
Proof.
  unfold is_sign. intros E. apply orb_prop in E.
  destruct E as [E|E]; apply Ascii.eqb_eq in E; subst a; reflexivity.
Qed.

Lemma sign_not_dot (a : ascii) : is_sign a = true -> is_dot a = false.
Proof.
  unfold is_sign. intros E. apply orb_prop in E.
  destruct E as [E|E]; apply Ascii.eqb_eq in E; subst a; reflexivity.
Qed.

Lemma kplus_eq (s : string) :
  kplus s =
  match s with
  | String a _ => if is_digit a then Some (span_digits s) else None
  | EmptyString => None
  end.
Proof.
  unfold kplus. simpl. destruct s as [|a s]; simpl; [reflexivity|].
  destruct (is_digit a); [|reflexivity].
  rewrite many_digits_end. destruct (span_digits s). reflexivity.
Qed.

Lemma ktail_eq (s : string) :
  ktail s =
  match s with
  | String a r =>
      if is_dot a
      then match span_digits r with
           | (EmptyString, _) => None
           | (fp, r2) => Some (String a fp, r2)
           end
      else if is_digit a then Some (span_digits s) else None
  | EmptyString => None
  end.
Proof.
  change (ktail s) with
    (match one is_dot kplus s with Some r => Some r | None => kplus s end).
  destruct s as [|a r]; [reflexivity|].
  cbn [one]. destruct (is_dot a) eqn:Ea.
  - rewrite (kplus_eq r), (kplus_eq (String a r)), (dot_not_digit a Ea).
    destruct r as [|b r']; [reflexivity|].
    cbn [span_digits]. destruct (is_digit b) eqn:Eb; [|reflexivity].
    destruct (span_digits r'). reflexivity.
  - exact (kplus_eq (String a r)).
Qed.

Lemma many_tail_eq (s : string) : many is_digit ktail s = unsigned_at s.
Proof.
  induction s as [|a s IH].
  - reflexivity.
  - cbn [many]. destruct (is_digit a) eqn:Ea.
    + rewrite IH. unfold unsigned_at at 2. cbn [span_digits]. rewrite Ea.
      unfold unsigned_at.
      destruct (span_digits s) as [d r1] eqn:Es.
      assert (Hk : ktail (String a s) = Some (String a d, r1)).
      { rewrite ktail_eq. cbn [span_digits].
        destruct (is_dot a) eqn:Ed.
        - rewrite (dot_not_digit a Ed) in Ea. discriminate.
        - rewrite Ea, Es. reflexivity. }
      destruct r1 as [|b r].
      * destruct d; [exact Hk | reflexivity].
      * destruct (is_dot b).
        -- destruct (span_digits r) as [[|f fp] r2].
           ++ destruct d; [exact Hk | reflexivity].
           ++ reflexivity.
        -- destruct d; [exact Hk | reflexivity].
    + rewrite ktail_eq. unfold unsigned_at. cbn [span_digits]. rewrite Ea.
      destruct (is_dot a); [|reflexivity].
      destruct (span_digits s) as [[|f fp] r2]; reflexivity.
Qed.

Lemma match_here_NUMERAL (s : string) :
  match_here NUMERAL s = numeral_at s.
Proof.
  change (match_here NUMERAL s) with
    (match one is_sign (many is_digit ktail) s with
     | Some r => Some r
     | None => many is_digit ktail s
     end).
  destruct s as [|c body]; [reflexivity|].
  cbn [one numeral_at]. destruct (is_sign c) eqn:Ec.
  - rewrite many_tail_eq.
    destruct (unsigned_at body) as [[m r]|]; [reflexivity|].
    rewrite many_tail_eq. unfold unsigned_at. cbn [span_digits].
    rewrite (sign_not_digit c Ec), (sign_not_dot c Ec). reflexivity.
  - apply many_tail_eq.
Qed.

(** ** Strings *)

Lemma sapp_assoc (a b c : string) : (a ++ b) ++ c = a ++ b ++ c.
Proof. induction a as [|x a IH]; simpl; [reflexivity | now rewrite IH]. Qed.

Lemma sapp_nil_r (a : string) : a ++ "" = a.
Proof. induction a as [|x a IH]; simpl; [reflexivity | now rewrite IH]. Qed.

Lemma slength_app (a b : string) :
  String.length (a ++ b) = (String.length a + String.length b)%nat.
Proof. induction a as [|x a IH]; simpl; [reflexivity | now rewrite IH]. Qed.

Lemma has_digit_app (a b : string) :
  has_digit (a ++ b) = has_digit a || has_digit b.
Proof.
  induction a as [|x a IH]; simpl; [reflexivity|].
  rewrite IH. apply orb_assoc.
Qed.

Lemma all_digits_has_digit (d : string) :
  all_digits d = true -> d <> "" -> has_digit d = true.
Proof.
  destruct d as [|a d]; simpl; [congruence|].
  intros Hd _. apply andb_prop in Hd. destruct Hd as [-> _]. reflexivity.
Qed.

Lemma Unsigned_has_digit (u : string) : Unsigned u -> has_digit u = true.
Proof.
  intros [ip Hi Hn | ip fp Hi Hf Hn].
  - exact (all_digits_has_digit ip Hi Hn).
  - rewrite !has_digit_app, (all_digits_has_digit fp Hf Hn).
    rewrite !orb_true_r. reflexivity.
Qed.

Lemma Numeral_has_digit (m : string) : Numeral m -> has_digit m = true.
Proof.
  intros [sg u Hs Hu]. rewrite has_digit_app, (Unsigned_has_digit u Hu).
  apply orb_true_r.
Qed.

(** The first character of an unsigned numeral is a digit or the point. *)
Lemma Unsigned_head (u : string) :
  Unsigned u ->
  match u with
  | String a _ => is_sign a = false
  | EmptyString => False
  end.
Proof.
  assert (Hd : forall a, is_digit a = true -> is_sign a = false).
  { intros a Ha. destruct (is_sign a) eqn:Es; [|reflexivity].
    rewrite (sign_not_digit a Es) in Ha. discriminate. }
  intros [ip Hi Hn | ip fp Hi Hf Hn].
  - destruct ip as [|a ip]; [congruence|]. simpl in Hi.
    apply andb_prop in Hi. destruct Hi as [Ha _]. auto.
  - destruct ip as [|a ip]; [reflexivity|]. simpl in Hi.
    apply andb_prop in Hi. destruct Hi as [Ha _]. simpl. auto.
Qed.

(** ** The matcher finds numerals, and the longest one *)

Lemma unsigned_at_sound (s m r : string) :
  unsigned_at s = Some (m, r) -> s = m ++ r /\ Unsigned m.
Proof.
  unfold unsigned_at.
  pose proof (span_digits_spec s) as Hs.
  destruct (span_digits s) as [ip r1]. destruct Hs as (-> & Hip & Hr1).
  assert (Hplain : forall m r,
             match ip with "" => None | String _ _ => Some (ip, r1) end
             = Some (m, r) ->
             ip ++ r1 = m ++ r /\ Unsigned m).
  { intros m0 r0 E. destruct ip as [|a ip]; [discriminate|].
    injection E as <- <-. split; [reflexivity|].
    apply Unsigned_integer; [assumption | discriminate]. }
  destruct r1 as [|c r0]; [apply Hplain|].
  destruct (is_dot c) eqn:Ec; [|apply Hplain].
  pose proof (span_digits_spec r0) as H0.
  destruct (span_digits r0) as [[|f fp] r2]; [apply Hplain|].
  destruct H0 as (-> & Hfp & _).
  intros E. injection E as <- <-.
  unfold is_dot in Ec. apply Ascii.eqb_eq in Ec. subst c.
  split.
  - rewrite sapp_assoc. reflexivity.
  - apply (Unsigned_decimal ip (String f fp)); [assumption | assumption | discriminate].
Qed.

Lemma numeral_at_sound (s m r : string) :
  numeral_at s = Some (m, r) -> s = m ++ r /\ Numeral m.
Proof.
  destruct s as [|c body]; [discriminate|]. cbn [numeral_at].
  destruct (is_sign c) eqn:Ec.
  - destruct (unsigned_at body) as [[m0 r0]|] eqn:Eu; [|discriminate].
    intros E. injection E as <- <-.
    apply unsigned_at_sound in Eu. destruct Eu as (-> & Hu).
    split; [reflexivity|].
    apply (Numeral_signed (String c "") m0); [|assumption].
    unfold is_sign in Ec. apply orb_prop in Ec.
    destruct Ec as [E|E]; apply Ascii.eqb_eq in E; subst c; constructor.
  - intros E. apply unsigned_at_sound in E. destruct E as (E & Hu).
    split; [assumption|].
    apply (Numeral_signed "" m); [constructor | assumption].
Qed.

Lemma unsigned_at_longest (u post : string) :
  Unsigned u ->
  exists m r, unsigned_at (u ++ post) = Some (m, r) /\
              (String.length u <= String.length m)%nat.
Proof.
  intros [ip Hi Hn | ip fp Hi Hf Hn]; unfold unsigned_at.
  - rewrite (span_digits_app ip post Hi).
    destruct (span_digits post) as [d r1]. cbn [fst snd].
    assert (Hlen : (String.length ip <= String.length (ip ++ d))%nat)
      by (rewrite slength_app; lia).
    destruct ip as [|a ip]; [congruence|]. cbn [append] in *.
    destruct r1 as [|c r0]; [eauto|].
    destruct (is_dot c); [|eauto].
    destruct (span_digits r0) as [[|f fp] r2]; [eauto|].
    eexists _, _. split; [reflexivity|].
    cbn [String.length] in *. rewrite slength_app. cbn [String.length]. lia.
  - rewrite sapp_assoc, (span_digits_app ip _ Hi).
    cbn [append span_digits]. change (is_digit ".") with false.
    cbn [fst snd]. change (is_dot ".") with true.
    rewrite (span_digits_app fp post Hf).
    destruct (span_digits post) as [d r2]. cbn [fst snd].
    destruct fp as [|f fp]; [congruence|]. cbn [append].
    eexists _, _. split; [reflexivity|].
    rewrite sapp_nil_r, !slength_app. cbn [String.length].
    rewrite slength_app. lia.
Qed.

Lemma numeral_at_longest (m' post : string) :
  Numeral m' ->
  exists m r, numeral_at (m' ++ post) = Some (m, r) /\
              (String.length m' <= String.length m)%nat.
Proof.
  intros [sg u Hs Hu]. rewrite sapp_assoc.
  destruct (unsigned_at_longest u post Hu) as (m & r & E & Hlen).
  destruct Hs; cbn [append numeral_at].
  - pose proof (Unsigned_head u Hu) as Hh.
    destruct u as [|a u]; [contradiction|]. cbn [append numeral_at] in *.
    rewrite Hh. eauto.
  - change (is_sign "-") with true. rewrite E.
    eexists _, _. split; [reflexivity|]. cbn [String.length]. lia.
  - change (is_sign "+") with true. rewrite E.
    eexists _, _. split; [reflexivity|]. cbn [String.length]. lia.
Qed.

Lemma slength_zero (s : string) : String.length s = 0%nat -> s = "".
Proof. destruct s; [reflexivity | discriminate]. Qed.

(** The matches of the pattern in a few subjects, as [re.findall] lists
    them. *)
Example findall_samples :
  map (findall NUMERAL)
      ["a-1.5b2c.3"; "1.2.3"; "+-5"; "1."; "..5"; "-.5e3"; "12abc-7"; "--";
       "5-3"; "0.35 g"; "1e-07"; "007.50x"]
  = [ ["-1.5"; "2"; ".3"]; ["1.2"; ".3"]; ["-5"]; ["1"]; [".5"];
      ["-.5"; "3"]; ["12"; "-7"]; []; ["5"; "-3"]; ["0.35"]; ["1"; "-07"];
      ["007.50"] ].
Proof. reflexivity. Qed.

(** The head of [findall]: nothing when the subject has no digit, the first
    numeral otherwise. *)
Lemma findall_head (s : string) :
  match findall NUMERAL s with
  | [] => has_digit s = false
  | m :: _ => FirstNumeral s m
  end.
Proof.
  unfold findall. induction s as [|a s IH].
  - reflexivity.
  - cbn [findall_from]. rewrite match_here_NUMERAL.
    destruct (numeral_at (String a s)) as [[m r]|] eqn:E.
    + destruct (numeral_at_sound _ _ _ E) as [Hs Hm].
      exists "", r. split; [exact Hs|]. split; [exact Hm|].
      intros pre' m' post' Hdec Hm'. split; [cbn; lia|].
      cbn [String.length]. intros Hz. apply slength_zero in Hz. subst pre'.
      cbn [append] in Hdec.
      destruct (numeral_at_longest m' post' Hm') as (m2 & r2 & E2 & Hlen).
      rewrite <- Hdec, E in E2. injection E2 as <- <-. exact Hlen.
    + assert (Hnone : forall m' post', String a s = m' ++ post' -> ~ Numeral m').
      { intros m' post' Hdec Hm'.
        destruct (numeral_at_longest m' post' Hm') as (m2 & r2 & E2 & _).
        rewrite <- Hdec, E in E2. discriminate. }
      destruct (findall_from NUMERAL 0 s) as [|m ms].
      * cbn [has_digit]. rewrite IH, orb_false_r.
        destruct (is_digit a) eqn:Ea; [|reflexivity].
        exfalso. apply (Hnone (String a "") s eq_refl).
        apply (Numeral_signed "" (String a "")); [constructor|].
        apply Unsigned_integer; [cbn; now rewrite Ea | discriminate].
      * destruct IH as (pre & post & Hs & Hm & Hfirst).
        exists (String a pre), post. split; [cbn; now rewrite Hs|].
        split; [exact Hm|].
        intros pre' m' post' Hdec Hm'.
        destruct pre' as [|b pre'].
        -- exfalso. exact (Hnone m' post' Hdec Hm').
        -- cbn [append] in Hdec. injection Hdec as _ Hdec.
           destruct (Hfirst pre' m' post' Hdec Hm') as [H1 H2].
           cbn [String.length]. split; [lia|]. intros Hl. apply H2. lia.
Qed.

Lemma span_digits_all (d : string) :
  all_digits d = true -> span_digits d = (d, "").
Proof.
  intros Hd. pose proof (span_digits_app d "" Hd) as E.
  rewrite sapp_nil_r in E. cbn [span_digits fst snd] in E.
  rewrite sapp_nil_r in E. exact E.
Qed.

(** A numeral is read by the plain decimal reader of [float]. *)
Lemma parse_decimal_Numeral (m : string) :
  Numeral m -> exists d, parse_decimal m = Some d.
Proof.
  intros [sg u Hs Hu].
  assert (Hbody : forall neg,
            exists d,
              (let '(ip, r1) := span_digits u in
               let '(fp, r2) :=
                 match r1 with
                 | String c r => if is_dot c then span_digits r else ("", r1)
                 | "" => ("", r1)
                 end in
               match r2 with
               | "" => if (String.length ip + String.length fp =? 0)%nat
                       then None else Some (Decimal neg ip fp)
               | String _ _ => None
               end) = Some d).
  { intros neg. destruct Hu as [ip Hi Hn | ip fp Hi Hf Hn].
    - rewrite (span_digits_all ip Hi).
      destruct ip as [|a ip]; [congruence|]. cbn. eauto.
    - rewrite (span_digits_app ip _ Hi). cbn [append span_digits].
      change (is_digit ".") with false. cbn [fst snd].
      change (is_dot ".") with true.
      rewrite (span_digits_all fp Hf), sapp_nil_r.
      destruct fp as [|f fp]; [congruence|].
      rewrite Nat.add_comm. cbn. eauto. }
  unfold parse_decimal. destruct Hs; cbn [append].
  - pose proof (Unsigned_head u Hu) as Hh.
    destruct u as [|a u]; [contradiction|]. rewrite Hh. apply Hbody.
  - change (is_sign "-") with true. cbv iota. apply Hbody.
  - change (is_sign "+") with true. cbv iota. apply Hbody.
Qed.

(** C6: numeric coercion.  Either the text of the value holds no numeral
    and [safe_number] returns the value as it is, or it returns the float
    read from the first (leftmost, then longest) signed or unsigned
    integer or decimal numeral of the text; ["0.35 g"], ["N/A"] and ["12"]
    give 0.35, ["N/A"] and 12.0. *)
Theorem safe_number_first_numeral `{Builtins} :
  (forall val : value,
      ((forall pre m post : string,
           py_str val = pre ++ m ++ post -> ~ Numeral m) /\
       safe_number val = val)
      \/
      (exists (m : string) (d : decimal),
          FirstNumeral (py_str val) m /\
          parse_decimal m = Some d /\
          safe_number val = VFloat (float_of d)))
  /\ safe_number (VStr "0.35 g") = VFloat (float_of_decimal false 35 2)
  /\ safe_number (VStr "N/A") = VStr "N/A"
  /\ safe_number (VStr "12") = VFloat (float_of_Z 12).
Proof.
  split; [|repeat split; reflexivity].
  intros val. unfold safe_number.
  pose proof (findall_head (py_str val)) as Hh.
  destruct (findall NUMERAL (py_str val)) as [|m ms].
  - left. split; [|reflexivity].
    intros pre m post Hdec Hm. apply Numeral_has_digit in Hm.
    rewrite Hdec, !has_digit_app, Hm in Hh.
    rewrite orb_true_l, orb_true_r in Hh. discriminate.
  - right. pose proof Hh as (pre & post & _ & Hm & _).
    destruct (parse_decimal_Numeral m Hm) as [d Hd].
    exists m, d. split; [exact Hh|]. split; [exact Hd|].
    unfold float_of_str. rewrite Hd. reflexivity.
Qed.

End NumeralFacts.

(* ------------------------------------------------------------------ *)
(** * Properties of the query engine *)

Section QueryFacts.
Context `{Builtins} `{Shapely}.

(** ** The globals are only read *)

Lemma for_each_query_layers (pt : geom) (fn dbg : bool)
  (layers : dict Layer) (st : loop_state) (G : globals) :
  for_each layers
    (fun '(fld, L) st =>
       bindM (read COMBINE_RULES) (fun rules =>
       bindM (read UNITS) (fun units =>
       lift (query_layer rules units pt fn dbg fld L st))))
    st G
  = (query_layers (COMBINE_RULES G) (UNITS G) pt fn dbg layers st, G).
Proof.
  revert st. induction layers as [|[fld L] rest IH]; intros st.
  - reflexivity.
  - cbn [for_each query_layers]. unfold bindM at 1. unfold bindM at 1.
    unfold read at 1. unfold bindM at 1. unfold read at 1. unfold lift at 1.
    destruct (query_layer (COMBINE_RULES G) (UNITS G) pt fn dbg fld L st)
      as [st'|e]; cbn [bind].
    + apply IH.
    + reflexivity.
Qed.

Lemma query_point_eq (lat lon : float) (fn dbg : bool) (G : globals) :
  query_point lat lon fn dbg G
  = (st <- query_layers (COMBINE_RULES G) (UNITS G) (Point lon lat) fn dbg
                        (LAYERS G) ([], []) ;;
     Ok (answer dbg st),
     G).
Proof.
  unfold query_point. unfold bindM at 1. unfold read at 1.
  unfold bindM at 1. rewrite for_each_query_layers.
  destruct (query_layers _ _ _ _ _ _ _) as [[results debug_rows]|e];
    reflexivity.
Qed.

Lemma query_point_preserves (lat lon : float) (fn dbg : bool) (G : globals) :
  snd (query_point lat lon fn dbg G) = G.
Proof. rewrite query_point_eq. reflexivity. Qed.


(** ** Step 1 *)

Lemma first_covering_app (L : Layer) (pt : geom) (before after : list Z) (i : Z) :
  Forall (fun j => covers_at L pt j = false) before ->
  covers_at L pt i = true ->
  first_covering L pt (before ++ i :: after) = Some i.
Proof.
  unfold covers_at. induction before as [|j before IH]; intros Hb Hi.
  - cbn [app first_covering].
    destruct (g <- getitem (geoms L) i ;; covers g pt) as [[|]|];
      congruence.
  - inversion Hb as [|? ? Hj Hb']; subst.
    cbn [app first_covering].
    destruct (g <- getitem (geoms L) j ;; covers g pt) as [[|]|];
      try discriminate; auto.
Qed.

Lemma covers_at_inv (L : Layer) (pt : geom) (i : Z) :
  covers_at L pt i = true ->
  exists g, getitem (geoms L) i = Ok g /\ covers g pt = Ok true.
Proof.
  unfold covers_at. destruct (getitem (geoms L) i) as [g|e]; cbn [bind].
  - destruct (covers g pt) as [[|]|] eqn:E; try discriminate. eauto.
  - discriminate.
Qed.

(** ** Dictionaries *)

Lemma dict_get_set_same {V : Type} (d : dict V) (k : string) (v : V) :
  dict_get (dict_set d k v) k = Some v.
Proof.
  induction d as [|[k' v'] d IH]; cbn [dict_set dict_get].
  - rewrite String.eqb_refl. reflexivity.
  - destruct (String.eqb k' k) eqn:E; cbn [dict_get]; rewrite E; auto.
Qed.

Lemma dict_get_set_other {V : Type} (d : dict V) (k k' : string) (v : V) :
  k' <> k -> dict_get (dict_set d k v) k' = dict_get d k'.
Proof.
  intros Hne. induction d as [|[k0 v0] d IH]; cbn [dict_set dict_get].
  - apply String.eqb_neq in Hne. rewrite String.eqb_sym, Hne. reflexivity.
  - destruct (String.eqb k0 k) eqn:E; cbn [dict_get].
    + apply String.eqb_eq in E. subst k0.
      apply String.eqb_neq in Hne. rewrite String.eqb_sym, Hne. reflexivity.
    + rewrite IH. reflexivity.
Qed.

Lemma combine_other (rule : string) (results : dict record)
  (fld k : string) (rec : record) :
  k <> fld -> dict_get (combine rule results fld rec) k = dict_get results k.
Proof.
  intros Hne. unfold combine.
  repeat match goal with
         | |- context [match ?x with _ => _ end] => destruct x
         end;
    auto using dict_get_set_other.
Qed.

Lemma combine_fresh (rule : string) (results : dict record)
  (fld : string) (rec : record) :
  dict_get results fld = None ->
  combine rule results fld rec = dict_set results fld rec.
Proof. unfold combine. intros ->. reflexivity. Qed.

(** ** One turn of the loop *)

Lemma query_layer_pick (rules units : dict string) (pt : geom)
  (fn dbg : bool) (fld : string) (L : Layer) (st : loop_state) :
  query_layer rules units pt fn dbg fld L st =
  (o <- layer_pick units pt fn fld L ;;
   match o with
   | None => Ok st
   | Some (rec, row) =>
       Ok (combine (dict_get_default rules fld "first") (fst st) fld rec,
           if dbg then snd st ++ [row] else snd st)
   end).
Proof.
  destruct st as [results rows]. unfold query_layer, layer_pick.
  destruct (strtree_truthy L) as [t|]; [|reflexivity].
  destruct (choose L t pt fn) as [[[[i|] sel] inside]|e]; try reflexivity.
  cbn [bind].
  destruct (getitem (attrs L) i) as [a|e]; [|reflexivity]. cbn [bind].
  destruct (dict_get a fld) as [v|]; [|reflexivity].
  destruct (getitem (geoms L) i) as [g|e]; [|reflexivity]. cbn [bind].
  destruct (getitem (sources L) i) as [src|e]; [|reflexivity]. cbn [bind].
  destruct dbg; reflexivity.
Qed.

(** A turn for [fld] leaves the other keys of [results] alone and adds at
    most a debug row for [fld]. *)
Lemma query_layer_frame (rules units : dict string) (pt : geom)
  (fn dbg : bool) (fld : string) (L : Layer) (st st' : loop_state) :
  query_layer rules units pt fn dbg fld L st = Ok st' ->
  (forall k, k <> fld -> dict_get (fst st') k = dict_get (fst st) k) /\
  (forall k, k <> fld ->
     Forall (fun row => d_field row <> k) (snd st) ->
     Forall (fun row => d_field row <> k) (snd st')).
Proof.
  rewrite query_layer_pick. unfold layer_pick.
  destruct (strtree_truthy L) as [t|]; cbn [bind];
    [|intros E; injection E as <-; auto].
  destruct (choose L t pt fn) as [[[[i|] sel] inside]|e]; cbn [bind];
    try discriminate; [|intros E; injection E as <-; auto].
  destruct (getitem (attrs L) i) as [a|e]; cbn [bind]; [|discriminate].
  destruct (dict_get a fld) as [v|]; cbn [bind];
    [|intros E; injection E as <-; auto].
  destruct (getitem (geoms L) i) as [g|e]; cbn [bind]; [|discriminate].
  destruct (getitem (sources L) i) as [src|e]; cbn [bind]; [|discriminate].
  intros E. injection E as <-. cbn [fst snd]. split.
  - intros k Hk. apply combine_other. exact Hk.
  - intros k Hk Hrows. destruct dbg; [|exact Hrows].
    apply Forall_app. split; [exact Hrows|].
    constructor; [|constructor]. cbn. congruence.
Qed.

(** ** The whole loop *)

(** Keys without a layer stay as they were. *)
Lemma query_layers_frame (rules units : dict string) (pt : geom)
  (fn dbg : bool) (layers : dict Layer) (st st' : loop_state) (k : string) :
  query_layers rules units pt fn dbg layers st = Ok st' ->
  ~ In k (keys layers) ->
  dict_get (fst st') k = dict_get (fst st) k /\
  (Forall (fun row => d_field row <> k) (snd st) ->
   Forall (fun row => d_field row <> k) (snd st')).
Proof.
  revert st. induction layers as [|[fld L] rest IH]; intros st Hq Hk.
  - injection Hq as <-. auto.
  - cbn [query_layers] in Hq. cbn [keys map fst In] in Hk.
    destruct (query_layer rules units pt fn dbg fld L st) as [st1|e] eqn:E1;
      cbn [bind] in Hq; [|discriminate].
    destruct (query_layer_frame _ _ _ _ _ _ _ _ _ E1) as [F1 F2].
    destruct (IH st1 Hq) as [I1 I2]; [tauto|].
    assert (Hne : k <> fld) by (intros ->; tauto).
    split.
    + rewrite I1. apply F1. exact Hne.
    + intros Hrows. apply I2, F2; assumption.
Qed.

(** A field all of whose layers are passed over is in neither output. *)
Lemma query_layers_skipped (rules units : dict string) (pt : geom)
  (fn dbg : bool) (F : string) (layers : dict Layer) (st st' : loop_state) :
  (forall L, In (F, L) layers -> layer_pick units pt fn F L = Ok None) ->
  query_layers rules units pt fn dbg layers st = Ok st' ->
  dict_get (fst st') F = dict_get (fst st) F /\
  (Forall (fun row => d_field row <> F) (snd st) ->
   Forall (fun row => d_field row <> F) (snd st')).
Proof.
  revert st. induction layers as [|[fld L] rest IH]; intros st Hskip Hq.
  - injection Hq as <-. auto.
  - cbn [query_layers] in Hq.
    destruct (query_layer rules units pt fn dbg fld L st) as [st1|e] eqn:E1;
      cbn [bind] in Hq; [|discriminate].
    destruct (IH st1) as [I1 I2]; [intros L0 HL0; apply Hskip; now right | exact Hq |].
    destruct (String.eqb_spec fld F) as [->|Hne].
    + rewrite query_layer_pick, (Hskip L (or_introl eq_refl)) in E1.
      cbn [bind] in E1. injection E1 as <-. auto.
    + destruct (query_layer_frame _ _ _ _ _ _ _ _ _ E1) as [F1 F2].
      split.
      * rewrite I1. apply F1. congruence.
      * intros Hrows. apply I2, F2; [congruence | exact Hrows].
Qed.


Lemma query_point_skipped (G : globals) (lat lon : float) (fn dbg : bool)
  (F : string) (results : dict record) (rows : option (list debug_row)) :
  (forall L, In (F, L) (LAYERS G) ->
             layer_pick (UNITS G) (Point lon lat) fn F L = Ok None) ->
  fst (query_point lat lon fn dbg G) = Ok (results, rows) ->
  dict_get results F = None /\
  forall rs, rows = Some rs -> Forall (fun row => d_field row <> F) rs.
Proof.
  intros Hskip. rewrite query_point_eq. cbn [fst].
  destruct (query_layers _ _ _ _ _ _ _) as [st'|e] eqn:Eq; cbn [bind];
    [|discriminate].
  intros E. injection E as <- <-.
  destruct (query_layers_skipped _ _ _ _ _ F _ _ _ Hskip Eq) as [S1 S2].
  split; [exact S1|].
  intros rs Hrs. destruct dbg; [|discriminate].
  injection Hrs as <-. apply S2. constructor.
Qed.

(** ** Steps 2 to 4 without candidates *)

Lemma choose_no_candidates (L : Layer) (t : STRtree) (pt : geom) :
  bbox_candidates L t pt = Ok [] ->
  expanded_candidates L t pt = Ok [] ->
  choose L t pt false = Ok (None, "none", false).
Proof.
  intros Hb He. unfold choose. rewrite Hb. cbn [bind first_covering].
  rewrite He. reflexivity.
Qed.

(** C5: with the nearest fallback off, a field whose layer has no
    candidate for the bounding box of the point and none in the widened
    envelope is passed over by its turn of the loop, and is in neither
    the values nor the debug rows that [query_point] returns. *)
Theorem absent_without_fallback
  (G : globals) (lat lon : float) (want_debug : bool) (F : string) :
  (forall L t, In (F, L) (LAYERS G) -> strtree_truthy L = Some t ->
     bbox_candidates L t (Point lon lat) = Ok [] /\
     expanded_candidates L t (Point lon lat) = Ok []) ->
  (forall L st, In (F, L) (LAYERS G) ->
     query_layer (COMBINE_RULES G) (UNITS G) (Point lon lat) false want_debug
                 F L st = Ok st) /\
  (forall results rows,
     fst (query_point lat lon false want_debug G) = Ok (results, rows) ->
     dict_get results F = None /\
     forall rs, rows = Some rs -> Forall (fun row => d_field row <> F) rs).
Proof.
  intros Hempty.
  assert (Hskip : forall L, In (F, L) (LAYERS G) ->
             layer_pick (UNITS G) (Point lon lat) false F L = Ok None).
  { intros L HL. unfold layer_pick.
    destruct (strtree_truthy L) as [t|] eqn:Et; [|reflexivity].
    destruct (Hempty L t HL Et) as [Hb He].
    rewrite (choose_no_candidates L t _ Hb He). reflexivity. }
  split.
  - intros L st HL. rewrite query_layer_pick, (Hskip L HL). reflexivity.
  - intros results rows. apply query_point_skipped. exact Hskip.
Qed.

(** C7: a geometry chosen by the tiers whose attribute map has no value
    for the field leaves the loop state as it was, which is what a turn
    without a chosen geometry does; a field whose layer is in this case is
    in neither the values nor the debug rows that [query_point] returns. *)
Theorem omitted_without_value
  (G : globals) (lat lon : float) (force_nearest want_debug : bool)
  (F : string) :
  (forall L t, In (F, L) (LAYERS G) -> strtree_truthy L = Some t ->
     exists i sel inside a,
       choose L t (Point lon lat) force_nearest = Ok (Some i, sel, inside) /\
       getitem (attrs L) i = Ok a /\
       dict_get a F = None) ->
  (forall L st, In (F, L) (LAYERS G) ->
     query_layer (COMBINE_RULES G) (UNITS G) (Point lon lat) force_nearest
                 want_debug F L st = Ok st) /\
  (forall L t sel inside st,
     strtree_truthy L = Some t ->
     choose L t (Point lon lat) force_nearest = Ok (None, sel, inside) ->
     query_layer (COMBINE_RULES G) (UNITS G) (Point lon lat) force_nearest
                 want_debug F L st = Ok st) /\
  (forall results rows,
     fst (query_point lat lon force_nearest want_debug G) = Ok (results, rows) ->
     dict_get results F = None /\
     forall rs, rows = Some rs -> Forall (fun row => d_field row <> F) rs).
Proof.
  intros Hnoval.
  assert (Hskip : forall L, In (F, L) (LAYERS G) ->
             layer_pick (UNITS G) (Point lon lat) force_nearest F L = Ok None).
  { intros L HL. unfold layer_pick.
    destruct (strtree_truthy L) as [t|] eqn:Et; [|reflexivity].
    destruct (Hnoval L t HL Et) as (i & sel & inside & a & Hc & Ha & Hv).
    rewrite Hc. cbn [bind]. rewrite Ha. cbn [bind]. rewrite Hv. reflexivity. }
  split; [|split].
  - intros L st HL. rewrite query_layer_pick, (Hskip L HL). reflexivity.
  - intros L t sel inside [results rows] Ht Hc.
    unfold query_layer. rewrite Ht, Hc. reflexivity.
  - intros results rows. apply query_point_skipped. exact Hskip.
Qed.

(** C9: [query_point] leaves the globals as they were, and with them the
    registry and the field, geometries, attributes, sources and tree of
    every layer. *)
Theorem query_point_mutates_nothing
  (G : globals) (lat lon : float) (force_nearest want_debug : bool) :
  let G' := snd (query_point lat lon force_nearest want_debug G) in
  G' = G /\
  LAYERS G' = LAYERS G /\
  Forall2 (fun before after =>
             fst after = fst before /\
             field (snd after) = field (snd before) /\
             geoms (snd after) = geoms (snd before) /\
             attrs (snd after) = attrs (snd before) /\
             sources (snd after) = sources (snd before) /\
             strtree (snd after) = strtree (snd before))
          (LAYERS G) (LAYERS G').
Proof.
  cbv zeta. rewrite (query_point_preserves lat lon force_nearest want_debug G).
  split; [reflexivity|]. split; [reflexivity|].
  induction (LAYERS G) as [|x l IH]; constructor; auto 10.
Qed.


(** ** One layer per field *)

(** With one layer per key and none of the keys yet in [results], the
    table of combine rules has no say. *)
Lemma query_layers_any_rules (rules rules' units : dict string) (pt : geom)
  (fn dbg : bool) (layers : dict Layer) (st : loop_state) :
  NoDup (keys layers) ->
  (forall k, In k (keys layers) -> dict_get (fst st) k = None) ->
  query_layers rules units pt fn dbg layers st =
  query_layers rules' units pt fn dbg layers st.
Proof.
  revert st. induction layers as [|[fld L] rest IH]; intros st Hnd Hfresh.
  - reflexivity.
  - cbn [keys map fst] in Hnd. inversion Hnd as [|? ? Hnotin Hnd']; subst.
    cbn [query_layers].
    assert (E : query_layer rules units pt fn dbg fld L st =
                query_layer rules' units pt fn dbg fld L st).
    { rewrite !query_layer_pick.
      destruct (layer_pick units pt fn fld L) as [[[rec row]|]|e];
        cbn [bind]; try reflexivity.
      rewrite !combine_fresh by (apply Hfresh; now left). reflexivity. }
    rewrite <- E.
    destruct (query_layer rules units pt fn dbg fld L st) as [st1|e] eqn:E1;
      cbn [bind]; [|reflexivity].
    apply IH; [exact Hnd'|].
    intros k Hk.
    destruct (query_layer_frame _ _ _ _ _ _ _ _ _ E1) as [F1 _].
    rewrite F1; [apply Hfresh; now right|].
    intros ->. exact (Hnotin Hk).
Qed.

(** With one layer per key, the entry of a key is what the tiers make of
    its layer. *)
Lemma query_layers_single (rules units : dict string) (pt : geom)
  (fn dbg : bool) (layers : dict Layer) (st st' : loop_state)
  (F : string) (L : Layer) :
  NoDup (keys layers) ->
  query_layers rules units pt fn dbg layers st = Ok st' ->
  In (F, L) layers ->
  dict_get (fst st) F = None ->
  exists o, layer_pick units pt fn F L = Ok o /\
            dict_get (fst st') F = option_map fst o.
Proof.
  revert st. induction layers as [|[fld L0] rest IH]; intros st Hnd Hq Hin HF.
  - contradiction.
  - cbn [keys map fst] in Hnd. inversion Hnd as [|? ? Hnotin Hnd']; subst.
    cbn [query_layers] in Hq.
    destruct (query_layer rules units pt fn dbg fld L0 st) as [st1|e] eqn:E1;
      cbn [bind] in Hq; [|discriminate].
    destruct Hin as [Hhd|Htl].
    + injection Hhd as -> ->.
      destruct (query_layers_frame _ _ _ _ _ _ _ _ F Hq Hnotin) as [Fr _].
      rewrite Fr. rewrite query_layer_pick in E1.
      destruct (layer_pick units pt fn F L) as [o|e]; cbn [bind] in E1;
        [|discriminate].
      exists o. split; [reflexivity|].
      destruct o as [[rec row]|]; injection E1 as <-; cbn [fst option_map].
      * rewrite combine_fresh by exact HF. apply dict_get_set_same.
      * exact HF.
    + apply (IH st1 Hnd' Hq Htl).
      destruct (query_layer_frame _ _ _ _ _ _ _ _ _ E1) as [F1 _].
      rewrite F1; [exact HF|].
      intros ->. apply Hnotin.
      change (In (fst (fld, L)) (map fst rest)). apply in_map. exact Htl.
Qed.

(** C10: the registry holds one layer per field.  So when the turn of a
    field comes, the field is not yet in [results] and the assignment is
    the plain one of the [field not in results] branch, whatever the rule;
    whatever the table of combine rules, [query_point] returns the same;
    and the entry returned for a field is the record that the tiers make
    of its layer, or none. *)
Theorem one_record_per_field
  (G : globals) (lat lon : float) (force_nearest want_debug : bool) :
  NoDup (keys (LAYERS G)) ->
  let pt := Point lon lat in
  (forall before F L after st,
     LAYERS G = before ++ (F, L) :: after ->
     query_layers (COMBINE_RULES G) (UNITS G) pt force_nearest want_debug
                  before ([], []) = Ok st ->
     dict_get (fst st) F = None /\
     forall rule rec, combine rule (fst st) F rec = dict_set (fst st) F rec) /\
  (forall rules,
     fst (query_point lat lon force_nearest want_debug (with_rules G rules)) =
     fst (query_point lat lon force_nearest want_debug G)) /\
  (forall results rows F L,
     fst (query_point lat lon force_nearest want_debug G) = Ok (results, rows) ->
     In (F, L) (LAYERS G) ->
     exists o, layer_pick (UNITS G) pt force_nearest F L = Ok o /\
               dict_get results F = option_map fst o).
Proof.
  intros Hnd pt. split; [|split].
  - intros before F L after st Hsplit Hq.
    assert (Hnot : ~ In F (keys before)).
    { unfold keys in *. rewrite Hsplit, map_app in Hnd. cbn [map fst] in Hnd.
      apply NoDup_remove_2 in Hnd. intros Hin. apply Hnd.
      apply in_or_app. now left. }
    destruct (query_layers_frame _ _ _ _ _ _ _ _ F Hq Hnot) as [Fr _].
    assert (Hfresh : dict_get (fst st) F = None) by (rewrite Fr; reflexivity).
    split; [exact Hfresh|].
    intros rule rec. apply combine_fresh. exact Hfresh.
  - intros rules. rewrite !query_point_eq. cbn [fst with_rules LAYERS COMBINE_RULES UNITS].
    rewrite (query_layers_any_rules rules (COMBINE_RULES G)); auto.
  - intros results rows F L. rewrite query_point_eq. cbn [fst].
    destruct (query_layers _ _ _ _ _ _ _) as [st'|e] eqn:Eq; cbn [bind];
      [|discriminate].
    intros E HL. injection E as <- <-.
    apply (query_layers_single _ _ _ _ _ _ _ _ F L Hnd Eq HL). reflexivity.
Qed.


(** ** Debug rows *)

(** The loop only appends debug rows. *)
Lemma query_layers_rows_grow (rules units : dict string) (pt : geom)
  (fn dbg : bool) (layers : dict Layer) (st st' : loop_state) :
  query_layers rules units pt fn dbg layers st = Ok st' ->
  exists extra, snd st' = snd st ++ extra.
Proof.
  revert st. induction layers as [|[fld L] rest IH]; intros st Hq.
  - injection Hq as <-. exists []. symmetry. apply app_nil_r.
  - cbn [query_layers] in Hq. rewrite query_layer_pick in Hq.
    destruct (layer_pick units pt fn fld L) as [o|e]; cbn [bind] in Hq;
      [|discriminate].
    destruct o as [[rec row]|]; apply IH in Hq; destruct Hq as [extra Hx];
      cbn [snd] in Hx.
    + destruct dbg.
      * exists (row :: extra). rewrite Hx, <- app_assoc. reflexivity.
      * exists extra. exact Hx.
    + exists extra. exact Hx.
Qed.

(** With debug rows asked for, the row of every layer that yields a record
    is among those returned. *)
Lemma query_layers_row (rules units : dict string) (pt : geom) (fn : bool)
  (layers : dict Layer) (st st' : loop_state) (F : string) (L : Layer)
  (rec : record) (row : debug_row) :
  query_layers rules units pt fn true layers st = Ok st' ->
  In (F, L) layers ->
  layer_pick units pt fn F L = Ok (Some (rec, row)) ->
  In row (snd st').
Proof.
  revert st. induction layers as [|[fld L0] rest IH]; intros st Hq Hin Hp.
  - contradiction.
  - cbn [query_layers] in Hq.
    destruct (query_layer rules units pt fn true fld L0 st) as [st1|e] eqn:E1;
      cbn [bind] in Hq; [|discriminate].
    destruct Hin as [Hhd|Htl]; [|exact (IH st1 Hq Htl Hp)].
    injection Hhd as -> ->.
    rewrite query_layer_pick, Hp in E1. cbn [bind] in E1.
    injection E1 as <-.
    destruct (query_layers_rows_grow _ _ _ _ _ _ _ _ Hq) as [extra Hx].
    rewrite Hx. cbn [snd]. apply in_or_app. left.
    apply in_or_app. right. now left.
Qed.

(** C1: when the candidates that the index returns for the bounding box of
    the point hold a geometry that covers the point (its boundary
    included, as [covers] has it), the tiers choose the first such
    candidate in the order returned, with selection [covers] and the
    inside flag set; the turn of the layer records that candidate at
    distance 0, and so do the values and the debug rows that
    [query_point] returns. *)
Theorem covers_picks_first_candidate
  (L : Layer) (t : STRtree) (pt : geom) (force_nearest : bool)
  (before after : list Z) (i : Z) :
  bbox_candidates L t pt = Ok (before ++ i :: after) ->
  Forall (fun j => covers_at L pt j = false) before ->
  covers_at L pt i = true ->
  choose L t pt force_nearest = Ok (Some i, "covers", true) /\
  forall (fld : string) (a : dict value) (v : value) (src : string),
    strtree_truthy L = Some t ->
    getitem (attrs L) i = Ok a ->
    dict_get a fld = Some v ->
    getitem (sources L) i = Ok src ->
    exists g,
      getitem (geoms L) i = Ok g /\
      (forall rules units want_debug st,
         query_layer rules units pt force_nearest want_debug fld L st =
         Ok (combine (dict_get_default rules fld "first") (fst st) fld
               (mkRecord v (dict_get_default units fld "") src (Some zero)),
             if want_debug
             then snd st ++ [make_debug fld src v "covers" true (Some zero) g]
             else snd st)) /\
      (forall G lat lon want_debug results rows,
         pt = Point lon lat ->
         NoDup (keys (LAYERS G)) ->
         In (fld, L) (LAYERS G) ->
         fst (query_point lat lon force_nearest want_debug G)
         = Ok (results, rows) ->
         dict_get results fld =
           Some (mkRecord v (dict_get_default (UNITS G) fld "") src
                          (Some zero)) /\
         (forall rs, rows = Some rs ->
            exists row,
              In row rs /\ d_field row = fld /\ selection row = "covers" /\
              inside_or_on_boundary row = true /\
              d_distance_km row = Some zero)).
Proof.
  intros Hc Hb Hi.
  assert (Hch : choose L t pt force_nearest = Ok (Some i, "covers", true)).
  { unfold choose. rewrite Hc. cbn [bind].
    rewrite (first_covering_app L pt before after i Hb Hi).
    destruct before; reflexivity. }
  split; [exact Hch|].
  intros fld a v src Ht Ha Hv Hs.
  destruct (covers_at_inv L pt i Hi) as (g & Hg & Hcov).
  exists g. split; [exact Hg|].
  assert (Hpick : forall units,
            layer_pick units pt force_nearest fld L =
            Ok (Some (mkRecord v (dict_get_default units fld "") src (Some zero),
                      make_debug fld src v "covers" true (Some zero) g))).
  { intros units. unfold layer_pick. rewrite Ht, Hch. cbn [bind].
    rewrite Ha. cbn [bind]. rewrite Hv, Hg. cbn [bind]. rewrite Hs. cbn [bind].
    unfold point_geom_distance_km. rewrite Hcov. reflexivity. }
  split.
  - intros rules units want_debug st.
    rewrite query_layer_pick, Hpick. reflexivity.
  - intros G lat lon want_debug results rows Hpt Hnd HL.
    rewrite query_point_eq. cbn [fst]. rewrite <- Hpt.
    destruct (query_layers _ _ _ _ _ _ _) as [st'|e] eqn:Eq; cbn [bind];
      [|discriminate].
    intros E. injection E as <- <-. split.
    + destruct (query_layers_single _ _ _ _ _ _ _ _ fld L Hnd Eq HL eq_refl)
        as (o & Ho & Hres).
      rewrite Hpick in Ho. injection Ho as <-. exact Hres.
    + intros rs Hrs. destruct want_debug; [|discriminate].
      injection Hrs as <-.
      exists (make_debug fld src v "covers" true (Some zero) g).
      split; [|repeat split].
      exact (query_layers_row _ _ _ _ _ _ _ fld L _ _ Eq HL (Hpick _)).
Qed.

End QueryFacts.

(* ------------------------------------------------------------------ *)
(** * Properties of the distance *)

Section DistanceFacts.
Context `{Builtins} `{Shapely}.

Lemma fdiv_two (x : float) :
  fdiv x two = Ok (SFdiv prec emax x (float_of_Z 2)).
Proof. reflexivity. Qed.

(** [haversine_km] returns exactly the great-circle distance of the
    haversine formula, and raises when there is none. *)
Lemma haversine_km_great_circle (lat1 lon1 lat2 lon2 d : float) :
  haversine_km lat1 lon1 lat2 lon2 = Ok d <->
  great_circle_km lat1 lon1 lat2 lon2 d.
Proof.
  split.
  - intros Hh. unfold haversine_km in Hh. rewrite !fdiv_two in Hh.
    cbn [bind] in Hh.
    repeat match type of Hh with
           | context [bind ?c _] =>
               let E := fresh "E" in
               destruct c eqn:E; cbn [bind] in Hh; [|discriminate Hh]
           end.
    injection Hh as Hd. unfold great_circle_km.
    do 8 eexists. repeat (split; [eassumption|]). symmetry. exact Hd.
  - intros (slat & slat2 & c1 & c2 & slon & slon2 & r & t &
            E1 & E2 & E3 & E4 & E5 & E6 & E7 & E8 & Hd).
    unfold haversine_km. rewrite !fdiv_two. cbn [bind]. unfold two, R_km.
    rewrite E1. cbn [bind]. rewrite E2. cbn [bind]. rewrite E3. cbn [bind].
    rewrite E4. cbn [bind]. rewrite E5. cbn [bind]. rewrite E6. cbn [bind].
    rewrite E7. cbn [bind]. rewrite E8. cbn [bind]. rewrite Hd. reflexivity.
Qed.

(** Rounding half to even gives a nearest integer. *)
Lemma round_half_even_nearest (num den : Z) :
  0 <= num -> 0 < den ->
  let q := round_half_even num den in
  0 <= q /\
  2 * Z.abs (num - q * den) <= den /\
  (2 * Z.abs (num - q * den) = den -> Z.even q = true).
Proof.
  intros Hnum Hden. cbv zeta. unfold round_half_even.
  pose proof (Z.div_mod num den ltac:(lia)) as Hdm.
  pose proof (Z.mod_pos_bound num den Hden) as Hr.
  pose proof (Z.div_pos num den Hnum Hden) as Hq.
  set (q0 := num / den) in *. set (r := num mod den) in *.
  assert (E0 : num - q0 * den = r) by lia.
  assert (E1 : num - (q0 + 1) * den = r - den) by lia.
  destruct (Z.compare_spec (2 * r) den) as [Heq|Hlt|Hgt].
  - destruct (Z.even q0) eqn:Ev.
    + rewrite E0. split; [lia|]. split; [lia|]. intros _. exact Ev.
    + rewrite E1. split; [lia|]. split; [lia|]. intros _.
      rewrite Z.even_add, Ev. reflexivity.
  - rewrite E0. split; [lia|]. split; lia.
  - rewrite E1. split; [lia|]. split; lia.
Qed.

(** [round(x, n)] is [x] rounded to [n] places. *)
Lemma round_ndigits_rounded (x : float) (n : nat) :
  rounded_to n x (round_ndigits x n).
Proof.
  destruct x as [s| | |s m e]; try reflexivity.
  unfold rounded_to, round_ndigits, nearest_integer.
  assert (Hten : 0 < 10 ^ Z.of_nat n) by (apply Z.pow_pos_nonneg; lia).
  destruct (0 <=? e) eqn:Ee.
  - apply Z.leb_le in Ee. eexists. split; [|reflexivity].
    assert (Htwo : 0 < 2 ^ e) by (apply Z.pow_pos_nonneg; lia).
    split; [nia|]. split; [reflexivity | lia].
  - apply Z.leb_gt in Ee. eexists. split; [|reflexivity].
    assert (Htwo : 0 < 2 ^ (- e)) by (apply Z.pow_pos_nonneg; lia).
    destruct (round_half_even_nearest (Z.pos m * 10 ^ Z.of_nat n)
                (2 ^ (- e)) ltac:(nia) Htwo) as (Hq & Hnear & Htie).
    split; [exact Hq|]. split; [lia|]. intros _. split; assumption.
Qed.

(** C4: the distance reported for a geometry is 0.0 when the geometry
    covers the point.  Otherwise, with the two nearest points of the point
    and the geometry and their coordinates at hand, it is the great-circle
    distance between them, by the haversine formula on a sphere of radius
    6371.0088 km, rounded to 3 places (the float of the nearest multiple
    of 0.001); and it is null when there is no such distance because a
    step of the formula raises, when the nearest points or a coordinate
    raise, and whenever the computation raises.  The field is reported
    all the same, with the distance or the null. *)
Theorem point_geom_distance_km_cases (pt g : geom) :
  (covers g pt = Ok true ->
   point_geom_distance_km pt g = Some (S754_zero false)) /\
  (covers g pt <> Ok true ->
   forall p1 p2 y1 x1 y2 x2,
     nearest_points pt g = Ok (p1, p2) ->
     geom_y p1 = Ok y1 -> geom_x p1 = Ok x1 ->
     geom_y p2 = Ok y2 -> geom_x p2 = Ok x2 ->
     (forall d,
        great_circle_km y1 x1 y2 x2 d ->
        point_geom_distance_km pt g = Some (round_ndigits d 3) /\
        rounded_to 3 d (round_ndigits d 3)) /\
     ((forall d, ~ great_circle_km y1 x1 y2 x2 d) ->
      point_geom_distance_km pt g = None)) /\
  (covers g pt <> Ok true ->
   (forall e, nearest_distance_km pt g = Raise e ->
              point_geom_distance_km pt g = None) /\
   (forall e, nearest_points pt g = Raise e ->
              point_geom_distance_km pt g = None) /\
   (forall p1 p2,
      nearest_points pt g = Ok (p1, p2) ->
      is_ok (geom_y p1) && is_ok (geom_x p1) &&
      is_ok (geom_y p2) && is_ok (geom_x p2) = false ->
      point_geom_distance_km pt g = None)) /\
  (forall units fn fld L t i sel inside a v src,
     strtree_truthy L = Some t ->
     choose L t pt fn = Ok (Some i, sel, inside) ->
     getitem (attrs L) i = Ok a ->
     dict_get a fld = Some v ->
     getitem (geoms L) i = Ok g ->
     getitem (sources L) i = Ok src ->
     exists row,
       layer_pick units pt fn fld L =
       Ok (Some (mkRecord v (dict_get_default units fld "") src
                          (point_geom_distance_km pt g), row))).
Proof.
  assert (Hnone : covers g pt <> Ok true ->
                  forall e, nearest_distance_km pt g = Raise e ->
                            point_geom_distance_km pt g = None).
  { intros Hc e He. unfold point_geom_distance_km. rewrite He.
    destruct (covers g pt) as [[|]|]; congruence. }
  split; [|split; [|split]].
  - unfold point_geom_distance_km. intros ->. reflexivity.
  - intros Hc p1 p2 y1 x1 y2 x2 Hn Hy1 Hx1 Hy2 Hx2.
    assert (E : nearest_distance_km pt g
                = (d <- haversine_km y1 x1 y2 x2 ;; Ok (round_ndigits d 3))).
    { unfold nearest_distance_km. rewrite Hn. cbn [bind].
      rewrite Hy1, Hx1, Hy2, Hx2. reflexivity. }
    split.
    + intros d Hd. apply haversine_km_great_circle in Hd.
      split; [|apply round_ndigits_rounded].
      unfold point_geom_distance_km. rewrite E, Hd. cbn [bind].
      destruct (covers g pt) as [[|]|]; congruence.
    + intros Hno.
      destruct (haversine_km y1 x1 y2 x2) as [d|e] eqn:Hd.
      * exfalso. apply (Hno d), haversine_km_great_circle, Hd.
      * apply (Hnone Hc e). rewrite E. reflexivity.
  - intros Hc. split; [exact (Hnone Hc)|]. split.
    + intros e He. apply (Hnone Hc e).
      unfold nearest_distance_km. rewrite He. reflexivity.
    + intros p1 p2 Hn Hbad.
      assert (exists e, nearest_distance_km pt g = Raise e) as [e He].
      { unfold nearest_distance_km. rewrite Hn. cbn [bind].
        destruct (geom_y p1) as [y1|e1]; cbn [bind]; [|eauto].
        destruct (geom_x p1) as [x1|e2]; cbn [bind]; [|eauto].
        destruct (geom_y p2) as [y2|e3]; cbn [bind]; [|eauto].
        destruct (geom_x p2) as [x2|e4]; cbn [bind]; [|eauto].
        discriminate Hbad. }
      exact (Hnone Hc e He).
  - intros units fn fld L t i sel inside a v src Ht Hc Ha Hv Hg Hs.
    unfold layer_pick. rewrite Ht, Hc. cbn [bind]. rewrite Ha. cbn [bind].
    rewrite Hv, Hg. cbn [bind]. rewrite Hs. cbn [bind]. eauto.
Qed.

End DistanceFacts.

(* ------------------------------------------------------------------ *)
(** * When [query_point] returns, and when it does not *)

Section Returns.
Context `{Builtins} `{Shapely}.

Lemma getitem_position {A : Type} (l : list A) (i : Z) :
  position_ok (List.length l) i = true -> exists a, getitem l i = Ok a.
Proof.
  unfold position_ok, getitem. intros Hp.
  apply andb_prop in Hp. destruct Hp as [Hlo Hhi].
  apply Z.leb_le in Hlo. apply Z.ltb_lt in Hhi.
  destruct (i <? 0) eqn:Ei; [apply Z.ltb_lt in Ei; lia|].
  assert (E : (0 <=? i) && (i <? Z.of_nat (List.length l)) = true).
  { apply andb_true_intro. split; [apply Z.leb_le | apply Z.ltb_lt]; lia. }
  rewrite E.
  destruct (nth_error l (Z.to_nat i)) as [a|] eqn:En; [eauto|].
  apply nth_error_None in En. lia.
Qed.

Lemma index_items_positions (L : Layer) (n : nat) (items : list (item geom))
  (acc : list Z) :
  forallb (fun it => match it with
                     | ItemInt i => position_ok n i
                     | ItemGeom _ => false
                     end) items = true ->
  Forall (fun i => position_ok n i = true) acc ->
  exists idxs, index_items L acc items = (idxs, None) /\
               Forall (fun i => position_ok n i = true) idxs.
Proof.
  revert acc. induction items as [|it items IH]; intros acc Hall Hacc.
  - exists acc. split; [reflexivity | exact Hacc].
  - cbn [forallb] in Hall. apply andb_prop in Hall. destruct Hall as [Hit Hall].
    destruct it as [i|g]; [|discriminate].
    cbn [index_items index_item]. apply IH; [exact Hall|].
    apply Forall_app. split; [exact Hacc|]. constructor; [exact Hit|constructor].
Qed.

Lemma to_index_array_positions (L : Layer) (n : nat) (r : raw geom) :
  positions_ok n r = true ->
  exists idxs, _to_index_array L r = Ok idxs /\
               Forall (fun i => position_ok n i = true) idxs.
Proof.
  destruct r as [|items|i|g]; cbn [positions_ok _to_index_array]; intros Hp.
  - exists []. split; [reflexivity|constructor].
  - destruct (index_items_positions L n items [] Hp) as (idxs & E & Hall);
      [constructor|].
    rewrite E. eauto.
  - exists [i]. split; [reflexivity|]. constructor; [exact Hp|constructor].
  - discriminate.
Qed.

Lemma guarded_positions (L : Layer) (n : nat) (call : result (raw geom)) :
  guarded_ok n call = true ->
  exists idxs,
    (raw <- try_except call (Ok (RawSeq [])) ;; _to_index_array L raw)
    = Ok idxs /\
    Forall (fun i => position_ok n i = true) idxs.
Proof.
  destruct call as [r|e]; cbn [guarded_ok try_except bind].
  - apply to_index_array_positions.
  - intros _. exists []. split; [reflexivity|constructor].
Qed.

Lemma first_covering_In (L : Layer) (pt : geom) (cands : list Z) (i : Z) :
  first_covering L pt cands = Some i -> In i cands.
Proof.
  induction cands as [|j cands IH]; cbn [first_covering]; [discriminate|].
  destruct (g <- getitem (geoms L) j ;; covers g pt) as [[|]|].
  - intros E. injection E as <-. now left.
  - intros E. right. auto.
  - intros E. right. auto.
Qed.

Lemma min_loop_In {A : Type} (key : A -> result float) (l : list A)
  (best : A) (bestk : float) (a : A) :
  min_loop key l best bestk = Ok a -> a = best \/ In a l.
Proof.
  revert best bestk. induction l as [|x l IH]; intros best bestk.
  - cbn. intros E. injection E as <-. now left.
  - cbn [min_loop]. destruct (key x) as [k|e]; cbn [bind]; [|discriminate].
    destruct (flt k bestk); intros E; apply IH in E; cbn [In]; intuition.
Qed.

Lemma py_min_In {A : Type} (key : A -> result float) (l : list A) (a : A) :
  py_min key l = Ok a -> In a l.
Proof.
  destruct l as [|x l]; cbn [py_min]; [discriminate|].
  destruct (key x) as [k|e]; cbn [bind]; [|discriminate].
  intros E. apply min_loop_In in E. cbn [In]. intuition.
Qed.

Lemma range_position (n : nat) (i : Z) :
  In i (range n) -> position_ok n i = true.
Proof.
  unfold range. intros Hin. apply in_map_iff in Hin.
  destruct Hin as (k & <- & Hk). apply in_seq in Hk.
  unfold position_ok. apply andb_true_intro.
  split; [apply Z.leb_le | apply Z.ltb_lt]; lia.
Qed.

Lemma nearest_index_position (L : Layer) (pt : geom) (t : STRtree)
  (r : raw geom) :
  strtree_truthy L = Some t ->
  STRtree_nearest t pt = Ok r ->
  positions_ok (List.length (geoms L)) r = true ->
  exists o, _nearest_index L pt = Ok o /\
            forall i, o = Some i ->
                      position_ok (List.length (geoms L)) i = true.
Proof.
  intros Ht Hr Hp. unfold _nearest_index. rewrite Ht.
  destruct (List.length (geoms L) =? 0)%nat.
  { exists None. split; [reflexivity | discriminate]. }
  rewrite Hr. cbn [try_except_TypeError bind].
  destruct (to_index_array_positions L _ r Hp) as (idxs & E & Hall).
  rewrite E. cbn [bind]. destruct idxs as [|i idxs].
  - destruct (py_min (distance_key L pt) (range (List.length (geoms L))))
      as [i|e] eqn:Em; cbn [bind try_except].
    + exists (Some i). split; [reflexivity|].
      intros j Ej. injection Ej as <-.
      apply range_position. exact (py_min_In _ _ _ Em).
    + exists None. split; [reflexivity | discriminate].
  - exists (Some i). split; [reflexivity|].
    intros j Ej. injection Ej as <-. inversion Hall. assumption.
Qed.

Lemma choose_position (L : Layer) (pt : geom) (t : STRtree) (fn : bool) :
  layer_ok pt L = true ->
  strtree_truthy L = Some t ->
  exists c sel inside,
    choose L t pt fn = Ok (c, sel, inside) /\
    forall i, c = Some i -> position_ok (List.length (geoms L)) i = true.
Proof.
  unfold layer_ok. intros Hok Ht. rewrite Ht in Hok.
  apply andb_prop in Hok. destruct Hok as [_ Hok].
  apply andb_prop in Hok. destruct Hok as [Hok Hn].
  apply andb_prop in Hok. destruct Hok as [Hq He].
  destruct (STRtree_nearest t pt) as [rn|] eqn:En; [|congruence].
  destruct (guarded_positions L _ _ Hq) as (c1 & E1 & A1).
  destruct (guarded_positions L _ _ He) as (c2 & E2 & A2).
  assert (Hnear : exists o, _nearest_index L pt = Ok o /\
            forall i, o = Some i ->
                      position_ok (List.length (geoms L)) i = true)
    by (eapply nearest_index_position; eauto).
  destruct Hnear as (o & Eo & Ao).
  rewrite Forall_forall in A1, A2.
  unfold choose, bbox_candidates, expanded_candidates. rewrite E1. cbn [bind].
  destruct (first_covering L pt c1) as [i|] eqn:Ef.
  - apply first_covering_In in Ef.
    exists (Some i), "covers", true. split.
    + destruct c1; reflexivity.
    + intros j Ej. injection Ej as <-. auto.
  - destruct c1 as [|a c1].
    + rewrite E2. cbn [bind]. destruct c2 as [|b c2].
      * destruct fn.
        -- rewrite Eo. cbn [bind]. destruct o as [i|].
           ++ exists (Some i), "nearest_of_layer", false. split; [reflexivity|].
              intros j Ej. injection Ej as <-. auto.
           ++ exists None, "none", false. split; [reflexivity|discriminate].
        -- exists None, "none", false. split; [reflexivity|discriminate].
      * destruct (py_min (distance_key L pt) (b :: c2)) as [i|e] eqn:Em.
        -- exists (Some i), "nearest_of_candidates", false.
           split; [reflexivity|]. intros j Ej. injection Ej as <-.
           apply A2. exact (py_min_In _ _ _ Em).
        -- exists (Some b), "nearest_of_candidates", false.
           split; [reflexivity|]. intros j Ej. injection Ej as <-.
           apply A2. now left.
    + cbn [bind].
      destruct (py_min (distance_key L pt) (a :: c1)) as [i|e] eqn:Em.
      * exists (Some i), "nearest_of_candidates", false.
        split; [reflexivity|]. intros j Ej. injection Ej as <-.
        apply A1. exact (py_min_In _ _ _ Em).
      * exists (Some a), "nearest_of_candidates", false.
        split; [reflexivity|]. intros j Ej. injection Ej as <-.
        apply A1. now left.
Qed.

Lemma layer_pick_returns (units : dict string) (pt : geom) (fn : bool)
  (fld : string) (L : Layer) :
  layer_ok pt L = true -> exists o, layer_pick units pt fn fld L = Ok o.
Proof.
  intros Hok. unfold layer_pick.
  destruct (strtree_truthy L) as [t|] eqn:Et; [|eauto].
  destruct (choose_position L pt t fn Hok Et) as (c & sel & inside & Ec & Hc).
  rewrite Ec. cbn [bind]. destruct c as [i|]; [|eauto].
  specialize (Hc i eq_refl).
  unfold layer_ok in Hok.
  apply andb_prop in Hok. destruct Hok as [Hlen _].
  apply andb_prop in Hlen. destruct Hlen as [Ha Hs].
  apply Nat.eqb_eq in Ha. apply Nat.eqb_eq in Hs.
  destruct (getitem_position (attrs L) i) as [a Ea];
    [rewrite Ha; exact Hc|].
  destruct (getitem_position (sources L) i) as [src Es];
    [rewrite Hs; exact Hc|].
  destruct (getitem_position (geoms L) i Hc) as [g Eg].
  rewrite Ea. cbn [bind]. destruct (dict_get a fld); [|eauto].
  rewrite Eg. cbn [bind]. rewrite Es. cbn [bind]. eauto.
Qed.

Lemma query_layers_returns (rules units : dict string) (pt : geom)
  (fn dbg : bool) (layers : dict Layer) (st : loop_state) :
  forallb (fun kv => layer_ok pt (snd kv)) layers = true ->
  exists st', query_layers rules units pt fn dbg layers st = Ok st'.
Proof.
  revert st. induction layers as [|[fld L] rest IH]; intros st Hall.
  - exists st. reflexivity.
  - cbn [forallb snd] in Hall. apply andb_prop in Hall.
    destruct Hall as [Hok Hall]. cbn [query_layers].
    rewrite query_layer_pick.
    destruct (layer_pick_returns units pt fn fld L Hok) as [o ->].
    cbn [bind]. destruct o as [[rec row]|]; apply IH; exact Hall.
Qed.

(** Against layers built by [load_layers] whose index keeps the contract
    of Shapely 2.x at the point, and whose [nearest] answers there,
    [query_point] returns. *)
Lemma query_point_returns (G : globals) (lat lon : float) (fn dbg : bool) :
  forallb (fun kv => layer_ok (Point lon lat) (snd kv)) (LAYERS G) = true ->
  exists r, fst (query_point lat lon fn dbg G) = Ok r.
Proof.
  intros Hall. rewrite query_point_eq. cbn [fst].
  destruct (query_layers_returns (COMBINE_RULES G) (UNITS G) _ fn dbg
              (LAYERS G) ([], []) Hall) as [st' ->].
  cbn [bind]. eauto.
Qed.

(** No layer: nothing is returned for any field. *)
Lemma query_point_no_layer (G : globals) (lat lon : float) (fn dbg : bool) :
  LAYERS G = [] ->
  fst (query_point lat lon fn dbg G) = Ok ([], if dbg then Some [] else None).
Proof. intros E. rewrite query_point_eq, E. reflexivity. Qed.

(** Fallback off and no candidate in any layer: nothing is returned for
    any field. *)
Lemma query_point_nothing_found (G : globals) (lat lon : float) (dbg : bool) :
  (forall F L t, In (F, L) (LAYERS G) -> strtree_truthy L = Some t ->
     bbox_candidates L t (Point lon lat) = Ok [] /\
     expanded_candidates L t (Point lon lat) = Ok []) ->
  fst (query_point lat lon false dbg G)
  = Ok ([], if dbg then Some [] else None).
Proof.
  intros Hempty. rewrite query_point_eq. cbn [fst].
  assert (Hloop : forall layers st,
            (forall F L, In (F, L) layers -> In (F, L) (LAYERS G)) ->
            query_layers (COMBINE_RULES G) (UNITS G) (Point lon lat) false dbg
                         layers st = Ok st).
  { induction layers as [|[F L] rest IH]; intros st Hsub; [reflexivity|].
    cbn [query_layers]. rewrite query_layer_pick.
    assert (Hp : layer_pick (UNITS G) (Point lon lat) false F L = Ok None).
    { unfold layer_pick.
      destruct (strtree_truthy L) as [t|] eqn:Et; [|reflexivity].
      destruct (Hempty F L t (Hsub F L (or_introl eq_refl)) Et) as [Hb He].
      rewrite (choose_no_candidates L t _ Hb He). reflexivity. }
    rewrite Hp. cbn [bind]. apply IH.
    intros F' L' Hin. apply Hsub. now right. }
  rewrite Hloop by auto. reflexivity.
Qed.

(** An exception of [tree.nearest] leaves [_nearest_index]: a [TypeError]
    is answered by the same call again, any other is not caught. *)
Lemma nearest_index_raises (L : Layer) (pt : geom) (t : STRtree) (e : exn) :
  strtree_truthy L = Some t ->
  geoms L <> [] ->
  STRtree_nearest t pt = Raise e ->
  _nearest_index L pt = Raise e.
Proof.
  intros Ht Hg Hr. unfold _nearest_index. rewrite Ht.
  destruct (geoms L) as [|g gs]; [congruence|]. cbn [List.length Nat.eqb].
  rewrite Hr. destruct e; reflexivity.
Qed.

End Returns.

(* ------------------------------------------------------------------ *)
(** * Properties of the load phase *)

Section LoadFacts.
Context `{Builtins} `{Shapely} `{!DataDir}.

Lemma keys_dict_set {V : Type} (d : dict V) (k : string) (v : V) :
  keys (dict_set d k v) = if dict_mem d k then keys d else keys d ++ [k].
Proof.
  unfold dict_mem, keys. induction d as [|[k' v'] d IH]; cbn [dict_set dict_get map fst].
  - reflexivity.
  - destruct (String.eqb k' k) eqn:E; cbn [map fst]; [reflexivity|].
    rewrite IH. destruct (dict_get d k); reflexivity.
Qed.

Lemma dict_mem_keys {V : Type} (d : dict V) (k : string) :
  dict_mem d k = false -> ~ In k (keys d).
Proof.
  unfold dict_mem, keys. induction d as [|[k' v'] d IH]; cbn [dict_get map fst In].
  - tauto.
  - destruct (String.eqb_spec k' k) as [->|Hne]; [discriminate|].
    intros Hm [E|Hin]; [congruence | exact (IH Hm Hin)].
Qed.

Lemma NoDup_dict_set {V : Type} (d : dict V) (k : string) (v : V) :
  NoDup (keys d) -> NoDup (keys (dict_set d k v)).
Proof.
  intros Hnd. rewrite keys_dict_set.
  destruct (dict_mem d k) eqn:Em; [exact Hnd|].
  apply NoDup_app; [exact Hnd | repeat constructor; intros [] |].
  intros x Hx [->|[]]. exact (dict_mem_keys d x Em Hx).
Qed.

(** The registry is a dictionary: one layer per field. *)
Lemma load_file_NoDup (layers : dict Layer) (f : string) :
  NoDup (keys layers) -> NoDup (keys (load_file layers f)).
Proof.
  intros Hnd. unfold load_file.
  destruct (detect_field (path_name f)) as [fld|]; [|exact Hnd].
  destruct (String.eqb fld ""); [exact Hnd|].
  set (layers' := if dict_mem layers fld then layers
                  else dict_set layers fld (Layer_new fld)).
  assert (Hnd' : NoDup (keys layers')).
  { unfold layers'. destruct (dict_mem layers fld);
      [exact Hnd | apply NoDup_dict_set; exact Hnd]. }
  destruct (dict_get layers' fld); [apply NoDup_dict_set|]; exact Hnd'.
Qed.

Lemma build_all_keys (layers built : dict Layer) :
  build_all layers = Ok built -> keys built = keys layers.
Proof.
  revert built. induction layers as [|[fld L] rest IH]; intros built.
  - cbn. intros E. injection E as <-. reflexivity.
  - cbn [build_all]. destruct (build_index L) as [L'|e]; cbn [bind]; [|discriminate].
    destruct (build_all rest) as [rest'|e]; cbn [bind]; [|discriminate].
    intros E. injection E as <-. unfold keys in *. cbn [map fst].
    rewrite (IH rest' eq_refl). reflexivity.
Qed.

Lemma load_layers_NoDup (layers : dict Layer) :
  load_layers = Ok layers -> NoDup (keys layers).
Proof.
  unfold load_layers. intros E. rewrite (build_all_keys _ _ E).
  assert (Hgen : forall files acc, NoDup (keys acc) ->
                                   NoDup (keys (fold_left load_file files acc))).
  { induction files as [|f files IH]; intros acc Hacc; [exact Hacc|].
    cbn [fold_left]. apply IH, load_file_NoDup, Hacc. }
  apply Hgen. constructor.
Qed.

(** An index that cannot be built for one layer takes the whole load with
    it, the layers already built included. *)
Lemma build_all_raises (layers : dict Layer) (fld : string) (L : Layer)
  (e : exn) :
  In (fld, L) layers ->
  build_index L = Raise e ->
  exists e', build_all layers = Raise e'.
Proof.
  induction layers as [|[fld0 L0] rest IH]; intros Hin Hb; [contradiction|].
  cbn [build_all]. destruct Hin as [E|Hin].
  - injection E as -> ->. rewrite Hb. cbn [bind]. eauto.
  - destruct (build_index L0) as [L0'|e0]; cbn [bind]; [|eauto].
    destruct (IH Hin Hb) as [e' ->]. cbn [bind]. eauto.
Qed.

(** The one way [build_index] raises: the tree constructor does. *)
Lemma build_index_raises (L : Layer) (e : exn) :
  build_index L = Raise e ->
  STRtree_new (map fix_geom (geoms L)) = Raise e.
Proof.
  unfold build_index. destruct (map fix_geom (geoms L)) as [|g gs]; [discriminate|].
  destruct (STRtree_new (g :: gs)); cbn [bind]; congruence.
Qed.


(** ** One attribute map and one source per geometry *)

Lemma add_feature_balanced (fld : string) (L : Layer)
  (feat : geom * dict value * string) :
  balanced L -> balanced (add_feature fld L feat).
Proof.
  destruct feat as [[g a] src]. unfold balanced, add_feature.
  cbn [attrs geoms sources]. rewrite !length_app. cbn [List.length]. lia.
Qed.

Lemma add_features_balanced (fld : string)
  (feats : list (geom * dict value * string)) (L : Layer) :
  balanced L -> balanced (fold_left (add_feature fld) feats L).
Proof.
  revert L. induction feats as [|feat feats IH]; intros L HL; [exact HL|].
  cbn [fold_left]. apply IH, add_feature_balanced, HL.
Qed.

Lemma dict_set_Forall {V : Type} (P : V -> Prop) (d : dict V) (k : string)
  (v : V) :
  Forall P (map snd d) -> P v -> Forall P (map snd (dict_set d k v)).
Proof.
  intros Hd Hv. induction d as [|[k' v'] d IH]; cbn [dict_set map snd].
  - constructor; [exact Hv | constructor].
  - inversion Hd as [|? ? Hv' Hd']; subst.
    destruct (String.eqb k' k); cbn [map snd]; constructor; auto.
Qed.

Lemma dict_get_Forall {V : Type} (P : V -> Prop) (d : dict V) (k : string)
  (v : V) :
  Forall P (map snd d) -> dict_get d k = Some v -> P v.
Proof.
  induction d as [|[k' v'] d IH]; cbn [dict_get map snd]; [discriminate|].
  intros Hd. inversion Hd as [|? ? Hv' Hd']; subst.
  destruct (String.eqb k' k); [congruence | auto].
Qed.

Lemma load_file_balanced (layers : dict Layer) (f : string) :
  Forall balanced (map snd layers) ->
  Forall balanced (map snd (load_file layers f)).
Proof.
  intros Hb. unfold load_file.
  destruct (detect_field (path_name f)) as [fld|]; [|exact Hb].
  destruct (String.eqb fld ""); [exact Hb|].
  set (layers' := if dict_mem layers fld then layers
                  else dict_set layers fld (Layer_new fld)).
  assert (Hb' : Forall balanced (map snd layers')).
  { unfold layers'. destruct (dict_mem layers fld); [exact Hb|].
    apply dict_set_Forall; [exact Hb|]. split; reflexivity. }
  destruct (dict_get layers' fld) as [L|] eqn:EL; [|exact Hb'].
  apply dict_set_Forall; [exact Hb'|].
  apply add_features_balanced. exact (dict_get_Forall _ _ _ _ Hb' EL).
Qed.

Lemma build_index_balanced (L L' : Layer) :
  balanced L -> build_index L = Ok L' -> balanced L'.
Proof.
  unfold balanced, build_index. intros [Ha Hs].
  assert (Hlen : List.length (map fix_geom (geoms L)) = List.length (geoms L))
    by apply length_map.
  destruct (map fix_geom (geoms L)) as [|g gs].
  - intros E. injection E as <-. cbn [attrs sources geoms] in *. lia.
  - destruct (STRtree_new (g :: gs)); cbn [bind]; [|discriminate].
    intros E. injection E as <-. cbn [attrs sources geoms] in *. lia.
Qed.

(** Every layer of the registry is balanced. *)
Lemma load_layers_balanced (layers : dict Layer) :
  load_layers = Ok layers -> Forall balanced (map snd layers).
Proof.
  unfold load_layers.
  assert (Hgen : forall files acc,
            Forall balanced (map snd acc) ->
            Forall balanced (map snd (fold_left load_file files acc))).
  { induction files as [|f files IH]; intros acc Hacc; [exact Hacc|].
    cbn [fold_left]. apply IH, load_file_balanced, Hacc. }
  specialize (Hgen glob_kml [] (Forall_nil _)).
  revert layers Hgen. generalize (fold_left load_file glob_kml []).
  induction d as [|[fld L] rest IH]; intros built Hall.
  - cbn. intros E. injection E as <-. constructor.
  - cbn [build_all map snd] in *. inversion Hall as [|? ? HL Hrest]; subst.
    destruct (build_index L) as [L'|e] eqn:EL; cbn [bind]; [|discriminate].
    destruct (build_all rest) as [rest'|e]; cbn [bind]; [|discriminate].
    intros E. injection E as <-. cbn [map snd]. constructor.
    + exact (build_index_balanced L L' HL EL).
    + apply IH; [exact Hrest | reflexivity].
Qed.

End LoadFacts.

(* ------------------------------------------------------------------ *)
(** * The program at work on the sample data *)

Module Runs.
Import Toy.

(** Importing the module with a sound index builds the two layers. *)
Example start_builds_two_layers : start no_faults = Ok (G0 no_faults).
Proof. reflexivity. Qed.

(** File names are matched without regard to case, in the order of the
    table. *)
Example detect_field_samples :
  map detect_field
      ["PGA-Earthquake.kml"; "inspection areas 2024.kml"; "wind-sbc.kml";
       "ss-earthquake-s1-earthquake.kml"; "roads.kml"]
  = [Some "pga"; Some "inspection_area"; Some "v"; Some "ss"; None].
Proof. reflexivity. Qed.

(** The sample layers keep the contract of the index at a point east of
    every rectangle, and the query there returns. *)
Example sample_query_returns :
  forallb (fun kv => @layer_ok (shapely no_faults)
                       (TPoint (float_of_Z 60) (float_of_Z 5)) (snd kv))
          (LAYERS (G0 no_faults)) = true /\
  exists r, fst (run_query no_faults (G0 no_faults) 5 60 true true) = Ok r.
Proof.
  assert (Hok : forallb (fun kv => @layer_ok (shapely no_faults)
                           (TPoint (float_of_Z 60) (float_of_Z 5)) (snd kv))
                        (LAYERS (G0 no_faults)) = true)
    by (vm_compute; reflexivity).
  split; [exact Hok|].
  exact (@query_point_returns builtins (shapely no_faults) (G0 no_faults)
           (float_of_Z 5) (float_of_Z 60) true true Hok).
Qed.

(** On the boundary of the second rectangle, inside the bounds of the
    outline before it and inside the rectangle after it. *)
Lemma covers_picks_first_candidate_witness :
  let L := pga_layer no_faults in
  let pt := TPoint (float_of_Z 10) (float_of_Z 5) in
  @bbox_candidates (shapely no_faults) L (geoms L) pt = Ok ([0] ++ 1 :: [2]) /\
  Forall (fun j => @covers_at (shapely no_faults) L pt j = false) [0] /\
  @covers_at (shapely no_faults) L pt 1 = true /\
  @choose (shapely no_faults) L (geoms L) pt true = Ok (Some 1, "covers", true).
Proof.
  cbv zeta.
  assert (H1 : @bbox_candidates (shapely no_faults) (pga_layer no_faults)
                 (geoms (pga_layer no_faults))
                 (TPoint (float_of_Z 10) (float_of_Z 5))
               = Ok ([0] ++ 1 :: [2])) by (vm_compute; reflexivity).
  assert (H2 : Forall (fun j => @covers_at (shapely no_faults)
                                  (pga_layer no_faults)
                                  (TPoint (float_of_Z 10) (float_of_Z 5)) j
                                = false) [0])
    by (constructor; [vm_compute; reflexivity | constructor]).
  assert (H3 : @covers_at (shapely no_faults) (pga_layer no_faults)
                 (TPoint (float_of_Z 10) (float_of_Z 5)) 1 = true)
    by (vm_compute; reflexivity).
  split; [exact H1|]. split; [exact H2|]. split; [exact H3|].
  exact (proj1 (@covers_picks_first_candidate builtins (shapely no_faults)
                  _ _ _ true _ _ _ H1 H2 H3)).
Defined.


(** Inside the first rectangle the distance is 0.0; east of the last one
    it is the rounded great-circle distance to the nearest point of it. *)
Lemma point_geom_distance_km_cases_witness :
  (@covers (shapely no_faults) (box 0 0 10 10)
           (TPoint (float_of_Z 9) (float_of_Z 5)) = Ok true /\
   @point_geom_distance_km builtins (shapely no_faults)
     (TPoint (float_of_Z 9) (float_of_Z 5)) (box 0 0 10 10)
   = Some (S754_zero false)) /\
  (@covers (shapely no_faults) (box 40 0 50 10)
           (TPoint (float_of_Z 60) (float_of_Z 5)) <> Ok true /\
   exists d,
     @great_circle_km builtins (float_of_Z 5) (float_of_Z 60)
                      (float_of_Z 5) (float_of_Z 50) d /\
     @point_geom_distance_km builtins (shapely no_faults)
       (TPoint (float_of_Z 60) (float_of_Z 5)) (box 40 0 50 10)
     = Some (round_ndigits d 3) /\
     rounded_to 3 d (round_ndigits d 3)).
Proof.
  split.
  - assert (Hc : @covers (shapely no_faults) (box 0 0 10 10)
                   (TPoint (float_of_Z 9) (float_of_Z 5)) = Ok true)
      by (vm_compute; reflexivity).
    split; [exact Hc|].
    exact (proj1 (@point_geom_distance_km_cases builtins (shapely no_faults)
                    _ _) Hc).
  - assert (Hc : @covers (shapely no_faults) (box 40 0 50 10)
                   (TPoint (float_of_Z 60) (float_of_Z 5)) <> Ok true)
      by (vm_compute; discriminate).
    split; [exact Hc|].
    assert (Hh : exists d,
               @haversine_km builtins (float_of_Z 5) (float_of_Z 60)
                             (float_of_Z 5) (float_of_Z 50) = Ok d)
      by (eexists; vm_compute; reflexivity).
    destruct Hh as [d Hh].
    apply (@haversine_km_great_circle builtins) in Hh.
    exists d. split; [exact Hh|].
    refine (proj1 (proj1 (proj2 (@point_geom_distance_km_cases builtins
                                   (shapely no_faults) _ _)) Hc
                         (TPoint (float_of_Z 60) (float_of_Z 5))
                         (TPoint (float_of_Z 50) (float_of_Z 5))
                         (float_of_Z 5) (float_of_Z 60)
                         (float_of_Z 5) (float_of_Z 50)
                         _ _ _ _ _) d Hh);
      reflexivity.
Defined.

(** North of the last rectangle of [pga] and inside the one of [v], with
    the fallback off. *)
Lemma absent_without_fallback_witness :
  (forall L t,
     In ("pga", L) (LAYERS (G0 no_faults)) ->
     @strtree_truthy (shapely no_faults) L = Some t ->
     @bbox_candidates (shapely no_faults) L t
       (TPoint (float_of_Z 45) (float_of_Z 25)) = Ok [] /\
     @expanded_candidates (shapely no_faults) L t
       (TPoint (float_of_Z 45) (float_of_Z 25)) = Ok []) /\
  exists results rows,
    fst (run_query no_faults (G0 no_faults) 25 45 false true)
    = Ok (results, rows) /\
    dict_get results "pga" = None /\
    dict_mem results "v" = true.
Proof.
  assert (Hyp : forall L t,
     In ("pga", L) (LAYERS (G0 no_faults)) ->
     @strtree_truthy (shapely no_faults) L = Some t ->
     @bbox_candidates (shapely no_faults) L t
       (TPoint (float_of_Z 45) (float_of_Z 25)) = Ok [] /\
     @expanded_candidates (shapely no_faults) L t
       (TPoint (float_of_Z 45) (float_of_Z 25)) = Ok []).
  { intros L t [E|[E|[]]] Ht; [|discriminate E].
    injection E as <-. vm_compute in Ht. injection Ht as <-.
    split; vm_compute; reflexivity. }
  split; [exact Hyp|].
  assert (Hq : exists results rows,
             fst (run_query no_faults (G0 no_faults) 25 45 false true)
             = Ok (results, rows) /\ dict_mem results "v" = true).
  { eexists. eexists. split; vm_compute; reflexivity. }
  destruct Hq as (results & rows & Hq & Hv).
  exists results, rows. split; [exact Hq|]. split; [|exact Hv].
  exact (proj1 (proj2 (@absent_without_fallback builtins (shapely no_faults)
                         (G0 no_faults) (float_of_Z 25) (float_of_Z 45)
                         true "pga" Hyp) results rows Hq)).
Defined.

(** Inside the last rectangle of [pga], which carries no value. *)
Lemma omitted_without_value_witness :
  (forall L t,
     In ("pga", L) (LAYERS (G0 no_faults)) ->
     @strtree_truthy (shapely no_faults) L = Some t ->
     exists i sel inside a,
       @choose (shapely no_faults) L t
         (TPoint (float_of_Z 45) (float_of_Z 5)) true
       = Ok (Some i, sel, inside) /\
       getitem (attrs L) i = Ok a /\
       dict_get a "pga" = None) /\
  exists results rows,
    fst (run_query no_faults (G0 no_faults) 5 45 true true)
    = Ok (results, rows) /\
    dict_get results "pga" = None /\
    dict_mem results "v" = true.
Proof.
  assert (Hyp : forall L t,
     In ("pga", L) (LAYERS (G0 no_faults)) ->
     @strtree_truthy (shapely no_faults) L = Some t ->
     exists i sel inside a,
       @choose (shapely no_faults) L t
         (TPoint (float_of_Z 45) (float_of_Z 5)) true
       = Ok (Some i, sel, inside) /\
       getitem (attrs L) i = Ok a /\
       dict_get a "pga" = None).
  { intros L t [E|[E|[]]] Ht; [|discriminate E].
    injection E as <-. vm_compute in Ht. injection Ht as <-.
    exists 3, "covers", true, [("note", VStr "no value")].
    repeat split; vm_compute; reflexivity. }
  split; [exact Hyp|].
  assert (Hq : exists results rows,
             fst (run_query no_faults (G0 no_faults) 5 45 true true)
             = Ok (results, rows) /\ dict_mem results "v" = true).
  { eexists. eexists. split; vm_compute; reflexivity. }
  destruct Hq as (results & rows & Hq & Hv).
  exists results, rows. split; [exact Hq|]. split; [|exact Hv].
  exact (proj1 (proj2 (proj2 (@omitted_without_value builtins
                                (shapely no_faults) (G0 no_faults)
                                (float_of_Z 5) (float_of_Z 45) true true
                                "pga" Hyp)) results rows Hq)).
Defined.

(** Two layers, two keys; other combine rules, same answer. *)
Lemma one_record_per_field_witness :
  NoDup (keys (LAYERS (G0 no_faults))) /\
  fst (@query_point builtins (shapely no_faults) (float_of_Z 5) (float_of_Z 9)
         true true
         (with_rules (G0 no_faults) [("pga", "min"); ("v", "last")])) =
  fst (@query_point builtins (shapely no_faults) (float_of_Z 5) (float_of_Z 9)
         true true (G0 no_faults)).
Proof.
  assert (Hnd : NoDup (keys (LAYERS (G0 no_faults)))).
  { repeat constructor; cbn; intuition discriminate. }
  split; [exact Hnd|].
  exact (proj1 (proj2 (@one_record_per_field builtins (shapely no_faults)
                         (G0 no_faults) (float_of_Z 5) (float_of_Z 9)
                         true true Hnd)) _).
Defined.

(** C2 (the program falls short of it): the query at latitude 5 and
    longitude 60, east of every rectangle, finds no candidate in either
    search and asks [_nearest_index]; against an index whose [nearest]
    raises [TypeError] the handler repeats the call and [query_point]
    raises [TypeError].  With the fallback off the same query returns no
    values. *)
Theorem query_point_raises_with_nearest :
  fst (run_query nearest_fault (G0 nearest_fault) 5 60 true false)
  = Raise TypeError /\
  fst (run_query nearest_fault (G0 nearest_fault) 5 60 false false)
  = Ok ([], None).
Proof. split; vm_compute; reflexivity. Qed.

(** C3 (the program falls short of it): the first loop of [load_layers]
    leaves the layers of [pga] and [v]; the index of [pga] can be built,
    the one of [v] cannot, and [load_layers] raises, so that the import
    ends without a registry and [pga] cannot be queried either. *)
Theorem load_layers_fails_as_a_whole :
  fold_left (@load_file builtins (shapely build_fault) (datadir build_fault))
            (@glob_kml _ (datadir build_fault)) []
  = [("pga", unbuilt (pga_layer build_fault));
     ("v", unbuilt (wind_layer build_fault))] /\
  @build_index (shapely build_fault) (unbuilt (pga_layer build_fault))
  = Ok (pga_layer build_fault) /\
  @build_index (shapely build_fault) (unbuilt (wind_layer build_fault))
  = Raise GEOSException /\
  @load_layers builtins (shapely build_fault) (datadir build_fault)
  = Raise GEOSException /\
  start build_fault = Raise GEOSException.
Proof. repeat split; reflexivity. Qed.

End Runs.

(* ------------------------------------------------------------------ *)
(** * The order of floats and [min] *)

Section MinFacts.

Ltac rank_fwd :=
  intros _; eexists; eexists; split; [reflexivity|]; split; [reflexivity|];
  cbn; lia.

Ltac rank_bwd :=
  let a := fresh "a" in
  let b := fresh "b" in
  let Ea := fresh "Ea" in
  let Eb := fresh "Eb" in
  let Hlt := fresh "Hlt" in
  intros (a & b & Ea & Eb & Hlt);
  first [ discriminate Ea | discriminate Eb
        | injection Ea as <-; injection Eb as <-; cbn in Hlt;
          first [reflexivity | exfalso; lia] ].

Ltac rank_iff := split; [first [discriminate | rank_fwd] | rank_bwd].

Lemma flt_rank (x y : float) :
  flt x y = true <->
  exists a b, float_rank x = Some a /\ float_rank y = Some b /\ rank_lt a b.
Proof.
  unfold flt, SFltb.
  destruct x as [sx|sx| |sx mx ex], y as [sy|sy| |sy my ey];
    try destruct sx; try destruct sy; cbn [SFcompare float_rank];
    try rank_iff;
    change (Pos.compare_cont Eq mx my) with (Pos.compare mx my);
    (destruct (Z.compare_spec ex ey) as [Ee|Ee|Ee];
     [destruct (Pos.compare_spec mx my) as [Em|Em|Em]| |]);
    cbn [CompOpp]; rank_iff.
Qed.

Lemma flt_irrefl (x : float) : flt x x = false.
Proof.
  destruct (flt x x) eqn:E; [|reflexivity].
  apply flt_rank in E. destruct E as (a & b & Ea & Eb & Hlt).
  rewrite Ea in Eb. injection Eb as <-.
  destruct a as [[a1 a2] a3]. cbn in Hlt. lia.
Qed.

Lemma flt_trans (x y z : float) :
  flt x y = true -> flt y z = true -> flt x z = true.
Proof.
  intros Hxy Hyz. apply flt_rank in Hxy, Hyz. apply flt_rank.
  destruct Hxy as (a & b & Ea & Eb & Hab).
  destruct Hyz as (b' & c & Eb' & Ec & Hbc).
  rewrite Eb in Eb'. injection Eb' as <-.
  exists a, c. split; [exact Ea|]. split; [exact Ec|].
  destruct a as [[a1 a2] a3], b as [[b1 b2] b3], c as [[c1 c2] c3].
  cbn in *. lia.
Qed.

Context {A : Type} (key : A -> result float).

Lemma min_loop_minimal (l : list A) (seen : A -> Prop)
  (best : A) (bestk : float) (a : A) :
  key best = Ok bestk ->
  (forall b, seen b -> exists kb, key b = Ok kb /\ flt kb bestk = false) ->
  min_loop key l best bestk = Ok a ->
  exists ka, key a = Ok ka /\
    forall b, seen b \/ b = best \/ In b l ->
              exists kb, key b = Ok kb /\ flt kb ka = false.
Proof.
  revert seen best bestk. induction l as [|x l IH]; intros seen best bestk Hb Hseen.
  - cbn. intros E. injection E as <-. exists bestk. split; [exact Hb|].
    intros b [Hs | [-> | []]]; [auto|].
    exists bestk. split; [exact Hb | apply flt_irrefl].
  - cbn [min_loop]. destruct (key x) as [k|e] eqn:Ex; cbn [bind]; [|discriminate].
    destruct (flt k bestk) eqn:Elt; intros Hm.
    + assert (Hseen' : forall b, seen b \/ b = best ->
                         exists kb, key b = Ok kb /\ flt kb k = false).
      { intros b [Hs | ->].
        - destruct (Hseen b Hs) as (kb & Ekb & Hkb). exists kb.
          split; [exact Ekb|].
          destruct (flt kb k) eqn:E; [|reflexivity].
          rewrite (flt_trans _ _ _ E Elt) in Hkb. discriminate.
        - exists bestk. split; [exact Hb|].
          destruct (flt bestk k) eqn:E; [|reflexivity].
          pose proof (flt_trans _ _ _ E Elt) as Hc.
          rewrite flt_irrefl in Hc. discriminate. }
      destruct (IH _ x k Ex Hseen' Hm) as (ka & Ha & Hall).
      exists ka. split; [exact Ha|].
      intros b Hb'. apply Hall. cbn [In] in Hb'. intuition.
    + assert (Hseen' : forall b, seen b \/ b = x ->
                         exists kb, key b = Ok kb /\ flt kb bestk = false).
      { intros b [Hs | ->]; [auto|]. exists k. auto. }
      destruct (IH _ best bestk Hb Hseen' Hm) as (ka & Ha & Hall).
      exists ka. split; [exact Ha|].
      intros b Hb'. apply Hall. cbn [In] in Hb'. intuition.
Qed.

(** [min] returns an element of the list that no element has a key
    below; it raises when the list is empty or a key does. *)
Lemma py_min_minimal (l : list A) (a : A) :
  py_min key l = Ok a ->
  In a l /\
  exists ka, key a = Ok ka /\
    forall b, In b l -> exists kb, key b = Ok kb /\ flt kb ka = false.
Proof.
  intros Hm. split; [exact (py_min_In key l a Hm)|].
  destruct l as [|x l]; [discriminate|]. cbn [py_min] in Hm.
  destruct (key x) as [k|e] eqn:Ex; cbn [bind] in Hm; [|discriminate].
  assert (Hnone : forall b : A, False ->
                    exists kb, key b = Ok kb /\ flt kb k = false)
    by (intros b []).
  destruct (min_loop_minimal l (fun _ => False) x k a Ex Hnone Hm)
    as (ka & Ha & Hall).
  exists ka. split; [exact Ha|].
  intros b Hb. apply Hall. cbn [In] in Hb. intuition.
Qed.

Lemma min_loop_raises (l : list A) (best : A) (bestk : float) (e : exn) :
  min_loop key l best bestk = Raise e -> exists b, In b l /\ key b = Raise e.
Proof.
  revert best bestk. induction l as [|x l IH]; intros best bestk; [discriminate|].
  cbn [min_loop]. destruct (key x) as [k|e'] eqn:Ex; cbn [bind].
  - destruct (flt k bestk); intros Hm; apply IH in Hm;
      destruct Hm as (b & Hb & Eb); exists b; split; auto; now right.
  - intros E. injection E as <-. exists x. split; [now left | exact Ex].
Qed.

Lemma py_min_raises (l : list A) (e : exn) :
  py_min key l = Raise e ->
  l = [] \/ exists b, In b l /\ key b = Raise e.
Proof.
  intros Hm.
  destruct l as [|x l]; [now left|]. right. cbn [py_min] in *.
  revert Hm. destruct (key x) as [k|e'] eqn:Ex; cbn [bind]; intros Hm.
  - apply min_loop_raises in Hm. destruct Hm as (b & Hb & Eb).
    exists b. split; [now right | exact Eb].
  - injection Hm as <-. exists x. split; [now left | exact Ex].
Qed.

Lemma py_min_all_ok (l : list A) :
  l <> [] -> Forall (fun b => is_ok (key b) = true) l ->
  exists a, py_min key l = Ok a.
Proof.
  intros Hne Hall. destruct (py_min key l) as [a|e] eqn:E; [eauto|].
  apply py_min_raises in E. destruct E as [->|(b & Hb & Eb)]; [congruence|].
  rewrite Forall_forall in Hall. specialize (Hall b Hb).
  rewrite Eb in Hall. discriminate.
Qed.

End MinFacts.

(* ------------------------------------------------------------------ *)
(** * Properties of the index normalisers *)

Section NormaliserFacts.
Context `{Builtins} `{Shapely}.

Lemma combine_range_In {A : Type} (l : list A) (k : nat) (i : Z) (a : A) :
  In (i, a) (List.combine (map Z.of_nat (seq k (List.length l))) l) ->
  exists j, i = Z.of_nat (k + j) /\ nth_error l j = Some a.
Proof.
  revert k. induction l as [|x l IH]; intros k; cbn; [tauto|].
  intros [E|Hin].
  - injection E as <- <-. exists 0%nat. split; [f_equal; lia | reflexivity].
  - destruct (IH (S k) Hin) as (j & -> & Hj). exists (S j).
    split; [f_equal; lia | exact Hj].
Qed.

Lemma enumerate_In {A : Type} (l : list A) (i : Z) (a : A) :
  In (i, a) (enumerate l) ->
  position_ok (List.length l) i = true /\ getitem l i = Ok a.
Proof.
  unfold enumerate, range. intros Hin.
  destruct (combine_range_In l 0 i a Hin) as (j & -> & Hj).
  assert (Hlt : (j < List.length l)%nat)
    by (apply nth_error_Some; congruence).
  assert (Hp : position_ok (List.length l) (Z.of_nat (0 + j)) = true).
  { unfold position_ok. apply andb_true_intro.
    split; [apply Z.leb_le | apply Z.ltb_lt]; lia. }
  split; [exact Hp|].
  unfold getitem. unfold position_ok in Hp.
  destruct (Z.of_nat (0 + j) <? 0) eqn:En; [apply Z.ltb_lt in En; lia|].
  rewrite Hp, Nat2Z.id. cbn [Nat.add]. rewrite Hj. reflexivity.
Qed.

Lemma first_index_found (test : geom -> result bool) (l : list (Z * geom))
  (i : Z) :
  first_index test l = Ok (Some i) ->
  exists g, In (i, g) l /\ test g = Ok true.
Proof.
  induction l as [|[j g] l IH]; cbn [first_index]; [discriminate|].
  destruct (test g) as [[|]|e] eqn:Et; cbn [bind]; try discriminate.
  - intros E. injection E as <-. exists g. split; [now left | exact Et].
  - intros E. destruct (IH E) as (g' & Hin & Hg'). exists g'.
    split; [now right | exact Hg'].
Qed.

(** What one geometry of an index answer adds: nothing, or one position
    that holds a geometry matching it. *)
Lemma index_item_geom (L : Layer) (idxs idxs' : list Z) (g : geom) :
  index_item L idxs (ItemGeom g) = Ok idxs' ->
  idxs' = idxs \/ exists i, idxs' = idxs ++ [i] /\ matches L g i.
Proof.
  cbn [index_item].
  destruct (wkb g) as [cwkb|e] eqn:Ew; cbn [bind].
  - destruct (first_index (fun g' => w <- wkb g' ;; Ok (String.eqb w cwkb))
                          (enumerate (geoms L))) as [found|e] eqn:Ef;
      cbn [bind].
    + intros E. injection E as <-. destruct found as [i|]; [|now left].
      right. exists i. split; [reflexivity|].
      destruct (first_index_found _ _ _ Ef) as (g' & Hin & Ht).
      destruct (enumerate_In _ _ _ Hin) as [_ Hg].
      exists g'. split; [exact Hg|]. left.
      destruct (wkb g') as [w|e] eqn:Ew'; cbn [bind] in Ht; [|discriminate].
      injection Ht as Ht. apply String.eqb_eq in Ht. subst w. eauto.
    + destruct (first_index (fun g' => equals g' g) (enumerate (geoms L)))
        as [found|e'] eqn:Ef'; cbn [bind]; [|discriminate].
      intros E. injection E as <-. destruct found as [i|]; [|now left].
      right. exists i. split; [reflexivity|].
      destruct (first_index_found _ _ _ Ef') as (g' & Hin & Ht).
      destruct (enumerate_In _ _ _ Hin) as [_ Hg].
      exists g'. split; [exact Hg | now right].
  - destruct (first_index (fun g' => equals g' g) (enumerate (geoms L)))
      as [found|e'] eqn:Ef'; cbn [bind]; [|discriminate].
    intros E. injection E as <-. destruct found as [i|]; [|now left].
    right. exists i. split; [reflexivity|].
    destruct (first_index_found _ _ _ Ef') as (g' & Hin & Ht).
    destruct (enumerate_In _ _ _ Hin) as [_ Hg].
    exists g'. split; [exact Hg | now right].
Qed.

Lemma index_items_sound (L : Layer) (items : list (item geom))
  (acc idxs : list Z) (err : option exn) :
  index_items L acc items = (idxs, err) ->
  exists added,
    idxs = acc ++ added /\
    (List.length added <= List.length items)%nat /\
    Forall (from_answer L items) added.
Proof.
  revert acc. induction items as [|it items IH]; intros acc.
  - cbn. intros E. injection E as <- <-. exists [].
    rewrite app_nil_r. split; [reflexivity|]. split; [cbn; lia | constructor].
  - cbn [index_items].
    assert (Hweak : forall added,
              Forall (from_answer L items) added ->
              Forall (from_answer L (it :: items)) added).
    { intros added. apply Forall_impl. intros i [Hi|(g & Hg & Hm)].
      - left. now right.
      - right. exists g. split; [now right | exact Hm]. }
    destruct (index_item L acc it) as [acc'|e] eqn:Ei.
    + intros E. destruct (IH acc' E) as (added & -> & Hlen & Hall).
      destruct it as [i|g].
      * cbn in Ei. injection Ei as <-. exists (i :: added).
        rewrite <- app_assoc. split; [reflexivity|]. split; [cbn; lia|].
        constructor; [left; now left | auto].
      * destruct (index_item_geom L acc acc' g Ei) as [->|(i & -> & Hm)].
        -- exists added. split; [reflexivity|]. split; [cbn; lia | auto].
        -- exists (i :: added). rewrite <- app_assoc.
           split; [reflexivity|]. split; [cbn; lia|].
           constructor; [right; exists g; split; [now left | exact Hm] | auto].
    + intros E. injection E as <- <-. exists [].
      rewrite app_nil_r. split; [reflexivity|].
      split; [cbn; lia | constructor].
Qed.

Lemma index_items_ints (L : Layer) (l acc : list Z) :
  index_items L acc (map ItemInt l) = (acc ++ l, None).
Proof.
  revert acc. induction l as [|i l IH]; intros acc; cbn.
  - rewrite app_nil_r. reflexivity.
  - rewrite IH, <- app_assoc. reflexivity.
Qed.

End NormaliserFacts.

(* ------------------------------------------------------------------ *)
(** * Further properties of the tiers and of the loop *)

Section TierFacts.
Context `{Builtins} `{Shapely}.

(** X1: whatever the layer, an index answer made of positions comes back
    as those positions, in their order and unchecked; a single position
    comes back alone, [None] and a single geometry as no position. *)
Theorem to_index_array_keeps_positions (L : Layer) (l : list Z) (i : Z)
  (g : geom) :
  _to_index_array L (RawSeq (map ItemInt l)) = Ok l /\
  _to_index_array L (RawInt i) = Ok [i] /\
  _to_index_array L RawNone = Ok [] /\
  _to_index_array L (RawGeom g) = Ok [].
Proof.
  split; [|repeat split].
  cbn [_to_index_array]. rewrite index_items_ints. reflexivity.
Qed.

(** X2: when [_to_index_array] returns for a sequence, it returns at most
    one position per item, and each position is an integer of the answer
    or the place of a layer geometry that matches a geometry of the answer
    (same [wkb], or [equals]); when it raises, it is not with a
    [TypeError]. *)
Theorem to_index_array_sound (L : Layer) (items : list (item geom)) :
  (forall idxs,
     _to_index_array L (RawSeq items) = Ok idxs ->
     (List.length idxs <= List.length items)%nat /\
     Forall (from_answer L items) idxs) /\
  (forall r e, _to_index_array L r = Raise e -> e <> TypeError).
Proof.
  split.
  - intros idxs. cbn [_to_index_array].
    destruct (index_items L [] items) as [got err] eqn:E.
    destruct (index_items_sound L items [] got err E) as (added & -> & Hlen & Hall).
    cbn [app].
    destruct err as [[]|]; intros Eq; try discriminate;
      injection Eq as <-; auto.
  - intros r e. destruct r as [|its|i|g]; cbn [_to_index_array];
      try discriminate.
    destruct (index_items L [] its) as [got [[]|]]; try discriminate;
      intros Eq; injection Eq as <-; discriminate.
Qed.

Lemma first_covering_covers (L : Layer) (pt : geom) (cands : list Z) (i : Z) :
  first_covering L pt cands = Some i -> covers_at L pt i = true.
Proof.
  unfold covers_at.
  induction cands as [|j cands IH]; cbn [first_covering]; [discriminate|].
  destruct (g <- getitem (geoms L) j ;; covers g pt) as [[|]|] eqn:E; auto.
  intros Ej. injection Ej as <-. rewrite E. reflexivity.
Qed.

(** The four ways the tiers end. *)
Lemma choose_cases (L : Layer) (t : STRtree) (pt : geom) (fn : bool)
  (c : option Z) (sel : string) (inside : bool) :
  choose L t pt fn = Ok (c, sel, inside) ->
  (exists i, c = Some i /\ sel = "covers" /\ inside = true /\
             covers_at L pt i = true) \/
  (exists i, c = Some i /\ sel = "nearest_of_candidates" /\ inside = false) \/
  (exists i, c = Some i /\ sel = "nearest_of_layer" /\ inside = false /\
             fn = true /\ _nearest_index L pt = Ok (Some i)) \/
  (c = None /\ sel = "none" /\ inside = false).
Proof.
  unfold choose.
  destruct (bbox_candidates L t pt) as [c1|e]; cbn [bind]; [|discriminate].
  destruct (first_covering L pt c1) as [i|] eqn:Ef.
  - apply first_covering_covers in Ef.
    destruct c1; cbn [bind]; intros E; injection E as <- <- <-;
      left; eauto.
  - destruct c1 as [|a c1]; cbn [bind].
    + destruct (expanded_candidates L t pt) as [c2|e]; cbn [bind];
        [|discriminate].
      destruct c2 as [|b c2]; cbn [bind].
      * destruct fn.
        -- destruct (_nearest_index L pt) as [[i|]|e] eqn:En; cbn [bind];
             try discriminate; intros E; injection E as <- <- <-.
           ++ right. right. left. eauto 10.
           ++ right. right. right. auto.
        -- intros E. injection E as <- <- <-. right. right. right. auto.
      * intros E. injection E as <- <- <-. right. left. eauto.
    + intros E. injection E as <- <- <-. right. left. eauto.
Qed.

(** What a record and its debug row say of each other and of the tier. *)
Lemma layer_pick_row (units : dict string) (pt : geom) (fn : bool)
  (fld : string) (L : Layer) (rec : record) (row : debug_row) :
  layer_pick units pt fn fld L = Ok (Some (rec, row)) ->
  d_field row = fld /\
  picked_from row = r_source rec /\
  d_value row = r_value rec /\
  d_distance_km row = r_distance_km rec /\
  r_unit rec = dict_get_default units fld "" /\
  In (r_source rec) (sources L) /\
  row_consistent fn row.
Proof.
  unfold layer_pick.
  destruct (strtree_truthy L) as [t|]; [|discriminate].
  destruct (choose L t pt fn) as [[[c sel] inside]|e] eqn:Ec; cbn [bind];
    [|discriminate].
  destruct c as [i|]; [|discriminate].
  destruct (getitem (attrs L) i) as [a|e]; cbn [bind]; [|discriminate].
  destruct (dict_get a fld) as [v|]; [|discriminate].
  destruct (getitem (geoms L) i) as [g|e] eqn:Eg; cbn [bind]; [|discriminate].
  destruct (getitem (sources L) i) as [src|e] eqn:Es; cbn [bind];
    [|discriminate].
  intros E. injection E as <- <-. cbn.
  repeat (split; [reflexivity|]).
  split.
  { unfold getitem in Es.
    destruct ((0 <=? (if i <? 0 then i + Z.of_nat (List.length (sources L)) else i)) &&
              ((if i <? 0 then i + Z.of_nat (List.length (sources L)) else i) <?
               Z.of_nat (List.length (sources L)))); [|discriminate].
    destruct (nth_error (sources L) _) as [s|] eqn:En; [|discriminate].
    injection Es as <-. exact (nth_error_In _ _ En). }
  unfold row_consistent. cbn.
  destruct (choose_cases L t pt fn _ _ _ Ec)
    as [(j & Ej & -> & -> & Hcov) | [(j & Ej & -> & ->)
       | [(j & Ej & -> & -> & Hfn & _) | (Ej & _)]]];
    try discriminate; injection Ej as <-.
  - split; [auto|]. split; [tauto|]. split; [|discriminate].
    intros _. unfold point_geom_distance_km.
    unfold covers_at in Hcov. rewrite Eg in Hcov. cbn [bind] in Hcov.
    destruct (covers g pt) as [[|]|]; try discriminate. reflexivity.
  - split; [auto|]. split; [split; discriminate|].
    split; discriminate.
  - split; [auto|]. split; [split; discriminate|].
    split; [discriminate | auto].
Qed.

End TierFacts.

Section LoopFacts.
Context `{Builtins} `{Shapely}.

Lemma dict_get_app {V : Type} (d d' : dict V) (k : string) :
  dict_get (d ++ d') k =
  match dict_get d k with Some v => Some v | None => dict_get d' k end.
Proof.
  induction d as [|[k' v'] d IH]; cbn [app dict_get]; [reflexivity|].
  destruct (String.eqb k' k); auto.
Qed.

Lemma dict_set_fresh {V : Type} (d : dict V) (k : string) (v : V) :
  dict_get d k = None -> dict_set d k v = d ++ [(k, v)].
Proof.
  induction d as [|[k' v'] d IH]; cbn [dict_get dict_set app]; [reflexivity|].
  destruct (String.eqb k' k); [discriminate|].
  intros E. rewrite (IH E). reflexivity.
Qed.

Lemma picks_of_keys (units : dict string) (pt : geom) (fn : bool)
  (layers : dict Layer) (k : string) :
  In k (map fst (picks_of units pt fn layers)) -> In k (keys layers).
Proof.
  unfold picks_of, keys. induction layers as [|[fld L] rest IH];
    cbn [flat_map map fst]; [tauto|].
  rewrite map_app. intros Hin. apply in_app_or in Hin.
  destruct Hin as [Hin|Hin]; [|right; auto].
  cbn [fst snd] in Hin.
  destruct (layer_pick units pt fn fld L) as [[p|]|e]; cbn in Hin;
    [destruct Hin as [<-|[]]; now left | contradiction | contradiction].
Qed.

(** With one layer per key, none of them in [results] yet, the loop adds
    the records of the layers that yield one, in the order of the layers,
    and as many debug rows if they are asked for. *)
Lemma query_layers_picks (rules units : dict string) (pt : geom)
  (fn dbg : bool) (layers : dict Layer) (st st' : loop_state) :
  NoDup (keys layers) ->
  (forall k, In k (keys layers) -> dict_get (fst st) k = None) ->
  query_layers rules units pt fn dbg layers st = Ok st' ->
  fst st' = fst st ++ map (fun kp => (fst kp, fst (snd kp)))
                          (picks_of units pt fn layers) /\
  snd st' = snd st ++ (if dbg
                       then map (fun kp => snd (snd kp))
                                (picks_of units pt fn layers)
                       else []).
Proof.
  revert st. induction layers as [|[fld L] rest IH]; intros st Hnd Hfresh Hq.
  - injection Hq as <-. cbn. destruct dbg; rewrite !app_nil_r; auto.
  - cbn [keys map fst] in Hnd. inversion Hnd as [|? ? Hnotin Hnd']; subst.
    cbn [query_layers] in Hq. rewrite query_layer_pick in Hq.
    unfold picks_of. cbn [flat_map fst snd]. fold (picks_of units pt fn rest).
    destruct (layer_pick units pt fn fld L) as [o|e]; cbn [bind] in Hq;
      [|discriminate].
    destruct o as [[rec row]|].
    + rewrite combine_fresh in Hq by (apply Hfresh; now left).
      rewrite dict_set_fresh in Hq by (apply Hfresh; now left).
      apply IH in Hq; [|exact Hnd'|].
      * cbn [fst snd] in Hq. destruct Hq as [Hr Hd]. cbn [app map fst snd].
        rewrite Hr, Hd. split; [rewrite <- app_assoc; reflexivity|].
        destruct dbg; cbn [app]; rewrite <- ?app_assoc, ?app_nil_r;
          reflexivity.
      * intros k Hk. cbn [fst]. rewrite dict_get_app.
        rewrite (Hfresh k) by (now right). cbn [dict_get].
        destruct (String.eqb_spec fld k) as [->|Hne]; [|reflexivity].
        contradiction.
    + apply IH in Hq; [exact Hq | exact Hnd'|].
      intros k Hk. apply Hfresh. now right.
Qed.

Lemma picks_of_rows (units : dict string) (pt : geom) (fn : bool)
  (layers : dict Layer) :
  Forall (fun kp =>
            exists L, In (fst kp, L) layers /\
                      layer_pick units pt fn (fst kp) L = Ok (Some (snd kp)))
         (picks_of units pt fn layers).
Proof.
  unfold picks_of. induction layers as [|[fld L] rest IH]; cbn [flat_map];
    [constructor|].
  apply Forall_app. split.
  - cbn [fst snd].
    destruct (layer_pick units pt fn fld L) as [[p|]|e] eqn:E;
      constructor; [|constructor].
    exists L. split; [now left | exact E].
  - revert IH. apply Forall_impl. intros kp (L' & Hin & E).
    exists L'. split; [now right | exact E].
Qed.

(** X3: against a registry with one layer per field, the values that
    [query_point] returns are the records of the layers that yield one, in
    the order of the registry; the debug rows, when asked for, are the
    rows of the same layers in the same order, one per entry of the
    values, and [None] stands for them otherwise. *)
Theorem query_point_values_in_registry_order
  (G : globals) (lat lon : float) (force_nearest want_debug : bool)
  (results : dict record) (rows : option (list debug_row)) :
  NoDup (keys (LAYERS G)) ->
  fst (query_point lat lon force_nearest want_debug G) = Ok (results, rows) ->
  let picks := picks_of (UNITS G) (Point lon lat) force_nearest (LAYERS G) in
  results = map (fun kp => (fst kp, fst (snd kp))) picks /\
  rows = (if want_debug then Some (map (fun kp => snd (snd kp)) picks)
          else None) /\
  (forall rs, rows = Some rs -> map d_field rs = keys results) /\
  (forall k, In k (keys results) -> In k (keys (LAYERS G))).
Proof.
  intros Hnd. rewrite query_point_eq. cbn [fst].
  destruct (query_layers _ _ _ _ _ _ _) as [st'|e] eqn:Eq; cbn [bind];
    [|discriminate].
  intros E. injection E as <- <-. cbv zeta.
  destruct (query_layers_picks _ _ _ _ _ _ ([], []) _ Hnd (fun _ _ => eq_refl) Eq)
    as [Hr Hd].
  cbn [fst snd app] in Hr, Hd.
  assert (Hfields : map d_field
                      (map (fun kp => snd (snd kp))
                           (picks_of (UNITS G) (Point lon lat) force_nearest
                                     (LAYERS G))) =
                    map fst (picks_of (UNITS G) (Point lon lat) force_nearest
                                      (LAYERS G))).
  { rewrite map_map. apply map_ext_in. intros [k [rec row]] Hin.
    pose proof (picks_of_rows (UNITS G) (Point lon lat) force_nearest
                  (LAYERS G)) as Hall.
    rewrite Forall_forall in Hall. destruct (Hall _ Hin) as (L & _ & E).
    cbn [fst snd] in *. exact (proj1 (layer_pick_row _ _ _ _ _ _ _ E)). }
  split; [exact Hr|]. split; [destruct want_debug; rewrite ?Hd; reflexivity|].
  split.
  - intros rs Hrs. destruct want_debug; [|discriminate].
    injection Hrs as <-. rewrite Hd, Hr, Hfields. unfold keys.
    rewrite map_map. reflexivity.
  - intros k Hk. rewrite Hr in Hk. unfold keys in Hk. rewrite map_map in Hk.
    cbn [fst] in Hk. eapply picks_of_keys. exact Hk.
Qed.

(** X4: every debug row that [query_point] returns names a tier
    ([covers], [nearest_of_candidates] or [nearest_of_layer], never
    [none]); its inside flag is set exactly for [covers], in which case
    its distance is 0.0; [nearest_of_layer] appears only with the fallback
    on; and the row repeats the value and distance of the entry of its
    field, whose source it names, a source of the layer of that field. *)
Theorem debug_rows_describe_values
  (G : globals) (lat lon : float) (force_nearest : bool)
  (results : dict record) (rs : list debug_row) :
  NoDup (keys (LAYERS G)) ->
  fst (query_point lat lon force_nearest true G) = Ok (results, Some rs) ->
  Forall (fun row =>
            row_consistent force_nearest row /\
            exists rec L,
              dict_get results (d_field row) = Some rec /\
              In (d_field row, L) (LAYERS G) /\
              d_value row = r_value rec /\
              d_distance_km row = r_distance_km rec /\
              picked_from row = r_source rec /\
              In (r_source rec) (sources L) /\
              r_unit rec = dict_get_default (UNITS G) (d_field row) "")
         rs.
Proof.
  intros Hnd. rewrite query_point_eq. cbn [fst].
  destruct (query_layers _ _ _ _ _ _ _) as [st'|e] eqn:Eq; cbn [bind];
    [|discriminate].
  intros E. injection E as <- <-.
  destruct (query_layers_picks _ _ _ _ _ _ ([], []) _ Hnd (fun _ _ => eq_refl) Eq)
    as [_ Hd].
  cbn [fst snd app] in Hd. rewrite Hd, Forall_forall. intros row Hin.
  apply in_map_iff in Hin. destruct Hin as ([k [rec row']] & <- & Hin).
  pose proof (picks_of_rows (UNITS G) (Point lon lat) force_nearest
                (LAYERS G)) as Hall.
  rewrite Forall_forall in Hall. destruct (Hall _ Hin) as (L & HL & E).
  cbn [fst snd] in *.
  destruct (layer_pick_row _ _ _ _ _ _ _ E)
    as (Hf & Hsrc & Hv & Hdist & Hu & Hs & Hc).
  split; [exact Hc|]. exists rec, L. rewrite Hf.
  destruct (query_layers_single _ _ _ _ _ _ _ _ k L Hnd Eq HL eq_refl)
    as (o & Ho & Hres).
  rewrite E in Ho. injection Ho as <-. cbn [option_map fst] in Hres.
  auto 10.
Qed.

End LoopFacts.

Section NearestFacts.
Context `{Builtins} `{Shapely}.

Lemma py_min_keys_ok {A : Type} (key : A -> result float) (l : list A) (a : A) :
  py_min key l = Ok a -> Forall (fun b => is_ok (key b) = true) l.
Proof.
  intros Hm. destruct (py_min_minimal key l a Hm) as (_ & ka & _ & Hall).
  apply Forall_forall. intros b Hb. destruct (Hall b Hb) as (kb & -> & _).
  reflexivity.
Qed.

Lemma position_in_range (n : nat) (i : Z) :
  position_ok n i = true -> In i (range n).
Proof.
  unfold position_ok, range. intros Hp. apply andb_prop in Hp.
  destruct Hp as [Hlo Hhi]. apply Z.leb_le in Hlo. apply Z.ltb_lt in Hhi.
  apply in_map_iff. exists (Z.to_nat i). split; [lia|].
  apply in_seq. lia.
Qed.

(** The nearest of a list of positions, as steps 3 and 4 compute it. *)
Lemma nearest_of (L : Layer) (pt : geom) (l : list Z) :
  l <> [] ->
  (distances_ok L pt l ->
   exists i d,
     py_min (distance_key L pt) l = Ok i /\ In i l /\
     distance_key L pt i = Ok d /\
     forall j, In j l ->
               exists dj, distance_key L pt j = Ok dj /\ flt dj d = false) /\
  (~ distances_ok L pt l -> exists e, py_min (distance_key L pt) l = Raise e).
Proof.
  intros Hne. split.
  - intros Hok. destruct (py_min_all_ok (distance_key L pt) l Hne Hok) as [i Hi].
    destruct (py_min_minimal _ _ _ Hi) as (Hin & d & Hd & Hall).
    exists i, d. auto.
  - intros Hnot. destruct (py_min (distance_key L pt) l) as [i|e] eqn:E; [|eauto].
    exfalso. apply Hnot. exact (py_min_keys_ok _ _ _ E).
Qed.

(** X5: when no candidate covers the point and there are candidates, from
    the bounding box of the point or else from the widened envelope, the
    tiers choose one of them with selection [nearest_of_candidates]: if
    every distance can be computed, a candidate whose distance no other
    candidate's is below; if one cannot, the first candidate. *)
Theorem nearest_of_candidates_is_nearest
  (L : Layer) (t : STRtree) (pt : geom) (force_nearest : bool)
  (c1 cands : list Z) :
  bbox_candidates L t pt = Ok c1 ->
  first_covering L pt c1 = None ->
  (c1 <> [] /\ cands = c1) \/
  (c1 = [] /\ expanded_candidates L t pt = Ok cands) ->
  cands <> [] ->
  exists i,
    choose L t pt force_nearest = Ok (Some i, "nearest_of_candidates", false) /\
    In i cands /\
    (distances_ok L pt cands ->
     exists d,
       distance_key L pt i = Ok d /\
       forall j, In j cands ->
                 exists dj, distance_key L pt j = Ok dj /\ flt dj d = false) /\
    (~ distances_ok L pt cands -> hd_error cands = Some i).
Proof.
  intros Hb Hf Hc Hne.
  destruct cands as [|c0 rest]; [congruence|].
  assert (Hch : choose L t pt force_nearest =
                Ok (Some match py_min (distance_key L pt) (c0 :: rest) with
                         | Ok i => i
                         | Raise _ => c0
                         end, "nearest_of_candidates", false)).
  { unfold choose. rewrite Hb. cbn [bind]. rewrite Hf.
    destruct Hc as [[_ <-]|[-> He]].
    - reflexivity.
    - rewrite He. reflexivity. }
  destruct (nearest_of L pt (c0 :: rest) Hne) as [Hgood Hbad].
  destruct (py_min (distance_key L pt) (c0 :: rest)) as [i|e] eqn:Em.
  - exists i. split; [exact Hch|]. split; [exact (py_min_In _ _ _ Em)|].
    split.
    + intros Hok. destruct (Hgood Hok) as (i' & d & Ei & _ & Hd & Hall).
      injection Ei as <-. eauto.
    + intros Hnot. destruct (Hbad Hnot) as [e He]. discriminate.
  - exists c0. split; [exact Hch|]. split; [now left|]. split.
    + intros Hok. destruct (Hgood Hok) as (i' & d & Ei & _). discriminate.
    + reflexivity.
Qed.

(** X6: [_nearest_index] returns [None] for a layer without tree or
    without geometry; the first position of the normalised answer of
    [tree.nearest] when there is one; otherwise the result of a scan of
    every position, a position whose distance no other's is below, or
    [None] when a distance cannot be computed; and it lets an exception
    of [tree.nearest] through. *)
Theorem nearest_index_cases (L : Layer) (pt : geom) :
  (strtree_truthy L = None \/ geoms L = [] -> _nearest_index L pt = Ok None) /\
  (forall t r idxs,
     strtree_truthy L = Some t -> geoms L <> [] ->
     STRtree_nearest t pt = Ok r ->
     _to_index_array L r = Ok idxs ->
     (forall i rest, idxs = i :: rest -> _nearest_index L pt = Ok (Some i)) /\
     (idxs = [] ->
      (distances_ok L pt (range (List.length (geoms L))) ->
       exists i d,
         _nearest_index L pt = Ok (Some i) /\
         position_ok (List.length (geoms L)) i = true /\
         distance_key L pt i = Ok d /\
         forall j, position_ok (List.length (geoms L)) j = true ->
                   exists dj, distance_key L pt j = Ok dj /\
                              flt dj d = false) /\
      (~ distances_ok L pt (range (List.length (geoms L))) ->
       _nearest_index L pt = Ok None))) /\
  (forall t e,
     strtree_truthy L = Some t -> geoms L <> [] ->
     STRtree_nearest t pt = Raise e ->
     _nearest_index L pt = Raise e).
Proof.
  split; [|split].
  - unfold _nearest_index. intros [->|Hg]; [reflexivity|].
    destruct (strtree_truthy L); [|reflexivity]. rewrite Hg. reflexivity.
  - intros t r idxs Ht Hg Hr Hi.
    assert (Hstep : _nearest_index L pt =
              match idxs with
              | i :: _ => Ok (Some i)
              | [] =>
                  try_except
                    (i <- py_min (distance_key L pt)
                                 (range (List.length (geoms L))) ;;
                     Ok (Some i))
                    (Ok None)
              end).
    { unfold _nearest_index. rewrite Ht.
      destruct (geoms L) as [|g gs]; [congruence|].
      cbn [List.length Nat.eqb]. rewrite Hr.
      cbn [try_except_TypeError bind]. rewrite Hi. reflexivity. }
    split.
    + intros i rest ->. exact Hstep.
    + intros ->.
      assert (Hne : range (List.length (geoms L)) <> []).
      { destruct (geoms L); [congruence | discriminate]. }
      destruct (nearest_of L pt _ Hne) as [Hgood Hbad]. split.
      * intros Hok. destruct (Hgood Hok) as (i & d & Ei & Hin & Hd & Hall).
        exists i, d. rewrite Hstep, Ei. split; [reflexivity|].
        split; [exact (range_position _ _ Hin)|]. split; [exact Hd|].
        intros j Hj. apply Hall, position_in_range, Hj.
      * intros Hnot. destruct (Hbad Hnot) as [e Ee].
        rewrite Hstep, Ee. reflexivity.
  - intros t e Ht Hg Hr. exact (nearest_index_raises L pt t e Ht Hg Hr).
Qed.

(** X7: against layers with one attribute map and one source per geometry
    whose index answers with positions of the layer (or raises, where the
    call is guarded) and whose [nearest] answers, [query_point] returns,
    for either value of either flag, and leaves the globals as they
    were. *)
Theorem query_point_returns_with_sound_index
  (G : globals) (lat lon : float) (force_nearest want_debug : bool) :
  forallb (fun kv => layer_ok (Point lon lat) (snd kv)) (LAYERS G) = true ->
  exists results rows,
    query_point lat lon force_nearest want_debug G = (Ok (results, rows), G) /\
    (rows = None <-> want_debug = false).
Proof.
  intros Hok.
  destruct (query_point_returns G lat lon force_nearest want_debug Hok)
    as [[results rows] Hr].
  exists results, rows. split.
  - rewrite (surjective_pairing (query_point _ _ _ _ _)), Hr.
    rewrite query_point_preserves. reflexivity.
  - rewrite query_point_eq in Hr. cbn [fst] in Hr.
    destruct (query_layers _ _ _ _ _ _ _) as [st|e]; cbn [bind] in Hr;
      [|discriminate].
    injection Hr as _ <-. destruct want_debug; split; congruence.
Qed.

(** X8: with the fallback off, when no layer has a candidate for the
    bounding box of the point nor in the widened envelope (in particular
    when there is no layer), [query_point] returns no value, and no debug
    row. *)
Theorem query_point_empty_without_fallback
  (G : globals) (lat lon : float) (want_debug : bool) :
  (forall F L t, In (F, L) (LAYERS G) -> strtree_truthy L = Some t ->
     bbox_candidates L t (Point lon lat) = Ok [] /\
     expanded_candidates L t (Point lon lat) = Ok []) ->
  query_point lat lon false want_debug G
  = (Ok ([], if want_debug then Some [] else None), G).
Proof.
  intros Hempty.
  rewrite (surjective_pairing (query_point _ _ _ _ _)).
  rewrite query_point_preserves.
  rewrite (query_point_nothing_found G lat lon want_debug Hempty).
  reflexivity.
Qed.

End NearestFacts.

(* ------------------------------------------------------------------ *)
(** * Further properties of the load phase *)

Section DetectFacts.

Local Open Scope string_scope.

Lemma prefix_app (sub s : string) :
  String.prefix sub s = true <-> exists post, s = sub ++ post.
Proof.
  revert s. induction sub as [|a sub IH]; intros s.
  - destruct s; cbn; split; eauto.
  - destruct s as [|b s]; cbn.
    + split; [discriminate | intros [post E]; discriminate].
    + destruct (Ascii.ascii_dec a b) as [->|Hne].
      * rewrite IH. split; intros [post E]; exists post; congruence.
      * split; [discriminate|]. intros [post E]. congruence.
Qed.

(** [sub in s] holds exactly when [s] is some text, [sub], some text. *)
Lemma contains_app (sub s : string) :
  contains sub s = true <-> exists pre post, s = pre ++ sub ++ post.
Proof.
  induction s as [|b s IH]; cbn [contains].
  - rewrite orb_false_r, prefix_app. split.
    + intros [post E]. exists "", post. exact E.
    + intros (pre & post & E). destruct pre; [eauto | discriminate].
  - rewrite orb_true_iff, prefix_app, IH. split.
    + intros [[post E]|(pre & post & E)].
      * exists "", post. exact E.
      * exists (String b pre), post. cbn. congruence.
    + intros (pre & post & E). destruct pre as [|c pre].
      * left. exists post. exact E.
      * right. exists pre, post. cbn in E. congruence.
Qed.

Lemma detect_field_in_found (table : dict string) (filename fld : string) :
  detect_field_in table filename = Some fld ->
  exists before key after,
    table = (before ++ (key, fld) :: after)%list /\
    contains (lower key) (lower filename) = true /\
    Forall (fun kf => contains (lower (fst kf)) (lower filename) = false)
           before.
Proof.
  induction table as [|[key f] rest IH]; cbn [detect_field_in]; [discriminate|].
  destruct (contains (lower key) (lower filename)) eqn:Ec.
  - intros E. injection E as <-. exists [], key, rest.
    split; [reflexivity|]. split; [exact Ec | constructor].
  - intros E. destruct (IH E) as (before & k & after & -> & Hk & Hb).
    exists ((key, f) :: before), k, after.
    split; [reflexivity|]. split; [exact Hk|]. constructor; assumption.
Qed.

Lemma detect_field_in_none (table : dict string) (filename : string) :
  detect_field_in table filename = None <->
  Forall (fun kf => contains (lower (fst kf)) (lower filename) = false) table.
Proof.
  induction table as [|[key f] rest IH]; cbn [detect_field_in].
  - split; [constructor | reflexivity].
  - destruct (contains (lower key) (lower filename)) eqn:Ec.
    + split; [discriminate|]. intros Hall. inversion Hall; subst.
      cbn in *. congruence.
    + rewrite IH. split; [constructor; assumption|].
      intros Hall. inversion Hall; assumption.
Qed.

(** X9: the field of a file name is the field of the first pattern of the
    table that occurs in the name, both in lower case; there is none
    exactly when no pattern occurs; and two names with the same lower
    case have the same field. *)
Theorem detect_field_first_pattern (filename : string) :
  (forall fld,
     detect_field filename = Some fld ->
     exists before key after,
       FILE_FIELD_MAP = (before ++ (key, fld) :: after)%list /\
       (exists pre post, lower filename = pre ++ lower key ++ post) /\
       forall k f, In (k, f) before ->
                   ~ exists pre post, lower filename = pre ++ lower k ++ post) /\
  (detect_field filename = None <->
   forall k f, In (k, f) FILE_FIELD_MAP ->
               ~ exists pre post, lower filename = pre ++ lower k ++ post) /\
  (forall other, lower other = lower filename ->
                 detect_field other = detect_field filename).
Proof.
  split; [|split].
  - intros fld E.
    destruct (detect_field_in_found _ _ _ E) as (before & key & after & Ht & Hk & Hb).
    exists before, key, after. split; [exact Ht|].
    split; [apply contains_app; exact Hk|].
    intros k f Hin Hex. rewrite Forall_forall in Hb.
    specialize (Hb (k, f) Hin). cbn [fst] in Hb.
    apply contains_app in Hex. congruence.
  - unfold detect_field. rewrite detect_field_in_none, Forall_forall. split.
    + intros Hall k f Hin Hex. specialize (Hall (k, f) Hin). cbn [fst] in Hall.
      apply contains_app in Hex. congruence.
    + intros Hall [k f] Hin. cbn [fst].
      destruct (contains (lower k) (lower filename)) eqn:Ec; [|reflexivity].
      exfalso. apply (Hall k f Hin). apply contains_app. exact Ec.
  - intros other Hl. unfold detect_field.
    induction FILE_FIELD_MAP as [|[key f] rest IH]; cbn [detect_field_in];
      [reflexivity|].
    rewrite Hl, IH. reflexivity.
Qed.

Lemma detect_field_in_table (filename fld : string) :
  detect_field filename = Some fld -> In fld (map snd FILE_FIELD_MAP).
Proof.
  intros E.
  destruct (detect_field_in_found _ _ _ E) as (before & key & after & -> & _).
  rewrite map_app. apply in_or_app. right. now left.
Qed.

End DetectFacts.

Section RegistryFacts.
Context `{Builtins} `{Shapely} `{!DataDir}.

Lemma safe_number_coerced (val : value) : coerced_value (safe_number val).
Proof.
  unfold safe_number.
  pose proof (NumeralFacts.findall_head (py_str val)) as Hh.
  destruct (Re.findall NUMERAL (py_str val)) as [|m ms].
  - destruct val as [s|f]; [exact Hh | exact I].
  - destruct Hh as (pre & post & _ & Hm & _).
    destruct (NumeralFacts.parse_decimal_Numeral m Hm) as [d Hd].
    unfold float_of_str. rewrite Hd. exact I.
Qed.

Lemma dict_get_In {V : Type} (d : dict V) (k : string) (v : V) :
  dict_get d k = Some v -> In (k, v) d.
Proof.
  induction d as [|[k' v'] d IH]; cbn [dict_get]; [discriminate|].
  destruct (String.eqb_spec k' k) as [->|Hne].
  - intros E. injection E as <-. now left.
  - intros E. right. auto.
Qed.

Lemma dict_set_Forall_entries {V : Type} (P : string * V -> Prop)
  (d : dict V) (k : string) (v : V) :
  Forall P d -> P (k, v) -> Forall P (dict_set d k v).
Proof.
  intros Hd Hv. induction d as [|[k' v'] d IH]; cbn [dict_set].
  - constructor; [exact Hv | constructor].
  - inversion Hd as [|? ? Hv' Hd']; subst.
    destruct (String.eqb_spec k' k) as [->|Hne]; constructor; auto.
Qed.

Lemma add_feature_collected (fld : string) (L : Layer)
  (feat : geom * dict value * string) :
  collected (fld, L) -> collected (fld, add_feature fld L feat).
Proof.
  unfold collected. cbn [fst snd]. intros (Hf & Hin & Hb & Hc & Ht).
  split; [|split; [exact Hin|split; [apply add_feature_balanced; exact Hb|]]].
  - destruct feat as [[g a] src]. exact Hf.
  - destruct feat as [[g a] src]. cbn [add_feature attrs strtree].
    split; [|exact Ht].
    apply Forall_app. split; [exact Hc|]. constructor; [|constructor].
    intros v. destruct (dict_get a fld) as [val|] eqn:Ea.
    + rewrite dict_get_set_same. intros E. injection E as <-.
      apply safe_number_coerced.
    + rewrite Ea. discriminate.
Qed.

Lemma add_features_collected (fld : string)
  (feats : list (geom * dict value * string)) (L : Layer) :
  collected (fld, L) -> collected (fld, fold_left (add_feature fld) feats L).
Proof.
  revert L. induction feats as [|feat feats IH]; intros L HL; [exact HL|].
  cbn [fold_left]. apply IH, add_feature_collected, HL.
Qed.

Lemma load_file_collected (layers : dict Layer) (f : string) :
  Forall collected layers -> Forall collected (load_file layers f).
Proof.
  intros Hall. unfold load_file.
  destruct (detect_field (path_name f)) as [fld|] eqn:Ed; [|exact Hall].
  destruct (String.eqb fld ""); [exact Hall|].
  set (layers' := if dict_mem layers fld then layers
                  else dict_set layers fld (Layer_new fld)).
  assert (Hall' : Forall collected layers').
  { unfold layers'. destruct (dict_mem layers fld); [exact Hall|].
    apply dict_set_Forall_entries; [exact Hall|].
    unfold collected, balanced. cbn.
    split; [reflexivity|]. split; [exact (detect_field_in_table _ _ Ed)|].
    split; [split; reflexivity|]. split; [constructor | reflexivity]. }
  destruct (dict_get layers' fld) as [L|] eqn:EL; [|exact Hall'].
  apply dict_set_Forall_entries; [exact Hall'|].
  apply add_features_collected.
  rewrite Forall_forall in Hall'. exact (Hall' _ (dict_get_In _ _ _ EL)).
Qed.

Lemma build_index_registered (k : string) (L L' : Layer) :
  collected (k, L) -> build_index L = Ok L' -> registered k L'.
Proof.
  unfold collected, registered. cbn [fst snd].
  intros (Hf & Hin & Hb & Hc & Ht) Hbuild.
  pose proof (build_index_balanced L L' Hb Hbuild) as Hb'.
  unfold build_index in Hbuild.
  destruct (map fix_geom (geoms L)) as [|g gs] eqn:Eg.
  - injection Hbuild as <-. cbn [field geoms attrs sources strtree].
    repeat (split; [assumption|]). split; [auto | congruence].
  - destruct (STRtree_new (g :: gs)) as [t|e] eqn:Et; cbn [bind] in Hbuild;
      [|discriminate].
    injection Hbuild as <-. cbn [field geoms attrs sources strtree] in *.
    repeat (split; [assumption|]). split; [discriminate | eauto].
Qed.

Lemma build_all_registered (layers built : dict Layer) :
  Forall collected layers -> build_all layers = Ok built ->
  Forall (fun kv => registered (fst kv) (snd kv)) built.
Proof.
  revert built. induction layers as [|[fld L] rest IH]; intros built Hall.
  - cbn. intros E. injection E as <-. constructor.
  - inversion Hall as [|? ? HL Hrest]; subst. cbn [build_all].
    destruct (build_index L) as [L'|e] eqn:EL; cbn [bind]; [|discriminate].
    destruct (build_all rest) as [rest'|e]; cbn [bind]; [|discriminate].
    intros E. injection E as <-. constructor.
    + exact (build_index_registered fld L L' HL EL).
    + apply IH; [exact Hrest | reflexivity].
Qed.

Lemma fold_load_file_collected (files : list string) (acc : dict Layer) :
  Forall collected acc -> Forall collected (fold_left load_file files acc).
Proof.
  revert acc. induction files as [|f files IH]; intros acc Hacc; [exact Hacc|].
  cbn [fold_left]. apply IH, load_file_collected, Hacc.
Qed.

(** X10: the registry that [load_layers] returns holds one layer per
    field; every layer carries its key, which is a field of the file
    table, and as many attribute maps and sources as geometries; its tree
    is the one built over its geometries, and is missing exactly when it
    has none. *)
Theorem load_layers_registry (layers : dict Layer) :
  load_layers = Ok layers ->
  NoDup (keys layers) /\
  Forall (fun kv =>
            field (snd kv) = fst kv /\
            In (fst kv) (map snd FILE_FIELD_MAP) /\
            List.length (attrs (snd kv)) = List.length (geoms (snd kv)) /\
            List.length (sources (snd kv)) = List.length (geoms (snd kv)) /\
            (geoms (snd kv) = [] <-> strtree (snd kv) = None) /\
            (forall t, strtree (snd kv) = Some t ->
                       STRtree_new (geoms (snd kv)) = Ok t))
         layers.
Proof.
  intros Hload. split; [exact (load_layers_NoDup layers Hload)|].
  unfold load_layers in Hload.
  pose proof (build_all_registered _ _
                (fold_load_file_collected glob_kml [] (Forall_nil _)) Hload)
    as Hall.
  revert Hall. apply Forall_impl. intros [k L]. cbn [fst snd].
  intros (Hf & Hin & [Ha Hs] & _ & Hnone & Hsome).
  repeat (split; [assumption|]). split.
  - split; [exact Hnone|]. intros Hn.
    destruct (geoms L) as [|g gs] eqn:Eg; [reflexivity|].
    destruct Hsome as (t & Et & _); congruence.
  - intros t Et. destruct (geoms L) as [|g gs] eqn:Eg.
    + rewrite Hnone in Et by reflexivity. discriminate.
    + destruct Hsome as (t' & Et' & Hnew); [discriminate|]. congruence.
Qed.

(** X11: in the registry that [load_layers] returns, the value that an
    attribute map holds for the field of its layer is a float or a text
    without a digit: every text with a numeral has been coerced. *)
Theorem load_layers_coerces_values (layers : dict Layer) :
  load_layers = Ok layers ->
  forall k L a v,
    In (k, L) layers -> In a (attrs L) -> dict_get a k = Some v ->
    match v with
    | VFloat _ => True
    | VStr s => NumeralSpec.has_digit s = false
    end.
Proof.
  intros Hload k L a v HL Ha Hv. unfold load_layers in Hload.
  pose proof (build_all_registered _ _
                (fold_load_file_collected glob_kml [] (Forall_nil _)) Hload)
    as Hall.
  rewrite Forall_forall in Hall.
  destruct (Hall (k, L) HL) as (_ & _ & _ & Hc & _). cbn [fst snd] in Hc.
  rewrite Forall_forall in Hc. exact (Hc a Ha v Hv).
Qed.

End RegistryFacts.

(* ------------------------------------------------------------------ *)
(** * The reader of source files *)

Section StrFacts.

Lemma split_on_free (c : ascii) (s : string) :
  Str.split_once c s = None -> Str.split_on c s = [s].
Proof.
  induction s as [|a s IH]; cbn [Str.split_once Str.split_on]; [reflexivity|].
  destruct (Ascii.eqb a c); [discriminate|].
  destruct (Str.split_once c s) as [[k v]|]; [discriminate|].
  intros _. rewrite IH by reflexivity. reflexivity.
Qed.

Lemma split_on_app (c : ascii) (a b : string) :
  Str.split_once c a = None ->
  Str.split_on c (a ++ String c b) = a :: Str.split_on c b.
Proof.
  induction a as [|x a IH]; cbn [Str.split_once Str.split_on String.append].
  - intros _. rewrite Ascii.eqb_refl. reflexivity.
  - destruct (Ascii.eqb x c); [discriminate|].
    destruct (Str.split_once c a) as [[k v]|]; [discriminate|].
    intros _. rewrite IH by reflexivity. reflexivity.
Qed.


Lemma endswith_empty (suffix : string) :
  Str.endswith "" suffix = true -> suffix = "".
Proof.
  cbn. rewrite orb_false_r. intros E. symmetry. now apply String.eqb_eq.
Qed.

Lemma endswith_last_char (s suffix : string) :
  suffix <> "" -> Str.endswith s suffix = true ->
  last_char s = last_char suffix.
Proof.
  intros Hne. induction s as [|a s IH]; intros E.
  - apply endswith_empty in E. contradiction.
  - cbn [Str.endswith] in E. apply orb_true_iff in E. destruct E as [E|E].
    + apply String.eqb_eq in E. now rewrite E.
    + rewrite <- (IH E). destruct s as [|b s]; [|reflexivity].
      apply endswith_empty in E. contradiction.
Qed.

Lemma endswith_apart (t s1 s2 : string) :
  s1 <> "" -> s2 <> "" -> last_char s1 <> last_char s2 ->
  Str.endswith t s1 = true -> Str.endswith t s2 = false.
Proof.
  intros H1 H2 Hne E1. destruct (Str.endswith t s2) eqn:E2; [|reflexivity].
  exfalso. apply Hne.
  rewrite <- (endswith_last_char t s1 H1 E1).
  exact (endswith_last_char t s2 H2 E2).
Qed.

End StrFacts.

Section ReaderFacts.
Context `{Builtins} `{Shapely} `{!Files}.

(** ** The children of a placemark *)

Lemma last_with_cons (suffix : string) (e : element) (l : list element) :
  last_with suffix (e :: l) =
  or_else (last_with suffix l)
          (if Str.endswith (tag e) suffix then Some e else None).
Proof.
  unfold last_with. cbn [filter].
  destruct (Str.endswith (tag e) suffix).
  - cbn [rev].
    destruct (rev (filter (fun e0 => Str.endswith (tag e0) suffix) l));
      reflexivity.
  - destruct (rev (filter (fun e0 => Str.endswith (tag e0) suffix) l));
      reflexivity.
Qed.

Lemma fold_assign (l : list element) (name desc coords : option element) :
  fold_left Kml.assign l (name, desc, coords) =
  (or_else (last_with "name" l) name,
   or_else (last_with "description" l) desc,
   or_else (last_with "coordinates" l) coords).
Proof.
  revert name desc coords.
  induction l as [|e l IH]; intros name desc coords; [reflexivity|].
  cbn [fold_left]. rewrite !last_with_cons.
  unfold Kml.assign at 2.
  destruct (Str.endswith (tag e) "name") eqn:En.
  { rewrite IH.
    rewrite (endswith_apart (tag e) "name" "description")
      by (solve [discriminate | exact En]).
    rewrite (endswith_apart (tag e) "name" "coordinates")
      by (solve [discriminate | exact En]).
    destruct (last_with "name" l), (last_with "description" l),
      (last_with "coordinates" l); reflexivity. }
  destruct (Str.endswith (tag e) "description") eqn:Ed.
  { rewrite IH.
    rewrite (endswith_apart (tag e) "description" "coordinates")
      by (solve [discriminate | exact Ed]).
    destruct (last_with "name" l), (last_with "description" l),
      (last_with "coordinates" l); reflexivity. }
  destruct (Str.endswith (tag e) "coordinates") eqn:Ec.
  { rewrite IH.
    destruct (last_with "name" l), (last_with "description" l),
      (last_with "coordinates" l); reflexivity. }
  rewrite IH.
  destruct (last_with "name" l), (last_with "description" l),
    (last_with "coordinates" l); reflexivity.
Qed.

(** X13: the [name], [description] and [coordinates] of a placemark are,
    each on its own, the last element in document order, among the
    placemark and all its descendants, whose tag ends with that word: a
    nested element that comes later replaces an earlier one, and no tag
    fills two of the three. *)
Theorem pick_children_last_in_document (pm : element) :
  Kml.pick_children pm =
  (last_with "name" (iter pm), last_with "description" (iter pm),
   last_with "coordinates" (iter pm)) /\
  (forall t : string,
     (if Str.endswith t "name" then 1 else 0) +
     (if Str.endswith t "description" then 1 else 0) +
     (if Str.endswith t "coordinates" then 1 else 0) <= 1).
Proof.
  split.
  - unfold Kml.pick_children. rewrite fold_assign.
    destruct (last_with "name" (iter pm)),
      (last_with "description" (iter pm)),
      (last_with "coordinates" (iter pm)); reflexivity.
  - intros t.
    destruct (Str.endswith t "name") eqn:En.
    { rewrite (endswith_apart t "name" "description")
        by (solve [discriminate | exact En]).
      rewrite (endswith_apart t "name" "coordinates")
        by (solve [discriminate | exact En]). lia. }
    destruct (Str.endswith t "description") eqn:Ed.
    { rewrite (endswith_apart t "description" "coordinates")
        by (solve [discriminate | exact Ed]). lia. }
    destruct (Str.endswith t "coordinates"); lia.
Qed.

(** ** The attributes *)

Lemma read_line_value (field : string) (attrs : dict value) (line : string) :
  Kml.read_line field attrs line =
  match line_value field line with
  | Some v => dict_set attrs field (VStr v)
  | None => attrs
  end.
Proof.
  unfold Kml.read_line, line_value.
  destruct (Str.split_once ":" line) as [[k v]|]; [|reflexivity].
  destruct (String.eqb (Str.lower (Str.strip k)) (Str.lower field));
    reflexivity.
Qed.

Lemma dict_set_small (field : string) (attrs : dict value) (v : value) :
  attrs = [] \/ (exists x, attrs = [(field, x)]) ->
  dict_set attrs field v = [(field, v)].
Proof.
  intros [->|[x ->]]; cbn [dict_set]; [reflexivity|].
  rewrite String.eqb_refl. reflexivity.
Qed.

Lemma fold_read_line_none (field : string) (lines : list string)
  (attrs : dict value) :
  Forall (fun l => line_value field l = None) lines ->
  fold_left (Kml.read_line field) lines attrs = attrs.
Proof.
  revert attrs. induction lines as [|l lines IH]; intros attrs Hall;
    [reflexivity|].
  inversion Hall as [|? ? Hl Hrest]; subst. cbn [fold_left].
  rewrite read_line_value, Hl. apply IH, Hrest.
Qed.

Lemma fold_read_line_small (field : string) (lines : list string)
  (attrs : dict value) :
  attrs = [] \/ (exists x, attrs = [(field, x)]) ->
  fold_left (Kml.read_line field) lines attrs = [] \/
  exists x, fold_left (Kml.read_line field) lines attrs = [(field, x)].
Proof.
  revert attrs. induction lines as [|l lines IH]; intros attrs Hs;
    [exact Hs|].
  cbn [fold_left]. apply IH. rewrite read_line_value.
  destruct (line_value field l) as [v|]; [|exact Hs].
  right. exists (VStr v). apply dict_set_small, Hs.
Qed.

Lemma read_attrs_name_small (field : string) (name : option element) :
  name_attrs field (Kml.truthy_text name) = [] \/
  exists x, name_attrs field (Kml.truthy_text name) = [(field, x)].
Proof.
  destruct (Kml.truthy_text name) as [s|]; cbn; eauto.
Qed.

Lemma read_attrs_eq (field : string) (name desc : option element) :
  Kml.read_attrs field name desc =
  match Kml.truthy_text desc with
  | Some s => fold_left (Kml.read_line field) (Str.splitlines s)
                        (name_attrs field (Kml.truthy_text name))
  | None => name_attrs field (Kml.truthy_text name)
  end.
Proof.
  unfold Kml.read_attrs, name_attrs.
  destruct (Kml.truthy_text name); reflexivity.
Qed.

(** X14: the attribute map of a placemark holds at most the field.  The
    last line of the description that names the field, up to case and
    white space before the first colon, gives its value, whatever the
    name says; without such a line, and without description, the text of
    the name does, stripped; without either, the map is empty. *)
Theorem description_overrides_name (field : string)
  (name desc : option element) :
  (forall s before line after v,
     Kml.truthy_text desc = Some s ->
     Str.splitlines s = (before ++ line :: after)%list ->
     line_value field line = Some v ->
     Forall (fun l => line_value field l = None) after ->
     Kml.read_attrs field name desc = [(field, VStr v)]) /\
  (match Kml.truthy_text desc with
   | Some s => Forall (fun l => line_value field l = None) (Str.splitlines s)
   | None => True
   end ->
   Kml.read_attrs field name desc
   = name_attrs field (Kml.truthy_text name)) /\
  (Kml.read_attrs field name desc = [] \/
   exists s, Kml.read_attrs field name desc = [(field, VStr s)]).
Proof.
  rewrite read_attrs_eq. split; [|split].
  - intros s before line after v Hd Hl Hv Hafter. rewrite Hd, Hl.
    rewrite fold_left_app. cbn [fold_left].
    rewrite (fold_read_line_none field after) by exact Hafter.
    rewrite read_line_value, Hv.
    apply dict_set_small, fold_read_line_small, read_attrs_name_small.
  - destruct (Kml.truthy_text desc) as [s|]; [|reflexivity].
    intros Hall. apply fold_read_line_none, Hall.
  - assert (Hgen : forall lines attrs,
               (attrs = [] \/ exists s, attrs = [(field, VStr s)]) ->
               fold_left (Kml.read_line field) lines attrs = [] \/
               exists s, fold_left (Kml.read_line field) lines attrs
                         = [(field, VStr s)]).
    { induction lines as [|l lines IH]; intros attrs Hs; [exact Hs|].
      cbn [fold_left]. apply IH. rewrite read_line_value.
      destruct (line_value field l) as [v|]; [|exact Hs].
      right. exists v. apply dict_set_small.
      destruct Hs as [->|[s ->]]; eauto. }
    assert (Hn : name_attrs field (Kml.truthy_text name) = [] \/
                 exists s, name_attrs field (Kml.truthy_text name)
                           = [(field, VStr s)]).
    { destruct (Kml.truthy_text name) as [s|]; cbn; eauto. }
    destruct (Kml.truthy_text desc) as [s|]; [|exact Hn].
    apply Hgen, Hn.
Qed.

(** ** The coordinates *)

(** X15: a token of the coordinates is read as longitude, then latitude;
    a third component, the altitude, and whatever follows it are ignored,
    and a token without a comma raises [ValueError]. *)
Theorem read_point_ignores_altitude (lon lat rest : string) :
  comma_free lon = true -> comma_free lat = true ->
  Kml.read_point (lon ++ "," ++ lat ++ "," ++ rest)
  = Kml.read_point (lon ++ "," ++ lat) /\
  Kml.read_point (lon ++ "," ++ lat)
  = (x <- float_of_str lon ;; y <- float_of_str lat ;; Ok (x, y)) /\
  Kml.read_point lon = Raise ValueError.
Proof.
  unfold comma_free. intros Hlon Hlat.
  assert (Flon : Str.split_once "," lon = None)
    by (destruct (Str.split_once "," lon); [discriminate | reflexivity]).
  assert (Flat : Str.split_once "," lat = None)
    by (destruct (Str.split_once "," lat); [discriminate | reflexivity]).
  unfold Kml.read_point.
  change ("," ++ lat ++ "," ++ rest)%string
    with (String "," (lat ++ String "," rest)).
  change ("," ++ lat)%string with (String "," lat).
  rewrite !(split_on_app "," lon) by exact Flon.
  rewrite (split_on_app "," lat) by exact Flat.
  rewrite !split_on_free by assumption.
  destruct (Str.split_on "," rest); repeat split; reflexivity.
Qed.

Lemma read_points_spec (tokens : list string) (pts out : list (float * float)) :
  Kml.read_points pts tokens = Ok out <->
  exists ps, out = (pts ++ ps)%list /\
             Forall2 (fun token p => Kml.read_point token = Ok p) tokens ps.
Proof.
  revert pts. induction tokens as [|token rest IH]; intros pts;
    cbn [Kml.read_points].
  - split.
    + intros E. injection E as <-. exists []. rewrite app_nil_r.
      split; [reflexivity | constructor].
    + intros (ps & -> & Hps). inversion Hps. now rewrite app_nil_r.
  - destruct (Kml.read_point token) as [p|e] eqn:Ep; cbn [bind].
    + rewrite IH. split.
      * intros (ps & -> & Hps). exists (p :: ps).
        rewrite <- app_assoc. split; [reflexivity|]. now constructor.
      * intros (ps & -> & Hps).
        inversion Hps as [|? p' ? ps' Hp Hps']; subst.
        assert (p' = p) by congruence. subst p'.
        exists ps'. rewrite <- app_assoc. split; [reflexivity | exact Hps'].
    + split; [discriminate|].
      intros (ps & _ & Hps). inversion Hps as [|? p' ? ps' Hp Hps']; subst.
      congruence.
Qed.

Lemma read_polygon_spec (coords_text : string) (g : geom) :
  Kml.read_polygon coords_text = Ok (Some g) <->
  exists pts,
    Forall2 (fun token p => Kml.read_point token = Ok p)
            (Str.split (Str.strip coords_text)) pts /\
    (3 <= List.length pts)%nat /\
    Polygon pts = Ok g.
Proof.
  unfold Kml.read_polygon.
  destruct (Kml.read_points [] (Str.split (Str.strip coords_text)))
    as [pts|e] eqn:Er; cbn [bind].
  - apply read_points_spec in Er. destruct Er as (ps & -> & Hps).
    cbn [app]. split.
    + destruct (3 <=? List.length ps)%nat eqn:E3; [|discriminate].
      destruct (Polygon ps) as [g'|e] eqn:Eg; cbn [bind]; [|discriminate].
      intros E. injection E as <-. exists ps.
      apply Nat.leb_le in E3. auto.
    + intros (pts & Hpts & H3 & Hg).
      assert (pts = ps).
      { clear - Hps Hpts. revert pts Hpts.
        induction Hps as [|? ? ? ? Hp _ IH]; intros pts Hpts;
          inversion Hpts as [|? ? ? ? Hp' Hrest]; subst; [reflexivity|].
        f_equal; [congruence | apply IH, Hrest]. }
      subst pts. apply Nat.leb_le in H3. rewrite H3, Hg. reflexivity.
  - split; [discriminate|].
    intros (pts & Hpts & _).
    assert (E : Kml.read_points [] (Str.split (Str.strip coords_text))
                = Ok pts)
      by (apply read_points_spec; exists pts; split;
          [reflexivity | exact Hpts]).
    congruence.
Qed.

(** ** Placemarks and files *)

Lemma parse_placemark_app (path field : string)
  (results : list (geom * dict value * string)) (pm : element) :
  Kml.parse_placemark path field results pm =
  (results ++ Kml.parse_placemark path field [] pm)%list.
Proof.
  unfold Kml.parse_placemark.
  destruct (Kml.pick_children pm) as [[name desc] coords].
  destruct (Kml.truthy_text coords) as [s|]; [|now rewrite app_nil_r].
  destruct (Kml.read_polygon s) as [[g|]|e];
    [reflexivity | now rewrite app_nil_r | now rewrite app_nil_r].
Qed.

Lemma fold_parse_placemark (path field : string) (pms : list element)
  (results : list (geom * dict value * string)) :
  fold_left (Kml.parse_placemark path field) pms results =
  (results ++ flat_map (Kml.parse_placemark path field []) pms)%list.
Proof.
  revert results. induction pms as [|pm pms IH]; intros results.
  - cbn. now rewrite app_nil_r.
  - cbn [fold_left flat_map]. rewrite IH, parse_placemark_app.
    now rewrite app_assoc.
Qed.

(** X16: a placemark gives a feature exactly when its coordinates have
    text, every token of it reads as a point, there are at least three
    tokens, and [Polygon] accepts the points; the feature then carries
    that polygon, the attribute map of the placemark and the name of the
    file.  Otherwise the placemark gives nothing: one token that cannot be
    read discards the placemark. *)
Theorem placemark_feature_iff (path field : string) (pm : element)
  (feat : geom * dict value * string) :
  let '(name, desc, coords) := Kml.pick_children pm in
  (Kml.parse_placemark path field [] pm = [feat] <->
   snd feat = name_of path /\
   snd (fst feat) = Kml.read_attrs field name desc /\
   exists s pts,
     Kml.truthy_text coords = Some s /\
     Forall2 (fun token p => Kml.read_point token = Ok p)
             (Str.split (Str.strip s)) pts /\
     (3 <= List.length pts)%nat /\
     Polygon pts = Ok (fst (fst feat))) /\
  (Kml.parse_placemark path field [] pm = [] \/
   exists f, Kml.parse_placemark path field [] pm = [f]).
Proof.
  unfold Kml.parse_placemark.
  destruct (Kml.pick_children pm) as [[name desc] coords].
  destruct feat as [[g a] src]. cbn [fst snd].
  destruct (Kml.truthy_text coords) as [s|].
  - pose proof (read_polygon_spec s) as Hspec.
    destruct (Kml.read_polygon s) as [[g'|]|e]; cbn [app].
    + split; [|right; eauto]. split.
      * intros E. injection E as <- <- <-.
        split; [reflexivity|]. split; [reflexivity|].
        destruct (proj1 (Hspec g') eq_refl) as (pts & Hp). eauto.
      * intros (-> & -> & s' & pts & Es & Hp). injection Es as <-.
        assert (E : Ok (Some g') = Ok (Some g))
          by (apply (Hspec g); eauto).
        injection E as <-. reflexivity.
    + split; [|now left]. split; [discriminate|].
      intros (_ & _ & s' & pts & Es & Hp). injection Es as <-.
      assert (E : @Ok (option geom) None = Ok (Some g))
        by (apply (Hspec g); eauto).
      discriminate E.
    + split; [|now left]. split; [discriminate|].
      intros (_ & _ & s' & pts & Es & Hp). injection Es as <-.
      assert (E : @Raise (option geom) e = Ok (Some g))
        by (apply (Hspec g); eauto).
      discriminate E.
  - split; [|now left]. split; [discriminate|].
    intros (_ & _ & s' & pts & Es & _). discriminate Es.
Qed.

Lemma parse_placemark_short (path field : string) (pm : element) :
  (List.length (Kml.parse_placemark path field [] pm) <= 1)%nat.
Proof.
  unfold Kml.parse_placemark.
  destruct (Kml.pick_children pm) as [[name desc] coords].
  destruct (Kml.truthy_text coords) as [s|]; [|cbn; lia].
  destruct (Kml.read_polygon s) as [[g|]|e]; cbn; lia.
Qed.

(** X17: a file that cannot be parsed gives no feature; a parsed file
    gives the features of its placemarks, the elements whose tag ends
    with [Placemark] wherever they stand in the document, in document
    order, each read on its own, so that a placemark that gives nothing
    takes nothing from the others; and there are no more features than
    placemarks. *)
Theorem parse_kml_file_by_placemark (path field : string) :
  (forall e, ET_parse path = Raise e -> Kml.parse_kml_file path field = []) /\
  (forall root,
     ET_parse path = Ok root ->
     Kml.parse_kml_file path field
     = flat_map (Kml.parse_placemark path field []) (Kml.placemarks_of root) /\
     (List.length (Kml.parse_kml_file path field)
      <= List.length (Kml.placemarks_of root))%nat).
Proof.
  unfold Kml.parse_kml_file. split.
  - intros e ->. reflexivity.
  - intros root ->. rewrite fold_parse_placemark. cbn [app].
    split; [reflexivity|].
    induction (Kml.placemarks_of root) as [|pm pms IH]; [cbn; lia|].
    cbn [flat_map]. rewrite length_app. cbn [List.length].
    pose proof (parse_placemark_short path field pm). lia.
Qed.

Lemma read_attrs_shape (field : string) (name desc : option element) :
  Kml.read_attrs field name desc = [] \/
  exists s, Kml.read_attrs field name desc = [(field, VStr (Str.strip s))].
Proof.
  rewrite read_attrs_eq.
  assert (Hgen : forall lines attrs,
             (attrs = [] \/ exists s, attrs = [(field, VStr (Str.strip s))]) ->
             fold_left (Kml.read_line field) lines attrs = [] \/
             exists s, fold_left (Kml.read_line field) lines attrs
                       = [(field, VStr (Str.strip s))]).
  { induction lines as [|l lines IH]; intros attrs Hs; [exact Hs|].
    cbn [fold_left]. apply IH. unfold Kml.read_line.
    destruct (Str.split_once ":" l) as [[k v]|]; [|exact Hs].
    destruct (String.eqb (Str.lower (Str.strip k)) (Str.lower field));
      [|exact Hs].
    right. exists v. apply dict_set_small.
    destruct Hs as [->|[s0 ->]]; eauto. }
  assert (Hn : name_attrs field (Kml.truthy_text name) = [] \/
               exists s, name_attrs field (Kml.truthy_text name)
                         = [(field, VStr (Str.strip s))]).
  { destruct (Kml.truthy_text name) as [s0|]; cbn; eauto. }
  destruct (Kml.truthy_text desc) as [s0|]; [|exact Hn].
  apply Hgen, Hn.
Qed.

(** Where a feature of a file comes from. *)
Lemma features_origin (path field : string)
  (g : geom) (a : dict value) (src : string) :
  In (g, a, src) (Kml.parse_kml_file path field) ->
  exists name desc s,
    a = Kml.read_attrs field name desc /\
    src = name_of path /\
    Kml.read_polygon s = Ok (Some g).
Proof.
  unfold Kml.parse_kml_file.
  destruct (ET_parse path) as [root|e]; [|intros []].
  rewrite fold_parse_placemark. cbn [app]. rewrite in_flat_map.
  intros (pm & _ & Hin). revert Hin. unfold Kml.parse_placemark.
  destruct (Kml.pick_children pm) as [[name desc] coords].
  destruct (Kml.truthy_text coords) as [s|]; [|intros []].
  destruct (Kml.read_polygon s) as [[g'|]|e] eqn:Er; [|intros []|intros []].
  cbn [app]. intros [E|[]]. injection E as <- <- <-.
  exists name, desc, s. auto.
Qed.

(** X18: every feature that [parse_kml_file] returns names the file it
    was read from, holds a polygon made of at least three points, and an
    attribute map that is empty or holds the field alone, with a stripped
    text. *)
Theorem parse_kml_file_features (path field : string)
  (g : geom) (a : dict value) (src : string) :
  In (g, a, src) (Kml.parse_kml_file path field) ->
  src = name_of path /\
  (a = [] \/ exists s, a = [(field, VStr (Str.strip s))]) /\
  exists pts, (3 <= List.length pts)%nat /\ Polygon pts = Ok g.
Proof.
  intros Hin.
  destruct (features_origin path field g a src Hin)
    as (name & desc & s & -> & -> & Hpoly).
  split; [reflexivity|]. split.
  - apply read_attrs_shape.
  - unfold Kml.read_polygon in Hpoly.
    destruct (Kml.read_points [] (Str.split (Str.strip s))) as [pts|e];
      cbn [bind] in Hpoly; [|discriminate].
    destruct (3 <=? List.length pts)%nat eqn:E3; [|discriminate].
    destruct (Polygon pts) as [g'|e] eqn:Eg; cbn [bind] in Hpoly;
      [|discriminate].
    injection Hpoly as <-. exists pts. apply Nat.leb_le in E3. auto.
Qed.

End ReaderFacts.

(* ------------------------------------------------------------------ *)
(** * Loading through the reader *)

Section LoadThroughReader.
Context `{Builtins} `{Shapely} `{!Files}.

Lemma add_feature_as_read (fld : string) (L : Layer)
  (feat : geom * dict value * string) :
  as_read (fld, L) ->
  (snd (fst feat) = [] \/ exists s, snd (fst feat) = [(fld, VStr s)]) ->
  read_from fld (snd feat) ->
  as_read (fld, add_feature fld L feat).
Proof.
  unfold as_read. cbn [fst snd]. intros [Ha Hs] Hshape Hsrc.
  destruct feat as [[g a] src]. cbn [fst snd] in *.
  cbn [add_feature attrs sources]. split.
  - apply Forall_app. split; [exact Ha|]. constructor; [|constructor].
    destruct Hshape as [->|[s ->]]; [now left|].
    cbn [dict_get]. rewrite String.eqb_refl. cbn [dict_set].
    rewrite String.eqb_refl. right. eexists. split; [reflexivity|].
    apply safe_number_coerced.
  - apply Forall_app. split; [exact Hs|]. constructor; [exact Hsrc|constructor].
Qed.

Lemma add_features_as_read (fld : string)
  (feats : list (geom * dict value * string)) (L : Layer) :
  as_read (fld, L) ->
  Forall (fun feat =>
            (snd (fst feat) = [] \/ exists s, snd (fst feat) = [(fld, VStr s)])
            /\ read_from fld (snd feat)) feats ->
  as_read (fld, fold_left (add_feature fld) feats L).
Proof.
  revert L. induction feats as [|feat feats IH]; intros L HL Hall; [exact HL|].
  inversion Hall as [|? ? [Hshape Hsrc] Hrest]; subst.
  cbn [fold_left]. apply IH; [|exact Hrest].
  apply add_feature_as_read; assumption.
Qed.

Lemma load_file_as_read (layers : dict Layer) (f : string) :
  In f glob_paths ->
  Forall as_read layers ->
  Forall as_read (@load_file _ _ files_datadir layers f).
Proof.
  intros Hf Hall. unfold load_file. cbn [path_name parse_kml_file files_datadir].
  destruct (detect_field (name_of f)) as [fld|] eqn:Ed; [|exact Hall].
  destruct (String.eqb fld ""); [exact Hall|].
  set (layers' := if dict_mem layers fld then layers
                  else dict_set layers fld (Layer_new fld)).
  assert (Hall' : Forall as_read layers').
  { unfold layers'. destruct (dict_mem layers fld); [exact Hall|].
    apply dict_set_Forall_entries; [exact Hall|].
    split; constructor. }
  destruct (dict_get layers' fld) as [L|] eqn:EL; [|exact Hall'].
  apply dict_set_Forall_entries; [exact Hall'|].
  apply add_features_as_read.
  - rewrite Forall_forall in Hall'. exact (Hall' _ (dict_get_In _ _ _ EL)).
  - apply Forall_forall. intros [[g a] src] Hin. cbn [fst snd].
    destruct (features_origin f fld g a src Hin)
      as (name & desc & s & -> & -> & _).
    split.
    + destruct (read_attrs_shape fld name desc) as [->|[s0 ->]]; eauto.
    + exists f. auto.
Qed.

Lemma fold_load_file_as_read (files : list string) (acc : dict Layer) :
  incl files glob_paths ->
  Forall as_read acc ->
  Forall as_read (fold_left (@load_file _ _ files_datadir) files acc).
Proof.
  revert acc. induction files as [|f files IH]; intros acc Hincl Hacc;
    [exact Hacc|].
  cbn [fold_left]. apply IH.
  - intros x Hx. apply Hincl. now right.
  - apply load_file_as_read; [apply Hincl; now left | exact Hacc].
Qed.

Lemma build_all_as_read (layers built : dict Layer) :
  Forall as_read layers -> build_all layers = Ok built ->
  Forall as_read built.
Proof.
  revert built. induction layers as [|[fld L] rest IH]; intros built Hall.
  - cbn. intros E. injection E as <-. constructor.
  - inversion Hall as [|? ? HL Hrest]; subst. cbn [build_all].
    destruct (build_index L) as [L'|e] eqn:EL; cbn [bind]; [|discriminate].
    destruct (build_all rest) as [rest'|e]; cbn [bind]; [|discriminate].
    intros E. injection E as <-. constructor.
    + unfold build_index in EL.
      destruct (map fix_geom (geoms L)) as [|g gs].
      * injection EL as <-. exact HL.
      * destruct (STRtree_new (g :: gs)); cbn [bind] in EL; [|discriminate].
        injection EL as <-. exact HL.
    + apply IH; [exact Hrest | reflexivity].
Qed.

(** X19: when the files are read with [parse_kml_file], every attribute
    map of the registry that [load_layers] returns is empty or holds the
    field of its layer alone, with a float or a text without a digit, and
    every source of a layer is the name of a file of the data directory
    that [detect_field] gives to the field of the layer. *)
Theorem load_layers_reads_files (layers : dict Layer) :
  @load_layers _ _ files_datadir = Ok layers ->
  forall k L, In (k, L) layers ->
    Forall (fun a => a = [] \/
                     exists v, a = [(k, v)] /\
                               match v with
                               | VFloat _ => True
                               | VStr s => NumeralSpec.has_digit s = false
                               end) (attrs L) /\
    Forall (fun src => exists f, In f glob_paths /\ src = name_of f /\
                                 detect_field (name_of f) = Some k)
           (sources L).
Proof.
  unfold load_layers. intros Hload k L Hin.
  assert (Hall : Forall as_read layers).
  { apply (build_all_as_read _ _ (fold_load_file_as_read _ [] (incl_refl _)
                                    (Forall_nil _)) Hload). }
  rewrite Forall_forall in Hall. exact (Hall _ Hin).
Qed.

End LoadThroughReader.

(* ------------------------------------------------------------------ *)
(** * The route *)

Section RouteFacts.
Context `{Builtins} `{Shapely} `{Tracebacks}.


End RouteFacts.

(* ------------------------------------------------------------------ *)
(** * Closed runs of the further properties *)

Module MoreRuns.
Import Toy Samples.

(** The reader on the sample document: the first placemark takes its
    value from the description, the second from its name, and the three
    others give nothing. *)
Example sample_document_features :
  @Kml.parse_kml_file builtins (shapely no_faults) (files no_faults)
                      pga_file "pga"
  = [ (box 0 0 10 10, [("pga", VStr "0.4 g")], "pga-earthquake.kml");
      (box 8 0 20 10, [("pga", VStr "0.2")], "pga-earthquake.kml") ].
Proof. reflexivity. Qed.

Example sample_document_loads :
  @load_layers builtins (shapely no_faults)
               (@files_datadir builtins (shapely no_faults) (files no_faults))
  = Ok (read_layers no_faults).
Proof. reflexivity. Qed.

(** The route answers 500 where [query_point] raises, and 200 with the
    input echoed where it returns. *)
Example sample_route_answers :
  route nearest_fault 5 60 true false
  = Ok (mkResponse 500
          (ErrorPayload "internal_error" "error"
                        ["Traceback (most recent call last):"])) /\
  route nearest_fault 5 60 false false
  = Ok (mkResponse 200
          (QueryPayload (float_of_Z 5) (float_of_Z 60) false [] None)).
Proof. split; vm_compute; reflexivity. Qed.

(** Inside the second rectangle of [pga] and the rectangle of [v]. *)
Lemma query_point_values_in_registry_order_witness :
  NoDup (keys (LAYERS (G0 no_faults))) /\
  exists results rows,
    fst (run_query no_faults (G0 no_faults) 5 9 true true)
    = Ok (results, rows) /\
    (forall rs, rows = Some rs -> map d_field rs = keys results) /\
    (forall k, In k (keys results) -> In k (keys (LAYERS (G0 no_faults)))).
Proof.
  assert (Hnd : NoDup (keys (LAYERS (G0 no_faults)))).
  { repeat constructor; cbn; intuition discriminate. }
  split; [exact Hnd|].
  assert (Hq : exists results rows,
             fst (run_query no_faults (G0 no_faults) 5 9 true true)
             = Ok (results, rows)).
  { eexists. eexists. vm_compute. reflexivity. }
  destruct Hq as (results & rows & Hq).
  exists results, rows. split; [exact Hq|].
  exact (proj2 (proj2 (@query_point_values_in_registry_order builtins
                         (shapely no_faults) (G0 no_faults)
                         (float_of_Z 5) (float_of_Z 9) true true
                         results rows Hnd Hq))).
Defined.

(** East of every rectangle, where both layers answer by the fallback. *)
Lemma debug_rows_describe_values_witness :
  NoDup (keys (LAYERS (G0 no_faults))) /\
  exists results rs,
    fst (run_query no_faults (G0 no_faults) 5 60 true true)
    = Ok (results, Some rs) /\
    Forall (fun row => @row_consistent true row /\
                       dict_mem results (d_field row) = true) rs.
Proof.
  assert (Hnd : NoDup (keys (LAYERS (G0 no_faults)))).
  { repeat constructor; cbn; intuition discriminate. }
  split; [exact Hnd|].
  assert (Hq : exists results rs,
             fst (run_query no_faults (G0 no_faults) 5 60 true true)
             = Ok (results, Some rs)).
  { eexists. eexists. vm_compute. reflexivity. }
  destruct Hq as (results & rs & Hq).
  exists results, rs. split; [exact Hq|].
  refine (Forall_impl _ _ (@debug_rows_describe_values builtins
                             (shapely no_faults) (G0 no_faults)
                             (float_of_Z 5) (float_of_Z 60) true
                             results rs Hnd Hq)).
  intros row (Hrow & rec & L & Hget & _). split; [exact Hrow|].
  unfold dict_mem. rewrite Hget. reflexivity.
Defined.

(** Inside both rings, five units from the narrower one. *)
Lemma nearest_of_candidates_is_nearest_witness :
  let L := rings_layer no_faults in
  let pt := TPoint (float_of_Z 25) (float_of_Z 20) in
  @bbox_candidates (shapely no_faults) L (geoms L) pt = Ok [0; 1] /\
  @first_covering (shapely no_faults) L pt [0; 1] = None /\
  exists i,
    @choose (shapely no_faults) L (geoms L) pt true
    = Ok (Some i, "nearest_of_candidates", false) /\
    In i [0; 1].
Proof.
  cbv zeta.
  assert (H1 : @bbox_candidates (shapely no_faults) (rings_layer no_faults)
                 (geoms (rings_layer no_faults))
                 (TPoint (float_of_Z 25) (float_of_Z 20)) = Ok [0; 1])
    by (vm_compute; reflexivity).
  assert (H2 : @first_covering (shapely no_faults) (rings_layer no_faults)
                 (TPoint (float_of_Z 25) (float_of_Z 20)) [0; 1] = None)
    by (vm_compute; reflexivity).
  assert (Hne : [0; 1] <> @nil Z) by discriminate.
  split; [exact H1|]. split; [exact H2|].
  destruct (@nearest_of_candidates_is_nearest (shapely no_faults)
              (rings_layer no_faults) (geoms (rings_layer no_faults))
              (TPoint (float_of_Z 25) (float_of_Z 20)) true [0; 1] [0; 1]
              H1 H2 (or_introl (conj Hne eq_refl)) Hne)
    as (i & Hc & Hin & _).
  exists i. split; [exact Hc | exact Hin].
Defined.

(** The sample layers at a point inside two rectangles. *)
Lemma query_point_returns_with_sound_index_witness :
  forallb (fun kv => @layer_ok (shapely no_faults)
                       (TPoint (float_of_Z 9) (float_of_Z 5)) (snd kv))
          (LAYERS (G0 no_faults)) = true /\
  exists results rows,
    run_query no_faults (G0 no_faults) 5 9 true false
    = (Ok (results, rows), G0 no_faults) /\
    (rows = None <-> false = false).
Proof.
  assert (Hok : forallb (fun kv => @layer_ok (shapely no_faults)
                           (TPoint (float_of_Z 9) (float_of_Z 5)) (snd kv))
                        (LAYERS (G0 no_faults)) = true)
    by (vm_compute; reflexivity).
  split; [exact Hok|].
  exact (@query_point_returns_with_sound_index builtins (shapely no_faults)
           (G0 no_faults) (float_of_Z 5) (float_of_Z 9) true false Hok).
Defined.

(** North-east of every rectangle, with the fallback off. *)
Lemma query_point_empty_without_fallback_witness :
  (forall F L t,
     In (F, L) (LAYERS (G0 no_faults)) ->
     @strtree_truthy (shapely no_faults) L = Some t ->
     @bbox_candidates (shapely no_faults) L t
       (TPoint (float_of_Z 100) (float_of_Z 100)) = Ok [] /\
     @expanded_candidates (shapely no_faults) L t
       (TPoint (float_of_Z 100) (float_of_Z 100)) = Ok []) /\
  run_query no_faults (G0 no_faults) 100 100 false true
  = (Ok ([], Some []), G0 no_faults).
Proof.
  assert (Hyp : forall F L t,
     In (F, L) (LAYERS (G0 no_faults)) ->
     @strtree_truthy (shapely no_faults) L = Some t ->
     @bbox_candidates (shapely no_faults) L t
       (TPoint (float_of_Z 100) (float_of_Z 100)) = Ok [] /\
     @expanded_candidates (shapely no_faults) L t
       (TPoint (float_of_Z 100) (float_of_Z 100)) = Ok []).
  { intros F L t [E|[E|[]]] Ht; injection E as _ <-;
      vm_compute in Ht; injection Ht as <-;
      split; vm_compute; reflexivity. }
  split; [exact Hyp|].
  exact (@query_point_empty_without_fallback builtins (shapely no_faults)
           (G0 no_faults) (float_of_Z 100) (float_of_Z 100) true Hyp).
Defined.

(** The registry of the two sample files. *)
Lemma load_layers_registry_witness :
  @load_layers builtins (shapely no_faults) (datadir no_faults)
  = Ok (LAYERS (G0 no_faults)) /\
  NoDup (keys (LAYERS (G0 no_faults))).
Proof.
  assert (Hload : @load_layers builtins (shapely no_faults) (datadir no_faults)
                  = Ok (LAYERS (G0 no_faults))) by reflexivity.
  split; [exact Hload|].
  exact (proj1 (@load_layers_registry builtins (shapely no_faults)
                  (datadir no_faults) _ Hload)).
Defined.

(** The text [0.35 g] of the second feature of [pga] has become a
    float. *)
Lemma load_layers_coerces_values_witness :
  @load_layers builtins (shapely no_faults) (datadir no_faults)
  = Ok (LAYERS (G0 no_faults)) /\
  forall k L a v,
    In (k, L) (LAYERS (G0 no_faults)) -> In a (attrs L) ->
    dict_get a k = Some v ->
    match v with
    | VFloat _ => True
    | VStr s => NumeralSpec.has_digit s = false
    end.
Proof.
  assert (Hload : @load_layers builtins (shapely no_faults) (datadir no_faults)
                  = Ok (LAYERS (G0 no_faults))) by reflexivity.
  split; [exact Hload|].
  exact (@load_layers_coerces_values builtins (shapely no_faults)
           (datadir no_faults) _ Hload).
Defined.

(** A token with an altitude. *)
Lemma read_point_ignores_altitude_witness :
  comma_free "46.5" = true /\ comma_free "24.7" = true /\
  @Kml.read_point builtins ("46.5" ++ "," ++ "24.7" ++ "," ++ "0")
  = @Kml.read_point builtins ("46.5" ++ "," ++ "24.7").
Proof.
  split; [reflexivity|]. split; [reflexivity|].
  exact (proj1 (@read_point_ignores_altitude builtins "46.5" "24.7" "0"
                  eq_refl eq_refl)).
Defined.

(** The first feature of the sample document. *)
Lemma parse_kml_file_features_witness :
  In (box 0 0 10 10, [("pga", VStr "0.4 g")], "pga-earthquake.kml")
     (@Kml.parse_kml_file builtins (shapely no_faults) (files no_faults)
                          pga_file "pga") /\
  exists pts, (3 <= List.length pts)%nat /\ hull pts = Ok (box 0 0 10 10).
Proof.
  assert (Hin : In (box 0 0 10 10, [("pga", VStr "0.4 g")],
                    "pga-earthquake.kml")
                   (@Kml.parse_kml_file builtins (shapely no_faults)
                      (files no_faults) pga_file "pga"))
    by (left; reflexivity).
  split; [exact Hin|].
  exact (proj2 (proj2 (@parse_kml_file_features builtins (shapely no_faults)
                         (files no_faults) pga_file "pga" _ _ _ Hin))).
Defined.

(** The registry of the sample directory. *)
Lemma load_layers_reads_files_witness :
  @load_layers builtins (shapely no_faults)
               (@files_datadir builtins (shapely no_faults) (files no_faults))
  = Ok (read_layers no_faults) /\
  forall k L, In (k, L) (read_layers no_faults) ->
    Forall (fun a => a = [] \/
                     exists v, a = [(k, v)] /\
                               match v with
                               | VFloat _ => True
                               | VStr s => NumeralSpec.has_digit s = false
                               end) (attrs L) /\
    Forall (fun src => exists f, In f (@glob_paths _ (files no_faults)) /\
                                 src = strip_dir f /\
                                 detect_field (strip_dir f) = Some k)
           (sources L).
Proof.
  assert (Hload : @load_layers builtins (shapely no_faults)
                    (@files_datadir builtins (shapely no_faults)
                                    (files no_faults))
                  = Ok (read_layers no_faults)) by reflexivity.
  split; [exact Hload|].
  exact (@load_layers_reads_files builtins (shapely no_faults)
           (files no_faults) _ Hload).
Defined.

End MoreRuns.
